(** * AI_Talking_Web: the adapter, the client of the backend and the two
      dialogue orchestrators

    A shallow embedding of

    - [AI_Talking_Web/src/services/aiService.ts] (class [AIService]),
    - the client of the backend with its retry loop and its token bucket
      (class [ApiService]),
    - the discussion orchestrator (class [ChatService]),
    - [AI_Talking_Web/public/js/services/debateService.js]
      (class [DebateService]),

    followed by the properties of the specification stated on them.

    JavaScript strings are modelled as [string] holding the UTF-8 bytes of
    the text; [Date.now()] readings and round counts as [Z]; thrown values
    and the control flow of [break], [return] and [throw] by a small
    state-and-signal monad; the world around a run (the network, the clock,
    the user pressing "stop") by oracles indexed by the number of the
    request. *)

From Stdlib Require Import String Ascii List ZArith QArith_base Lia Bool Arith.
From Stdlib Require Import DecimalString.
Import ListNotations.
Local Close Scope Q_scope.
Local Open Scope list_scope.
Local Open Scope string_scope.

(* ===================================================================== *)
(** ** JavaScript strings                                                 *)
(* ===================================================================== *)

Module Js.

Definition nl : ascii := "010"%char.
Definition dquote : ascii := "034"%char.

Definition NL : string := String nl EmptyString.
Definition DQ : string := String dquote EmptyString.

(** Truthiness of a string: only the empty string is falsy. *)
Definition truthy (s : string) : bool :=
  match s with EmptyString => false | String _ _ => true end.

(** [s || d] on strings. *)
Definition orElse (s d : string) : string := if truthy s then s else d.

Fixpoint rev_onto (s acc : string) : string :=
  match s with
  | EmptyString => acc
  | String c s' => rev_onto s' (String c acc)
  end.

Definition rev (s : string) : string := rev_onto s EmptyString.

Fixpoint drop (n : nat) (s : string) : string :=
  match n, s with
  | O, _ => s
  | S n', String _ s' => drop n' s'
  | S _, EmptyString => EmptyString
  end.

(** ECMAScript [WhiteSpace] and [LineTerminator] code points, as the bytes
    of their UTF-8 encodings.  One byte: TAB, LF, VT, FF, CR, SP. *)
Definition ws1 (c : ascii) : bool :=
  let n := nat_of_ascii c in
  (((9 <=? n) && (n <=? 13)) || (n =? 32))%nat.

(** Two bytes: U+00A0 (C2 A0). *)
Definition ws2 (c1 c2 : ascii) : bool :=
  ((nat_of_ascii c1 =? 194) && (nat_of_ascii c2 =? 160))%nat.

(** Three bytes: U+1680, U+2000..U+200A, U+2028, U+2029, U+202F, U+205F,
    U+3000, U+FEFF. *)
Definition ws3 (c1 c2 c3 : ascii) : bool :=
  let a := nat_of_ascii c1 in
  let b := nat_of_ascii c2 in
  let c := nat_of_ascii c3 in
  (((a =? 225) && (b =? 154) && (c =? 128))
   || ((a =? 226) && (b =? 128)
       && (((128 <=? c) && (c <=? 138)) || (c =? 168) || (c =? 169) || (c =? 175)))
   || ((a =? 226) && (b =? 129) && (c =? 159))
   || ((a =? 227) && (b =? 128) && (c =? 128))
   || ((a =? 239) && (b =? 187) && (c =? 191)))%nat.

(** [String.prototype.trimStart]. *)
Fixpoint trimStart (s : string) : string :=
  match s with
  | EmptyString => s
  | String c1 s1 =>
      if ws1 c1 then trimStart s1
      else match s1 with
           | EmptyString => s
           | String c2 s2 =>
               if ws2 c1 c2 then trimStart s2
               else match s2 with
                    | EmptyString => s
                    | String c3 s3 =>
                        if ws3 c1 c2 c3 then trimStart s3 else s
                    end
           end
  end.

(** The same scan on the reversed text, where the bytes of a code point
    come last byte first. *)
Fixpoint trimStartRev (s : string) : string :=
  match s with
  | EmptyString => s
  | String c1 s1 =>
      if ws1 c1 then trimStartRev s1
      else match s1 with
           | EmptyString => s
           | String c2 s2 =>
               if ws2 c2 c1 then trimStartRev s2
               else match s2 with
                    | EmptyString => s
                    | String c3 s3 =>
                        if ws3 c3 c2 c1 then trimStartRev s3 else s
                    end
           end
  end.

(** [String.prototype.trim]. *)
Definition trim (s : string) : string :=
  rev (trimStartRev (rev (trimStart s))).

(** Offset just past the first occurrence of [pat] in [s], if any. *)
Fixpoint endOfFirst (pat s : string) : option nat :=
  if prefix pat s then Some (String.length pat)
  else match s with
       | EmptyString => None
       | String _ s' => option_map S (endOfFirst pat s')
       end.

Fixpoint firstPrefix (starts : list string) (s : string) : option string :=
  match starts with
  | [] => None
  | p :: ps => if prefix p s then Some p else firstPrefix ps s
  end.

(** [text.replace(/(S1|S2|...)[\s\S]*?E/g, '')] for literal openers [Si]
    and a literal closer [E]: scanning from the left, a match starts where
    an opener is a prefix and the closer occurs after it, and runs up to the
    first such closer; the scan resumes behind the match.  [skip] counts the
    characters of the current match still to be dropped. *)
Fixpoint stripFrom (starts : list string) (stop : string)
         (skip : nat) (s : string) : string :=
  match s with
  | EmptyString => EmptyString
  | String c s' =>
      match skip with
      | S k => stripFrom starts stop k s'
      | O =>
          match firstPrefix starts s with
          | Some p =>
              match endOfFirst stop (drop (String.length p) s) with
              | Some n => stripFrom starts stop (String.length p + n - 1) s'
              | None => String c (stripFrom starts stop 0 s')
              end
          | None => String c (stripFrom starts stop 0 s')
          end
      end
  end.

Definition replaceDelimited (starts : list string) (stop : string)
           (s : string) : string :=
  stripFrom starts stop 0 s.

(** [text.split('\n\n')]: [cur] holds the current piece, reversed. *)
Fixpoint splitBlank (cur : string) (s : string) : list string :=
  match s with
  | EmptyString => [rev cur]
  | String c s' =>
      match s' with
      | String c' s'' =>
          if (Ascii.eqb c nl && Ascii.eqb c' nl)%bool
          then rev cur :: splitBlank EmptyString s''
          else splitBlank (String c cur) s'
      | EmptyString => splitBlank (String c cur) s'
      end
  end.

(** [parts.join(sep)]. *)
Fixpoint join (sep : string) (parts : list string) : string :=
  match parts with
  | [] => EmptyString
  | [p] => p
  | p :: ps => p ++ sep ++ join sep ps
  end.

(** [Array.prototype.includes] on strings. *)
Definition includes (l : list string) (s : string) : bool :=
  existsb (String.eqb s) l.

Fixpoint newlines (n : nat) : string :=
  match n with O => EmptyString | S n' => String nl (newlines n') end.

(** [text.replace(/\n{3,}/g, '\n\n')]: [run] is the length of the run of
    line feeds just read; a run of three or more is written back as two. *)
Fixpoint squeeze (run : nat) (s : string) : string :=
  match s with
  | EmptyString => newlines (Nat.min run 2)
  | String c s' =>
      if Ascii.eqb c nl then squeeze (S run) s'
      else newlines (Nat.min run 2) ++ String c (squeeze 0 s')
  end.

(** Decimal rendering of an integer, as in a template literal.  This is
    what JavaScript prints for an integer below 10^21 in absolute value;
    from there on it prints the exponent form, which is not modelled: the
    numbers rendered here are round counts, limits in seconds and HTTP
    status codes. *)
Definition showZ (z : Z) : string := NilZero.string_of_int (Z.to_int z).

End Js.

(* ===================================================================== *)
(** ** Control flow: state, [break], [return], [throw]                    *)
(* ===================================================================== *)

(** A thrown JavaScript value: an [Error] object with its [message], or
    anything else. *)
Inductive Thrown : Type :=
| ErrorObj (message : string)
| NonError.

(** How a block of statements ends. *)
Inductive Signal (A : Type) : Type :=
| Normal (a : A)
| Break
| Return
| Throw (e : Thrown).

Arguments Normal {A} a.
Arguments Break {A}.
Arguments Return {A}.
Arguments Throw {A} e.

Definition M (S A : Type) : Type := S -> Signal A * S.

Definition ret {S A} (a : A) : M S A := fun s => (Normal a, s).

Definition bind {S A B} (m : M S A) (k : A -> M S B) : M S B :=
  fun s =>
    match m s with
    | (Normal a, s') => k a s'
    | (Break, s') => (Break, s')
    | (Return, s') => (Return, s')
    | (Throw e, s') => (Throw e, s')
    end.

Definition brk {S A} : M S A := fun s => (Break, s).
Definition return_ {S A} : M S A := fun s => (Return, s).
Definition throw {S A} (e : Thrown) : M S A := fun s => (Throw e, s).
Definition get {S} : M S S := fun s => (Normal s, s).
Definition modify {S} (f : S -> S) : M S unit := fun s => (Normal tt, f s).

(** [try { body } catch (error) { handler(error) }]. *)
Definition tryCatch {S A} (body : M S A) (handler : Thrown -> M S A) : M S A :=
  fun s =>
    match body s with
    | (Throw e, s') => handler e s'
    | r => r
    end.

(** [try { body } finally { fin }], for a [fin] that completes normally. *)
Definition tryFinally {S A} (body : M S A) (fin : S -> S) : M S A :=
  fun s => let (r, s') := body s in (r, fin s').

(** The end of a loop: a [break] inside it completes it normally. *)
Definition endLoop {S} (loop : M S unit) : M S unit :=
  fun s =>
    match loop s with
    | (Break, s') => (Normal tt, s')
    | r => r
    end.

(** The end of a function body: a [return] inside it completes the call. *)
Definition endCall {S} (body : M S unit) : M S unit :=
  fun s =>
    match body s with
    | (Return, s') => (Normal tt, s')
    | r => r
    end.

Declare Scope js_scope.
Delimit Scope js_scope with js.
Notation "x <- m ;; k" := (bind m (fun x => k))
  (at level 61, m at next level, right associativity) : js_scope.
Notation "m ;; k" := (bind m (fun _ => k))
  (at level 61, right associativity) : js_scope.
Local Open Scope js_scope.

(** [error instanceof Error ? error.message : fallback]. *)
Definition messageOr (fallback : string) (e : Thrown) : string :=
  match e with
  | ErrorObj m => m
  | NonError => fallback
  end.

(* ===================================================================== *)
(** ** Shared data: [types.ts]                                            *)
(* ===================================================================== *)

Inductive Role : Type := system | user | assistant.

Record Message : Type := { role : Role; content : string }.

(** [AIResponse]; its optional fields [content] and [error] are
    [r_content] and [error] here ([None] for an absent field). *)
Record AIResponse : Type := {
  success : bool;
  r_content : option string;
  error : option string
}.

(** [{ success: true, content }] *)
Definition succeeded (c : string) : AIResponse :=
  {| success := true; r_content := Some c; error := None |}.

(** [{ success: false, error }] *)
Definition failed (e : string) : AIResponse :=
  {| success := false; r_content := None; error := Some e |}.

(** The sampling temperature, a number that is only handed on. *)
Definition Temperature : Type := Q.

(* ===================================================================== *)
(** ** [aiService.ts]: class [AIService]                                  *)
(* ===================================================================== *)

Module AIService.

(** *** Values found in a response body *)

#[local] Unset Elimination Schemes.
Inductive JsValue : Type :=
| JUndefined
| JNull
| JBool (b : bool)
| JNumber (z : Z)
| JString (s : string)
| JArray (items : list JsValue)
| JObject (fields : list (string * JsValue)).
#[local] Set Elimination Schemes.

Definition nullish (v : JsValue) : bool :=
  match v with JUndefined | JNull => true | _ => false end.

Definition typeName (v : JsValue) : string :=
  match v with JNull => "null" | _ => "undefined" end.

Definition cannotRead (v : JsValue) (k : string) : Thrown :=
  ErrorObj ("Cannot read properties of " ++ typeName v
            ++ " (reading '" ++ k ++ "')").

Fixpoint lookup (k : string) (fields : list (string * JsValue)) : JsValue :=
  match fields with
  | [] => JUndefined
  | (k', v) :: rest => if String.eqb k k' then v else lookup k rest
  end.

(** [v.k]: a [TypeError] on [undefined] and [null]; an own field of an
    object; [undefined] for the names read here on any other value. *)
Definition getProp (v : JsValue) (k : string) : Signal JsValue :=
  match v with
  | JUndefined | JNull => Throw (cannotRead v k)
  | JObject fields => Normal (lookup k fields)
  | _ => Normal JUndefined
  end.

(** [v?.k] *)
Definition getPropOpt (v : JsValue) (k : string) : Signal JsValue :=
  if nullish v then Normal JUndefined else getProp v k.

(** [v[0]] *)
Definition getFirst (v : JsValue) : Signal JsValue :=
  match v with
  | JUndefined | JNull => Throw (cannotRead v "0")
  | JArray items => Normal (hd JUndefined items)
  | JString (String c _) => Normal (JString (String c EmptyString))
  | JObject fields => Normal (lookup "0" fields)
  | _ => Normal JUndefined
  end.

Definition falsy (v : JsValue) : bool :=
  match v with
  | JUndefined | JNull | JBool false | JNumber 0%Z | JString EmptyString => true
  | _ => false
  end.

(** [v || ''] *)
Definition orEmpty (v : JsValue) : JsValue :=
  if falsy v then JString EmptyString else v.

(** A method of [String.prototype] called on [v], written [what] in the
    source. *)
Definition callString (what method : string) (f : string -> string)
           (v : JsValue) : Signal string :=
  match v with
  | JString s => Normal (f s)
  | JUndefined | JNull => Throw (cannotRead v method)
  | _ => Throw (ErrorObj (what ++ "." ++ method ++ " is not a function"))
  end.

(** *** Post-processing of a local-model reply *)

Definition thinkingStart : string := "<|im_start|>think".
Definition thinkingEnd : string := "<|im_end|>".

(** [/<\|im_start\|>think[\s\S]*?<\|im_end\|>/g] replaced by [''] *)
Definition removeThinkingTags (text : string) : string :=
  Js.replaceDelimited [thinkingStart] thinkingEnd text.

Definition jsonStarts : list string :=
  [ "{" ++ Js.DQ ++ "tool_call" ++ Js.DQ ++ ":";
    "{" ++ Js.DQ ++ "name" ++ Js.DQ ++ ":";
    "{" ++ Js.DQ ++ "tool_result" ++ Js.DQ ++ ":" ].

(** [/\{"tool_call":[\s\S]*?\}|\{"name":[\s\S]*?\}|\{"tool_result":[\s\S]*?\}/g]
    replaced by [''] *)
Definition removeJsonMetadata (text : string) : string :=
  Js.replaceDelimited jsonStarts "}" text.

Definition blank : string := Js.NL ++ Js.NL.

Fixpoint uniqueParagraphs (paragraphs acc : list string) : list string :=
  match paragraphs with
  | [] => acc
  | paragraph :: rest =>
      if (Js.truthy (Js.trim paragraph) && negb (Js.includes acc paragraph))%bool
      then uniqueParagraphs rest (acc ++ [paragraph])%list
      else uniqueParagraphs rest acc
  end.

Definition compressDuplicateParagraphs (text : string) : string :=
  let paragraphs := Js.splitBlank EmptyString text in
  Js.join blank (uniqueParagraphs paragraphs []).

Definition compressEmptyLines (text : string) : string :=
  Js.squeeze 0 text.

Definition processOllamaResponse (text : string) : string :=
  let text := removeThinkingTags text in
  let text := removeJsonMetadata text in
  let text := compressDuplicateParagraphs text in
  let text := compressEmptyLines text in
  Js.trim text.

(** *** Settings and clients *)

Record ApiSettings : Type := {
  openai_key : string;
  openai_baseUrl : string;
  deepseek_key : string;
  deepseek_baseUrl : string;
  ollama_url : string;
  ollama_key : string
}.

Record AxiosInstance : Type := {
  baseURL : string;
  timeout : Z;
  headers : list (string * string)
}.

Record t : Type := {
  settings : ApiSettings;
  ollamaClient : option AxiosInstance;
  openaiClient : option AxiosInstance;
  deepseekClient : option AxiosInstance
}.

Definition bearer (key : string) : string * string :=
  ("Authorization", "Bearer " ++ key).

Definition jsonType : string * string :=
  ("Content-Type", "application/json").

(** [constructor] followed by [initClients]. *)
Definition initClients (s : ApiSettings) : t :=
  {| settings := s;
     ollamaClient :=
       Some {| baseURL := ollama_url s;
               timeout := 60000;
               headers :=
                 if (Js.truthy (ollama_key s)
                     && negb (String.eqb (ollama_key s) "Ollama"))%bool
                 then [bearer (ollama_key s)] else [] |};
     openaiClient :=
       if Js.truthy (openai_key s)
       then Some {| baseURL := Js.orElse (openai_baseUrl s) "https://api.openai.com/v1";
                    timeout := 60000;
                    headers := [bearer (openai_key s); jsonType] |}
       else None;
     deepseekClient :=
       if Js.truthy (deepseek_key s)
       then Some {| baseURL := Js.orElse (deepseek_baseUrl s) "https://api.deepseek.com/v1";
                    timeout := 60000;
                    headers := [bearer (deepseek_key s); jsonType] |}
       else None |}.

(** *** The network *)

(** The body of a request. *)
Inductive Body : Type :=
| OllamaChat (model : string) (messages : list Message)
             (temperature : Temperature) (num_predict : Z) (top_p : Q)
             (stream : bool)
| ChatCompletion (model : string) (messages : list Message)
                 (temperature : Temperature) (max_tokens : Z) (n : Z).

Record Request : Type := {
  client : AxiosInstance;
  url : string;
  body : Body
}.

(** What the network does with one request. *)
Inductive NetOutcome : Type :=
| HttpResponse (status : Z) (data : JsValue)
| TimedOut
| ConnectionRefused.

(** The state of the world that the service acts on: the requests sent and
    the pauses taken, oldest first.  [AIService] never pauses; the field
    is there for the statement that it does not. *)
Record World : Type := {
  sent : list Request;
  delays : list Z
}.

Definition attempts (w : World) : nat := List.length (sent w).

Definition noTraffic : World := {| sent := []; delays := [] |}.

(** The client that serves an API type, when there is one. *)
Definition clientFor (svc : t) (apiType : string) : option AxiosInstance :=
  if String.eqb apiType "ollama" then ollamaClient svc
  else if String.eqb apiType "openai" then openaiClient svc
  else if String.eqb apiType "deepseek" then deepseekClient svc
  else None.

Section Service.

(** The outcome of the request with a given number (from 0). *)
Variable network : nat -> NetOutcome.

(** How axios settles a request with its default [validateStatus]: the
    promise resolves with the response on a 2xx status and rejects with an
    [Error] otherwise; the value is [response.data]. *)
Definition settle (c : AxiosInstance) (o : NetOutcome) : Signal JsValue :=
  match o with
  | HttpResponse status data =>
      if ((200 <=? status) && (status <? 300))%Z
      then Normal data
      else Throw (ErrorObj ("Request failed with status code "
                            ++ Js.showZ status))
  | TimedOut =>
      Throw (ErrorObj ("timeout of " ++ Js.showZ (timeout c) ++ "ms exceeded"))
  | ConnectionRefused => Throw (ErrorObj "Network Error")
  end.

(** [await client.post(url, body)] *)
Definition post (c : AxiosInstance) (u : string) (b : Body) : M World JsValue :=
  fun w =>
    (settle c (network (attempts w)),
     {| sent := (sent w ++ [{| client := c; url := u; body := b |}])%list;
        delays := delays w |}).

Definition lift {A} (r : Signal A) : M World A := fun w => (r, w).

Definition getOllamaResponse (svc : t) (model : string)
           (messages : list Message) (temperature : Temperature)
  : M World AIResponse :=
  match ollamaClient svc with
  | None => ret (failed "Ollama client not initialized")
  | Some c =>
      data <- post c "/api/chat"
                (OllamaChat model messages temperature 1024 (9 # 10) false) ;;
      message <- lift (getProp data "message") ;;
      content <- lift (getPropOpt message "content") ;;
      content <- lift (callString "text" "replace" processOllamaResponse
                                  (orEmpty content)) ;;
      ret (succeeded content)
  end.

Definition completionContent (data : JsValue) : M World string :=
  choices <- lift (getProp data "choices") ;;
  choice <- lift (getFirst choices) ;;
  message <- lift (getProp choice "message") ;;
  content <- lift (getProp message "content") ;;
  lift (callString "response.data.choices[0].message.content" "trim"
                   Js.trim content).

Definition getOpenAIResponse (svc : t) (model : string)
           (messages : list Message) (temperature : Temperature)
  : M World AIResponse :=
  match openaiClient svc with
  | None => ret (failed "OpenAI client not initialized")
  | Some c =>
      data <- post c "/chat/completions"
                (ChatCompletion model messages temperature 1024 1) ;;
      content <- completionContent data ;;
      ret (succeeded content)
  end.

Definition getDeepSeekResponse (svc : t) (model : string)
           (messages : list Message) (temperature : Temperature)
  : M World AIResponse :=
  match deepseekClient svc with
  | None => ret (failed "DeepSeek client not initialized")
  | Some c =>
      data <- post c "/chat/completions"
                (ChatCompletion model messages temperature 1024 1) ;;
      content <- completionContent data ;;
      ret (succeeded content)
  end.

(** The [switch] inside the [try] of [getAIResponse]. *)
Definition dispatch (svc : t) (apiType model : string)
           (messages : list Message) (temperature : Temperature)
  : M World AIResponse :=
  if String.eqb apiType "ollama" then
    getOllamaResponse svc model messages temperature
  else if String.eqb apiType "openai" then
    getOpenAIResponse svc model messages temperature
  else if String.eqb apiType "deepseek" then
    getDeepSeekResponse svc model messages temperature
  else ret (failed "Unsupported API type").

Definition getAIResponse (svc : t) (apiType model : string)
           (messages : list Message) (temperature : Temperature)
  : M World AIResponse :=
  tryCatch (dispatch svc apiType model messages temperature)
           (fun error => ret (failed (messageOr "Unknown error" error))).

End Service.

End AIService.

(* ===================================================================== *)
(** ** What a run of an orchestrator sees and does                        *)
(* ===================================================================== *)

(** [ChatConfig] *)
Record ChatConfig : Type := {
  topic : string;
  model1 : string;
  api1 : string;
  model2 : string;
  api2 : string;
  rounds : Z;
  timeLimit : Z;
  temperature : Temperature
}.

(** [ChatMessageDisplay]: an emitted turn; [timestamp] in milliseconds. *)
Record ChatMessageDisplay : Type := {
  sender : string;
  d_content : string;
  timestamp : Z
}.

(** The surroundings of one run.  The service is handed its adapter, so
    what [aiService.getAIResponse] resolves to is an input; so are the
    moments at which the user stops the run, which can only fall inside an
    [await], the readings of the clock, and the browser's storage. *)
Record Env : Type := {
  respond : nat -> AIResponse;      (** result of request number [n] *)
  stopDuring : nat -> bool;         (** [stop...()] ran while request [n] was awaited *)
  clock : nat -> Z;                 (** reading number [n] of [Date.now()] *)
  localStorage : string -> option string
}.

(** A status line.  The three that print a duration keep the numbers
    (milliseconds elapsed, seconds allowed) instead of the formatted text. *)
Inductive Status : Type :=
| Text (s : string)
| CurrentTime (elapsedMs limit : Z)
| TimeLimitReached (elapsedMs limit : Z)
| TotalTime (elapsedMs : Z).

(** What a run does, in order: requests to the adapter, comparisons of the
    elapsed time with the limit, and calls of the four callbacks. *)
Inductive Event : Type :=
| Called (api model : string) (messages : list Message) (temp : Temperature)
| TimeCheck (elapsedMs : Z)
| OnMessage (m : ChatMessageDisplay)
| OnStatusUpdate (s : Status)
| OnError (message : string)
| OnComplete.

(** The fields of a service object ([history] is [chatHistory] or
    [debateHistory]; [limit] is its field [timeLimit]) and the record of
    the run: the events so far, newest first, and how many requests and
    clock readings were made. *)
Record State : Type := {
  isRunning : bool;
  history : list ChatMessageDisplay;
  startTime : option Z;
  limit : Z;
  log : list Event;
  requests : nat;
  readings : nat
}.

(** A service object as its constructor leaves it. *)
Definition created : State :=
  {| isRunning := false; history := []; startTime := None; limit := 0;
     log := []; requests := 0; readings := 0 |}.

(** The same object at the start of a later call. *)
Definition fresh (s : State) : State :=
  {| isRunning := isRunning s; history := history s;
     startTime := startTime s; limit := limit s;
     log := []; requests := 0; readings := 0 |}.

Definition trace (s : State) : list Event := List.rev (log s).

(** The turns handed to [onMessage], oldest first. *)
Fixpoint emitted (l : list Event) : list ChatMessageDisplay :=
  match l with
  | [] => []
  | OnMessage m :: older => (emitted older ++ [m])%list
  | _ :: older => emitted older
  end.

(** The message lists handed to the adapter, oldest first. *)
Fixpoint transmitted (l : list Event) : list (string * list Message) :=
  match l with
  | [] => []
  | Called api _ messages _ :: older => (transmitted older ++ [(api, messages)])%list
  | _ :: older => transmitted older
  end.

(** The messages handed to [onError], oldest first. *)
Fixpoint errors (l : list Event) : list string :=
  match l with
  | [] => []
  | OnError m :: older => (errors older ++ [m])%list
  | _ :: older => errors older
  end.

Fixpoint completions (l : list Event) : nat :=
  match l with
  | [] => 0
  | OnComplete :: older => S (completions older)
  | _ :: older => completions older
  end.

Section Primitives.

Variable env : Env.

Definition emit (e : Event) : M State unit :=
  modify (fun s =>
    {| isRunning := isRunning s; history := history s;
       startTime := startTime s; limit := limit s;
       log := e :: log s; requests := requests s; readings := readings s |}).

Definition onStatusUpdate (s : string) : M State unit :=
  emit (OnStatusUpdate (Text s)).

Definition setRunning (b : bool) : M State unit :=
  modify (fun s =>
    {| isRunning := b; history := history s;
       startTime := startTime s; limit := limit s;
       log := log s; requests := requests s; readings := readings s |}).

Definition setHistory (h : list ChatMessageDisplay) : M State unit :=
  modify (fun s =>
    {| isRunning := isRunning s; history := h;
       startTime := startTime s; limit := limit s;
       log := log s; requests := requests s; readings := readings s |}).

Definition setStartTime (t : option Z) : M State unit :=
  modify (fun s =>
    {| isRunning := isRunning s; history := history s;
       startTime := t; limit := limit s;
       log := log s; requests := requests s; readings := readings s |}).

Definition setLimit (l : Z) : M State unit :=
  modify (fun s =>
    {| isRunning := isRunning s; history := history s;
       startTime := startTime s; limit := l;
       log := log s; requests := requests s; readings := readings s |}).

(** [Date.now()] *)
Definition now : M State Z :=
  fun s =>
    (Normal (clock env (readings s)),
     {| isRunning := isRunning s; history := history s;
        startTime := startTime s; limit := limit s;
        log := log s; requests := requests s; readings := S (readings s) |}).

(** [await this.aiService.getAIResponse(api, model, messages, temperature)]:
    the request is made, the run is suspended, and when it resumes the
    user may have stopped it. *)
Definition getAIResponse (api model : string) (messages : list Message)
           (temp : Temperature) : M State AIResponse :=
  fun s =>
    (Normal (respond env (requests s)),
     {| isRunning := isRunning s && negb (stopDuring env (requests s));
        history := history s;
        startTime := startTime s; limit := limit s;
        log := Called api model messages temp :: log s;
        requests := S (requests s); readings := readings s |}).

(** [this.history.push(m); onMessage(m)] *)
Definition publish (m : ChatMessageDisplay) : M State unit :=
  s <- get ;;
  setHistory (history s ++ [m])%list ;;
  emit (OnMessage m).

(** [localStorage.getItem(key) || fallback] *)
Definition getItemOr (key fallback : string) : string :=
  match localStorage env key with
  | Some v => Js.orElse v fallback
  | None => fallback
  end.

(** Truthiness of [this.startTime]: a number other than 0. *)
Definition started (s : State) : option Z :=
  match startTime s with
  | Some t => if (t =? 0)%Z then None else Some t
  | None => None
  end.

(** The [finally] block of both services. *)
Definition finish (s : State) : State :=
  {| isRunning := false; history := history s;
     startTime := None; limit := limit s;
     log := log s; requests := requests s; readings := readings s |}.

End Primitives.

(* ===================================================================== *)
(** ** The discussion orchestrator: class [ChatService]                   *)
(* ===================================================================== *)

Module ChatService.

Definition chatHistory : State -> list ChatMessageDisplay := history.

Definition fallback : string := "我对此主题没有特别的见解。".

Definition defaultCommonPrompt : string :=
  "你是一个参与讨论的AI助手。请根据收到的内容进行回应，言简意赅，只回答相关的问题，不要扩展，回答越简洁越好。".

(** [response.success && response.content ? response.content.trim() : '']
    followed by the replacement of an empty text. *)
Definition trimmedReply (r : AIResponse) : string :=
  match r_content r with
  | Some c => if (success r && Js.truthy c)%bool then Js.trim c else EmptyString
  | None => EmptyString
  end.

Definition recorded (r : AIResponse) : string :=
  Js.orElse (trimmedReply r) fallback.

Section Run.

Variable env : Env.

(** [checkTimeLimit(onStatusUpdate, showCurrentTime)].  The elapsed time
    is kept in milliseconds: [elapsedTime >= this.timeLimit] on the
    quotient by 1000 is [elapsed >= 1000 * limit] on the integers. *)
Definition checkTimeLimit (showCurrentTime : bool) : M State bool :=
  s <- get ;;
  match started s with
  | Some t0 =>
      if (limit s =? 0)%Z then ret true
      else
        t <- now env ;;
        let elapsed := (t - t0)%Z in
        emit (TimeCheck elapsed) ;;
        (if showCurrentTime
         then emit (OnStatusUpdate (CurrentTime elapsed (limit s)))
         else ret tt) ;;
        if (1000 * limit s <=? elapsed)%Z then
          emit (OnStatusUpdate (TimeLimitReached elapsed (limit s))) ;;
          setRunning false ;;
          ret false
        else ret true
  | None => ret true
  end.

(** [if (!this.isRunning) { onStatusUpdate('对话已停止'); break; }] *)
Definition breakIfStopped : M State unit :=
  s <- get ;;
  if isRunning s then ret tt
  else onStatusUpdate "对话已停止" ;; brk.

(** [if (!this.checkTimeLimit(onStatusUpdate, show)) { return; }] *)
Definition returnIfOverTime (show : bool) : M State unit :=
  ok <- checkTimeLimit show ;;
  if ok then ret tt else return_.

(** The handling of an empty reply of participant [who]. *)
Definition orFallback (who : string) (r : AIResponse) : M State string :=
  let c := trimmedReply r in
  if Js.truthy c then ret c
  else onStatusUpdate ("警告: AI " ++ who ++ " 的回复为空") ;; ret fallback.

Definition display (who model text : string) : M State ChatMessageDisplay :=
  t <- now env ;;
  ret {| sender := who ++ " (" ++ model ++ ")"; d_content := text;
         timestamp := t |}.

(** One pass through the body of the [for] loop.  The two local arrays
    [ai1Messages] and [ai2History] go in and come out. *)
Definition round (config : ChatConfig) (fullAi2SystemPrompt : string)
           (r : Z) (ai1Messages ai2History : list Message)
  : M State (list Message * list Message) :=
  breakIfStopped ;;
  returnIfOverTime true ;;
  onStatusUpdate ("----- 第 " ++ Js.showZ r ++ "/" ++ Js.showZ (rounds config)
                  ++ " 轮对话开始 -----") ;;
  onStatusUpdate ("AI 1 的第 " ++ Js.showZ r ++ " 轮发言中...") ;;
  let ai1CurrentMessages :=
    if (r =? 1)%Z
    then (ai1Messages ++
          [{| role := user;
              content := "请开始讨论主题：" ++ topic config
                         ++ "。请提供你的见解和观点。" |}])%list
    else ai1Messages in
  ai1Response <- getAIResponse env (api1 config) (model1 config)
                   ai1CurrentMessages (temperature config) ;;
  breakIfStopped ;;
  returnIfOverTime false ;;
  ai1Content <- orFallback "1" ai1Response ;;
  ai1Message <- display "ai1" (model1 config) ai1Content ;;
  publish ai1Message ;;
  let ai1Messages :=
    (ai1Messages ++ [{| role := assistant; content := ai1Content |}])%list in
  breakIfStopped ;;
  returnIfOverTime false ;;
  let ai2CurrentMessages :=
    if (r =? 1)%Z
    then [{| role := system; content := fullAi2SystemPrompt |};
          {| role := user;
             content := "讨论主题：" ++ topic config ++ "。" ++ Js.NL
                        ++ "AI 1的观点：" ++ ai1Content |}]
    else ({| role := system; content := fullAi2SystemPrompt |} :: ai2History) in
  onStatusUpdate ("AI 2 的第 " ++ Js.showZ r ++ " 轮回应中...") ;;
  ai2Response <- getAIResponse env (api2 config) (model2 config)
                   ai2CurrentMessages (temperature config) ;;
  breakIfStopped ;;
  returnIfOverTime false ;;
  ai2Content <- orFallback "2" ai2Response ;;
  ai2Message <- display "ai2" (model2 config) ai2Content ;;
  publish ai2Message ;;
  let ai2History :=
    (ai2History ++ [{| role := user; content := ai1Content |};
                    {| role := assistant; content := ai2Content |}])%list in
  let ai1Messages :=
    (ai1Messages ++ [{| role := user; content := ai2Content |}])%list in
  ret (ai1Messages, ai2History).

(** [for (let round = r; round <= config.rounds; round++)], with [n] passes
    to go. *)
Fixpoint loop (config : ChatConfig) (fullAi2SystemPrompt : string)
         (n : nat) (r : Z) (ai1Messages ai2History : list Message)
  : M State unit :=
  match n with
  | O => ret tt
  | S n' =>
      locals <- round config fullAi2SystemPrompt r ai1Messages ai2History ;;
      loop config fullAi2SystemPrompt n' (r + 1) (fst locals) (snd locals)
  end.

Definition fullSystemPrompt (own : string) : string :=
  let commonSystemPrompt := getItemOr env "commonSystemPrompt" defaultCommonPrompt in
  let aiSystemPrompt := getItemOr env own EmptyString in
  commonSystemPrompt
  ++ (if Js.truthy aiSystemPrompt then Js.NL ++ aiSystemPrompt else EmptyString).

(** The [try] block of [startChat]. *)
Definition conversation (config : ChatConfig) : M State unit :=
  (if Js.truthy (Js.trim (topic config)) then ret tt
   else throw (ErrorObj "请输入讨论主题")) ;;
  onStatusUpdate "准备开始对话..." ;;
  let fullAi1SystemPrompt := fullSystemPrompt "ai1SystemPrompt" in
  let fullAi2SystemPrompt := fullSystemPrompt "ai2SystemPrompt" in
  let ai1Messages := [{| role := system; content := fullAi1SystemPrompt |}] in
  let ai2History := [] in
  onStatusUpdate ("两个AI开始围绕主题 '" ++ topic config ++ "' 进行讨论") ;;
  onStatusUpdate ("AI 1: " ++ model1 config ++ " (API: " ++ api1 config ++ ")") ;;
  onStatusUpdate ("AI 2: " ++ model2 config ++ " (API: " ++ api2 config ++ ")") ;;
  s <- get ;;
  (if (limit s =? 0)%Z then ret tt
   else onStatusUpdate ("时间限制: " ++ Js.showZ (limit s) ++ " 秒")) ;;
  onStatusUpdate ("对话轮数: " ++ Js.showZ (rounds config) ++ " 轮") ;;
  endLoop (loop config fullAi2SystemPrompt (Z.to_nat (rounds config)) 1
                ai1Messages ai2History) ;;
  s <- get ;;
  match started s with
  | Some t0 =>
      t <- now env ;;
      emit (OnStatusUpdate (TotalTime (t - t0)))
  | None => ret tt
  end ;;
  emit OnComplete.

Definition startChat (config : ChatConfig) : M State unit :=
  endCall (
    s <- get ;;
    if isRunning s then emit (OnError "对话已经在运行中") ;; return_
    else
      setRunning true ;;
      setHistory [] ;;
      t <- now env ;;
      setStartTime (Some t) ;;
      setLimit (timeLimit config) ;;
      tryFinally
        (tryCatch (conversation config)
                  (fun error => emit (OnError (messageOr "未知错误" error))))
        finish).

Definition stopChat : M State unit := setRunning false.

Definition getChatHistory (s : State) : list ChatMessageDisplay := chatHistory s.

Definition isChatRunning (s : State) : bool := isRunning s.

(** The object after a call of [startChat] on it. *)
Definition run (config : ChatConfig) (this : State) : State :=
  snd (startChat config (fresh this)).

End Run.

End ChatService.

(* ===================================================================== *)
(** ** [debateService.js]: class [DebateService]                          *)
(* ===================================================================== *)

Module DebateService.

Definition debateHistory : State -> list ChatMessageDisplay := history.

Definition rebutPro : string := "请针对正方的观点进行反驳".
Definition rebutCon : string := "请针对反方的观点进行反驳".
Definition proFailed : string := "正方AI生成失败: ".
Definition conFailed : string := "反方AI生成失败: ".

(** [`${response.error}`] *)
Definition errorText (r : AIResponse) : string :=
  match error r with
  | Some e => e
  | None => "undefined"
  end.

(** [response.content || ''] *)
Definition contentOrEmpty (r : AIResponse) : string :=
  match r_content r with
  | Some c => c
  | None => EmptyString
  end.

Section Run.

Variable env : Env.

(** [checkTimeLimit(onStatusUpdate)], in milliseconds as in [ChatService]. *)
Definition checkTimeLimit : M State bool :=
  s <- get ;;
  match started s with
  | Some t0 =>
      if (limit s =? 0)%Z then ret true
      else
        t <- now env ;;
        let elapsed := (t - t0)%Z in
        emit (TimeCheck elapsed) ;;
        if (1000 * limit s <=? elapsed)%Z then
          onStatusUpdate "辩论时间已达限制" ;;
          setRunning false ;;
          ret false
        else ret true
  | None => ret true
  end.

(** [if (!this.checkTimeLimit(onStatusUpdate)) { return; }] *)
Definition returnIfOverTime : M State unit :=
  ok <- checkTimeLimit ;;
  if ok then ret tt else return_.

(** [if (!this.isRunning) { return; }] *)
Definition returnIfStopped : M State unit :=
  s <- get ;;
  if isRunning s then ret tt else return_.

(** [if (!response.success) { throw new Error(`${label}${response.error}`); }] *)
Definition throwIfFailed (label : string) (r : AIResponse) : M State unit :=
  if success r then ret tt
  else throw (ErrorObj (label ++ errorText r)).

(** One half-turn from the request to the status line after it. *)
Definition speak (who label thinking done : string) (api model : string)
           (messages : list Message) (temp : Temperature) : M State string :=
  onStatusUpdate thinking ;;
  response <- getAIResponse env api model messages temp ;;
  throwIfFailed label response ;;
  t <- now env ;;
  let message := {| sender := who; d_content := contentOrEmpty response;
                    timestamp := t |} in
  publish message ;;
  onStatusUpdate done ;;
  ret (contentOrEmpty response).

Definition speakPro (config : ChatConfig) (messages : list Message)
  : M State string :=
  speak "ai1" proFailed "正方AI正在思考..." "正方AI发言完成"
        (api1 config) (model1 config) messages (temperature config).

Definition speakCon (config : ChatConfig) (messages : list Message)
  : M State string :=
  speak "ai2" conFailed "反方AI正在思考..." "反方AI发言完成"
        (api2 config) (model2 config) messages (temperature config).

(** One pass through the body of the [for] loop; the local arrays
    [ai1Messages] and [ai2Messages] go in and come out. *)
Definition round (config : ChatConfig) (ai1Messages ai2Messages : list Message)
  : M State (list Message * list Message) :=
  returnIfOverTime ;;
  returnIfStopped ;;
  ai2Content <- speakCon config ai2Messages ;;
  let ai1Messages :=
    (ai1Messages ++ [{| role := assistant; content := ai2Content |};
                     {| role := user; content := rebutCon |}])%list in
  returnIfOverTime ;;
  returnIfStopped ;;
  ai1Content <- speakPro config ai1Messages ;;
  let ai2Messages :=
    (ai2Messages ++ [{| role := assistant; content := ai1Content |};
                     {| role := user; content := rebutPro |}])%list in
  ret (ai1Messages, ai2Messages).

(** [for (let round = 1; round < config.rounds; round++)], with [n] passes
    to go. *)
Fixpoint loop (config : ChatConfig) (n : nat)
         (ai1Messages ai2Messages : list Message) : M State unit :=
  match n with
  | O => ret tt
  | S n' =>
      locals <- round config ai1Messages ai2Messages ;;
      loop config n' (fst locals) (snd locals)
  end.

Definition commonPrompt (config : ChatConfig) : string :=
  getItemOr env "debateSystemPrompt" EmptyString
  ++ Js.NL ++ "辩论主题: " ++ topic config.

Definition initialAi1Messages (config : ChatConfig) : list Message :=
  [{| role := system;
      content := commonPrompt config ++ Js.NL
                 ++ getItemOr env "debateAI1SystemPrompt" "你是正方，支持这个观点" |};
   {| role := user;
      content := "请开始你的辩论，支持这个观点：" ++ topic config |}].

Definition initialAi2Messages (config : ChatConfig) : list Message :=
  [{| role := system;
      content := commonPrompt config ++ Js.NL
                 ++ getItemOr env "debateAI2SystemPrompt" "你是反方，反对这个观点" |};
   {| role := user;
      content := "请开始你的辩论，反对这个观点：" ++ topic config |}].

(** The [try] block of [startDebate]. *)
Definition debate (config : ChatConfig) : M State unit :=
  (if Js.truthy (Js.trim (topic config)) then ret tt
   else throw (ErrorObj "请输入辩论主题")) ;;
  onStatusUpdate "准备开始辩论..." ;;
  let ai1Messages := initialAi1Messages config in
  let ai2Messages := initialAi2Messages config in
  ai1First <- speakPro config ai1Messages ;;
  let ai2Messages :=
    (ai2Messages ++ [{| role := assistant; content := ai1First |};
                     {| role := user; content := rebutPro |}])%list in
  loop config (Z.to_nat (rounds config - 1)) ai1Messages ai2Messages ;;
  onStatusUpdate "辩论完成" ;;
  emit OnComplete.

Definition startDebate (config : ChatConfig) : M State unit :=
  endCall (
    s <- get ;;
    if isRunning s then emit (OnError "辩论已经在进行中") ;; return_
    else
      setRunning true ;;
      setHistory [] ;;
      t <- now env ;;
      setStartTime (Some t) ;;
      setLimit (timeLimit config) ;;
      tryFinally
        (tryCatch (debate config)
                  (fun error => emit (OnError (messageOr "未知错误" error))))
        finish).

Definition stopDebate : M State unit := setRunning false.

Definition getDebateHistory (s : State) : list ChatMessageDisplay := debateHistory s.

Definition isDebateRunning (s : State) : bool := isRunning s.

(** The object after a call of [startDebate] on it. *)
Definition run (config : ChatConfig) (this : State) : State :=
  snd (startDebate config (fresh this)).

End Run.

End DebateService.

(* ===================================================================== *)
(** ** [aiService.ts]: changing the settings of a service                 *)
(* ===================================================================== *)

Module AIServiceSettings.
Import AIService.

(** [initClients()] on a service that may already hold clients: the
    Ollama client is always assigned; the two others are assigned only
    under their [if], and keep their value otherwise. *)
Definition initClientsOn (svc : t) : t :=
  let s := settings svc in
  {| settings := s;
     ollamaClient :=
       Some {| baseURL := ollama_url s;
               timeout := 60000;
               headers :=
                 if (Js.truthy (ollama_key s)
                     && negb (String.eqb (ollama_key s) "Ollama"))%bool
                 then [bearer (ollama_key s)] else [] |};
     openaiClient :=
       if Js.truthy (openai_key s)
       then Some {| baseURL := Js.orElse (openai_baseUrl s) "https://api.openai.com/v1";
                    timeout := 60000;
                    headers := [bearer (openai_key s); jsonType] |}
       else openaiClient svc;
     deepseekClient :=
       if Js.truthy (deepseek_key s)
       then Some {| baseURL := Js.orElse (deepseek_baseUrl s) "https://api.deepseek.com/v1";
                    timeout := 60000;
                    headers := [bearer (deepseek_key s); jsonType] |}
       else deepseekClient svc |}.

(** The fields of a new object before its constructor runs [initClients]. *)
Definition allocated (s : ApiSettings) : t :=
  {| settings := s; ollamaClient := None; openaiClient := None;
     deepseekClient := None |}.

(** [updateSettings(settings)] *)
Definition updateSettings (svc : t) (s : ApiSettings) : t :=
  initClientsOn {| settings := s;
                   ollamaClient := ollamaClient svc;
                   openaiClient := openaiClient svc;
                   deepseekClient := deepseekClient svc |}.

End AIServiceSettings.

(* ===================================================================== *)
(** ** [aiService.ts]: the model lists of OpenAI and DeepSeek             *)
(* ===================================================================== *)

Module AIServiceModels.
Import AIService.

(** A GET request: the client and the path. *)
Record Lookup : Type := { via : AxiosInstance; path : string }.

(** [await client.get(path)], in the world of the GET requests made so
    far; the network answers the request with a given number (from 0) and
    axios settles it as it settles a POST. *)
Definition get_ (network : nat -> NetOutcome) (c : AxiosInstance) (u : string)
  : M (list Lookup) JsValue :=
  fun w => (settle c (network (List.length w)),
            (w ++ [{| via := c; path := u |}])%list).

Definition pure {A} (r : Signal A) : M (list Lookup) A := fun w => (r, w).

(** [s.includes(sub)] on strings. *)
Definition includesText (sub s : string) : bool :=
  match Js.endOfFirst sub s with Some _ => true | None => false end.

Definition isGpt (v : JsValue) : bool :=
  match v with JString s => String.eqb s "gpt" | _ => false end.

(** [id.includes('gpt')]: the method of a string or of an array; a
    [TypeError] on anything else. *)
Definition includesGpt (id : JsValue) : Signal bool :=
  match id with
  | JString s => Normal (includesText "gpt" s)
  | JArray items => Normal (existsb isGpt items)
  | JUndefined | JNull => Throw (cannotRead id "includes")
  | _ => Throw (ErrorObj "model.id.includes is not a function")
  end.

(** The items of [v] when [v] is an array; calling an array method on
    anything else is a [TypeError]. *)
Definition arrayFor (method : string) (v : JsValue) : Signal (list JsValue) :=
  match v with
  | JArray items => Normal items
  | JUndefined | JNull => Throw (cannotRead v method)
  | _ => Throw (ErrorObj ("response.data.data." ++ method ++ " is not a function"))
  end.

(** [items.filter((model) => model.id.includes('gpt'))] *)
Fixpoint filterGpt (items : list JsValue) : Signal (list JsValue) :=
  match items with
  | [] => Normal []
  | model :: rest =>
      match getProp model "id" with
      | Normal id =>
          match includesGpt id with
          | Normal keep =>
              match filterGpt rest with
              | Normal kept => Normal (if keep then model :: kept else kept)
              | r => r
              end
          | Throw e => Throw e
          | Break => Break
          | Return => Return
          end
      | Throw e => Throw e
      | Break => Break
      | Return => Return
      end
  end.

(** [items.map((model) => model.id)] *)
Fixpoint mapId (items : list JsValue) : Signal (list JsValue) :=
  match items with
  | [] => Normal []
  | model :: rest =>
      match getProp model "id" with
      | Normal id =>
          match mapId rest with
          | Normal ids => Normal (id :: ids)
          | r => r
          end
      | Throw e => Throw e
      | Break => Break
      | Return => Return
      end
  end.

Definition defaultOpenAIModels : list JsValue :=
  [JString "gpt-4o"; JString "gpt-4"; JString "gpt-3.5-turbo"].

Definition defaultDeepSeekModels : list JsValue :=
  [JString "deepseek-chat"; JString "deepseek-coder"].

(** [getOpenAIModels()]; the [console.error] of the handler is left out. *)
Definition getOpenAIModels (network : nat -> NetOutcome) (svc : t)
  : M (list Lookup) (list JsValue) :=
  tryCatch
    (match openaiClient svc with
     | None => ret defaultOpenAIModels
     | Some c =>
         data <- get_ network c "/models" ;;
         models <- pure (getProp data "data") ;;
         items <- pure (arrayFor "filter" models) ;;
         kept <- pure (filterGpt items) ;;
         pure (mapId kept)
     end)
    (fun error => ret defaultOpenAIModels).

(** [getDeepSeekModels()] *)
Definition getDeepSeekModels (network : nat -> NetOutcome) (svc : t)
  : M (list Lookup) (list JsValue) :=
  tryCatch
    (match deepseekClient svc with
     | None => ret defaultDeepSeekModels
     | Some c =>
         data <- get_ network c "/models" ;;
         models <- pure (getProp data "data") ;;
         items <- pure (arrayFor "map" models) ;;
         pure (mapId items)
     end)
    (fun error => ret defaultDeepSeekModels).

End AIServiceModels.

(* ===================================================================== *)
(** ** The client of the backend: class [ApiService]                      *)
(* ===================================================================== *)

Module ApiService.
Import AIService.

Definition API_BASE_URL : string := "http://localhost:8000/api".

Definition MAX_RETRIES : nat := 3.
Definition RETRY_DELAY : Z := 1000.
Definition RATE_LIMIT : Z := 5.
Definition TOKEN_BUCKET_SIZE : Z := 10.

(** [RequestInit], with the three fields the class sets. *)
Record RequestInit : Type := {
  method : string;
  init_headers : list (string * string);
  init_body : option string
}.

(** One call of [fetch]. *)
Record Fetch : Type := { target : string; init : RequestInit }.

(** What one call of [fetch] leads to: the promise rejects, or it resolves
    with a response of which the code reads [status] and, at most once
    each, [json()] and [text()]; each of the two readings gives a value or
    rejects. *)
Inductive FetchOutcome : Type :=
| Rejected (error : Thrown)
| Responded (status : Z) (json : JsValue + Thrown) (text : string + Thrown).

(** The two fields of the object that change, the item 'token' of the
    storage, and what the object has done: the calls of [fetch] and the
    pauses of [setTimeout] (milliseconds), oldest first, and the number of
    times the page was reloaded. *)
Record Page : Type := {
  tokens : Z;
  lastTokenRefill : Z;
  token : option string;
  fetched : list Fetch;
  pauses : list Z;
  reloads : nat
}.

(** The object as its field initialisers leave it at time [now]. *)
Definition created (now : Z) (stored : option string) : Page :=
  {| tokens := TOKEN_BUCKET_SIZE; lastTokenRefill := now; token := stored;
     fetched := []; pauses := []; reloads := 0 |}.

(** [String(v)] for a value read from JSON, as [new Error(v)] and a
    template literal apply it. *)
Fixpoint toText (v : JsValue) : string :=
  match v with
  | JUndefined => "undefined"
  | JNull => "null"
  | JBool true => "true"
  | JBool false => "false"
  | JNumber z => Js.showZ z
  | JString s => s
  | JArray items =>
      Js.join "," (map (fun item => if nullish item then EmptyString
                                    else toText item) items)
  | JObject _ => "[object Object]"
  end.

(** [headers[key] = value] on an object: the value of an existing key is
    replaced where it stands, a new key comes last. *)
Fixpoint setHeader (key value : string) (hs : list (string * string))
  : list (string * string) :=
  match hs with
  | [] => [(key, value)]
  | (k, v) :: rest =>
      if String.eqb k key then (k, value) :: rest
      else (k, v) :: setHeader key value rest
  end.

(** [response.ok] *)
Definition ok (status : Z) : bool := ((200 <=? status) && (status <=? 299))%Z.

Definition lift {A} (r : Signal A) : M Page A := fun p => (r, p).

(** [await new Promise(resolve => setTimeout(resolve, ms))] *)
Definition sleep (ms : Z) : M Page unit :=
  modify (fun p =>
    {| tokens := tokens p; lastTokenRefill := lastTokenRefill p;
       token := token p; fetched := fetched p;
       pauses := (pauses p ++ [ms])%list; reloads := reloads p |}).

(** [localStorage.removeItem('token')] *)
Definition removeToken : M Page unit :=
  modify (fun p =>
    {| tokens := tokens p; lastTokenRefill := lastTokenRefill p;
       token := None; fetched := fetched p;
       pauses := pauses p; reloads := reloads p |}).

(** [window.location.reload()] *)
Definition reload : M Page unit :=
  modify (fun p =>
    {| tokens := tokens p; lastTokenRefill := lastTokenRefill p;
       token := token p; fetched := fetched p;
       pauses := pauses p; reloads := S (reloads p) |}).

(** The settling of a promise. *)
Definition await {A} (r : A + Thrown) : M Page A :=
  match r with
  | inl a => ret a
  | inr e => throw e
  end.

Section Client.

(** The outcome of the call of [fetch] with a given number (from 0). *)
Variable network : nat -> FetchOutcome.

(** [await fetch(url, init)] *)
Definition fetch (url : string) (i : RequestInit) : M Page FetchOutcome :=
  fun p =>
    (Normal (network (List.length (fetched p))),
     {| tokens := tokens p; lastTokenRefill := lastTokenRefill p;
        token := token p;
        fetched := (fetched p ++ [{| target := url; init := i |}])%list;
        pauses := pauses p; reloads := reloads p |}).

Definition defaultMessage (status : Z) : string :=
  "API请求失败: " ++ Js.showZ status.

(** The inner [try]/[catch] of [request]: the value of [errorMessage]
    behind it. *)
Definition errorMessageOf (status : Z) (json : JsValue + Thrown)
           (text : string + Thrown) : M Page JsValue :=
  tryCatch
    (errorData <- await json ;;
     detail <- lift (getProp errorData "detail") ;;
     ret (if falsy detail then JString (defaultMessage status) else detail))
    (fun parseError =>
       t <- await text ;;
       ret (JString (defaultMessage status ++ " - " ++ t))).

(** The pause before the next attempt. *)
Definition backoff (attempt : nat) : M Page unit :=
  sleep (RETRY_DELAY * (Z.of_nat attempt + 1)).

(** The [try] block of one pass of the retry loop: [Some data] stands for
    [return data], [None] for [continue]. *)
Definition attemptOnce (url : string) (i : RequestInit) (attempt : nat)
  : M Page (option JsValue) :=
  response <- fetch url i ;;
  match response with
  | Rejected error => throw error
  | Responded status json text =>
      if negb (ok status) then
        errorMessage <- errorMessageOf status json text ;;
        if ((500 <=? status)%Z && (attempt <? MAX_RETRIES - 1)%nat)%bool then
          backoff attempt ;;
          ret None
        else
          (if (status =? 401)%Z then removeToken ;; reload else ret tt) ;;
          throw (ErrorObj (toText errorMessage))
      else
        data <- await json ;;
        ret (Some data)
  end.

(** The [catch] block of the same pass. *)
Definition onFailure (attempt : nat) (error : Thrown) : M Page (option JsValue) :=
  if (attempt <? MAX_RETRIES - 1)%nat then
    backoff attempt ;;
    ret None
  else throw error.

(** [for (let attempt = a; attempt < this.MAX_RETRIES; attempt++)] with
    [n] passes to go, and the [throw] behind the loop. *)
Fixpoint retry (url : string) (i : RequestInit) (n attempt : nat)
  : M Page JsValue :=
  match n with
  | O => throw (ErrorObj "API请求失败，已达到最大重试次数")
  | S n' =>
      result <- tryCatch (attemptOnce url i attempt) (onFailure attempt) ;;
      match result with
      | Some data => ret data
      | None => retry url i n' (S attempt)
      end
  end.

(** The refill of the bucket at the start of [request]. *)
Definition refill (now : Z) (p : Page) : Page :=
  let elapsed := (now - lastTokenRefill p)%Z in
  let tokensToAdd := (elapsed / 1000 * RATE_LIMIT)%Z in
  if (0 <? tokensToAdd)%Z then
    {| tokens := Z.min (tokens p + tokensToAdd) TOKEN_BUCKET_SIZE;
       lastTokenRefill := now; token := token p; fetched := fetched p;
       pauses := pauses p; reloads := reloads p |}
  else p.

(** [this.tokens--] *)
Definition consume (p : Page) : Page :=
  {| tokens := tokens p - 1; lastTokenRefill := lastTokenRefill p;
     token := token p; fetched := fetched p;
     pauses := pauses p; reloads := reloads p |}.

(** The headers sent: those of the options, with the stored token when
    there is one. *)
Definition withToken (stored : option string) (hs : list (string * string))
  : list (string * string) :=
  match stored with
  | Some t => if Js.truthy t then setHeader "Authorization" ("Bearer " ++ t) hs
              else hs
  | None => hs
  end.

(** [request(url, options)], called when [Date.now()] reads [now].  With
    no token in the bucket the call waits in its [while] loop, which
    nothing in the call itself ends: the result is [None] then. *)
Definition request (now : Z) (url : string) (options : RequestInit) (p : Page)
  : option (Signal JsValue * Page) :=
  let p := refill now p in
  if (tokens p <=? 0)%Z then None
  else
    let p := consume p in
    let headers := withToken (token p) (init_headers options) in
    Some (retry url {| method := method options; init_headers := headers;
                       init_body := init_body options |}
                MAX_RETRIES 0 p).

Definition jsonHeaders : list (string * string) :=
  [("Content-Type", "application/json")].

(** A POST of a serialised body ([JSON.stringify(request)]). *)
Definition postJson (payload : string) : RequestInit :=
  {| method := "POST"; init_headers := jsonHeaders; init_body := Some payload |}.

(** [try { return await call } catch (error) { handler }] around a call of
    [request]. *)
Definition guarded (call : option (Signal JsValue * Page))
           (handler : Thrown -> Thrown) : option (Signal JsValue * Page) :=
  match call with
  | Some (Throw error, p) => Some (Throw (handler error), p)
  | other => other
  end.

(** [sendChatMessage(request)], given the serialised request. *)
Definition sendChatMessage (now : Z) (payload : string) (p : Page)
  : option (Signal JsValue * Page) :=
  guarded (request now (API_BASE_URL ++ "/chat/send") (postJson payload) p)
          (fun error =>
             ErrorObj ("发送聊天消息失败: "
                       ++ messageOr "发送聊天消息失败" error)).

(** [startDiscussion(request)]: the handler throws the error on. *)
Definition startDiscussion (now : Z) (payload : string) (p : Page)
  : option (Signal JsValue * Page) :=
  guarded (request now (API_BASE_URL ++ "/discussion/start") (postJson payload) p)
          (fun error => error).

(** [startDebate(request)] *)
Definition startDebate (now : Z) (payload : string) (p : Page)
  : option (Signal JsValue * Page) :=
  guarded (request now (API_BASE_URL ++ "/debate/start") (postJson payload) p)
          (fun error => error).

End Client.

End ApiService.

(* ===================================================================== *)
(** * Properties                                                          *)
(* ===================================================================== *)

Local Open Scope string_scope.

(** ** The adapter *)

Module AIServiceFacts.
Import AIService.

(** *** Settings and calls used as examples *)

Definition demoSettings : ApiSettings :=
  {| openai_key := EmptyString; openai_baseUrl := EmptyString;
     deepseek_key := "sk-demo"; deepseek_baseUrl := EmptyString;
     ollama_url := "http://localhost:11434"; ollama_key := EmptyString |}.

Definition alwaysTimeout : nat -> NetOutcome := fun _ => TimedOut.

Definition hello : list Message := [{| role := user; content := "hello" |}].

Lemma dispatch_rejected network svc apiType model messages temp c w e :
  clientFor svc apiType = Some c ->
  settle c (network (attempts w)) = Throw e ->
  exists request,
    dispatch network svc apiType model messages temp w
    = (Throw e, {| sent := sent w ++ [request]; delays := delays w |}).
Proof.
  unfold clientFor, dispatch. intros Hc He.
  destruct (String.eqb apiType "ollama").
  { unfold getOllamaResponse. rewrite Hc. unfold bind, post. rewrite He. eauto. }
  destruct (String.eqb apiType "openai").
  { unfold getOpenAIResponse. rewrite Hc. unfold bind, post. rewrite He. eauto. }
  destruct (String.eqb apiType "deepseek"); [|discriminate].
  unfold getDeepSeekResponse. rewrite Hc. unfold bind, post. rewrite He. eauto.
Qed.

(** *** [getAIResponse] never throws *)

(** Computations of the adapter end normally or by a throw. *)
Definition settled {A} (r : Signal A) : Prop :=
  match r with
  | Normal _ | Throw _ => True
  | Break | Return => False
  end.

Definition plain {A} (m : M World A) : Prop := forall w, settled (fst (m w)).

Lemma plain_ret {A} (a : A) : plain (ret a).
Proof. intros w. exact I. Qed.

Lemma plain_lift {A} (r : Signal A) : settled r -> plain (lift r).
Proof. intros H w. exact H. Qed.

Lemma plain_bind {A B} (m : M World A) (k : A -> M World B) :
  plain m -> (forall a, plain (k a)) -> plain (bind m k).
Proof.
  intros Hm Hk w. unfold bind. specialize (Hm w).
  destruct (m w) as [[a| | |e] w']; simpl in *; try contradiction; auto.
  apply Hk.
Qed.

Lemma settled_getProp v k : settled (getProp v k).
Proof. destruct v; exact I. Qed.

Lemma settled_getPropOpt v k : settled (getPropOpt v k).
Proof. unfold getPropOpt. destruct (nullish v); [exact I | apply settled_getProp]. Qed.

Lemma settled_getFirst v : settled (getFirst v).
Proof. destruct v as [| | | |[|c s]| |]; exact I. Qed.

Lemma settled_callString what method f v : settled (callString what method f v).
Proof. destruct v; exact I. Qed.

Lemma plain_post network c u b : plain (post network c u b).
Proof.
  intros w. unfold post. simpl.
  destruct (network (attempts w)) as [status data| |]; simpl; try exact I.
  destruct ((200 <=? status)%Z && (status <? 300)%Z)%bool; exact I.
Qed.

Create HintDb plain.

#[local] Hint Resolve plain_ret plain_lift plain_post settled_getProp
  settled_getPropOpt settled_getFirst settled_callString : plain.

Ltac plain_steps :=
  repeat first [ apply plain_bind; [| intros ? ] | solve [ auto with plain ] ].

Lemma plain_completionContent data : plain (completionContent data).
Proof. unfold completionContent. plain_steps. Qed.

Lemma plain_dispatch network svc apiType model messages temp :
  plain (dispatch network svc apiType model messages temp).
Proof.
  unfold dispatch, getOllamaResponse, getOpenAIResponse, getDeepSeekResponse.
  pose proof plain_completionContent.
  destruct (String.eqb apiType "ollama");
    [destruct (ollamaClient svc); plain_steps|].
  destruct (String.eqb apiType "openai");
    [destruct (openaiClient svc); plain_steps|].
  destruct (String.eqb apiType "deepseek");
    [destruct (deepseekClient svc); plain_steps|].
  plain_steps.
Qed.

(** C10.  [getAIResponse] always returns: for every API type, network and
    world there is a response [r] with which the call completes normally.
    For an API type other than 'ollama', 'openai' and 'deepseek' it is the
    Failure 'Unsupported API type' and nothing is sent; and whenever the
    branch taken throws [e], it is the Failure with the message of [e]
    (or 'Unknown error'), in the world the branch left. *)
Theorem getAIResponse_never_throws network svc apiType model messages temp w :
  exists r w',
    getAIResponse network svc apiType model messages temp w = (Normal r, w')
    /\ (apiType <> "ollama" -> apiType <> "openai" -> apiType <> "deepseek" ->
        r = failed "Unsupported API type" /\ w' = w)
    /\ (forall e w1,
          dispatch network svc apiType model messages temp w = (Throw e, w1) ->
          r = failed (messageOr "Unknown error" e) /\ w' = w1).
Proof.
  pose proof (plain_dispatch network svc apiType model messages temp w) as Hp.
  unfold getAIResponse, tryCatch.
  destruct (dispatch network svc apiType model messages temp w)
    as [[r| | |e] w'] eqn:Hd; simpl in Hp; try contradiction.
  - exists r, w'. split; [reflexivity|]. split.
    + intros H1 H2 H3. unfold dispatch in Hd.
      apply String.eqb_neq in H1, H2, H3. rewrite H1, H2, H3 in Hd.
      unfold ret in Hd. inversion Hd. auto.
    + intros e w1 H. discriminate H.
  - exists (failed (messageOr "Unknown error" e)), w'.
    split; [reflexivity|]. split.
    + intros H1 H2 H3. unfold dispatch in Hd.
      apply String.eqb_neq in H1, H2, H3. rewrite H1, H2, H3 in Hd.
      discriminate Hd.
    + intros e1 w1 H. inversion H. auto.
Qed.

Definition malformed : nat -> NetOutcome :=
  fun _ => HttpResponse 200 (JObject [("choices", JArray [])]).

(** The theorem at an unsupported API type, and at a DeepSeek reply
    whose [choices] is empty, so that reading the first choice throws. *)
Lemma getAIResponse_never_throws_witness :
  getAIResponse malformed (initClients demoSettings) "claude" "m" hello (8 # 10)%Q noTraffic
  = (Normal (failed "Unsupported API type"), noTraffic)
  /\ fst (getAIResponse malformed (initClients demoSettings) "deepseek" "m" hello
                        (8 # 10)%Q noTraffic)
     = Normal (failed "Cannot read properties of undefined (reading 'message')").
Proof.
  split.
  - destruct (getAIResponse_never_throws malformed (initClients demoSettings)
                "claude" "m" hello (8 # 10)%Q noTraffic) as (r & w' & Hrun & Hun & _).
    rewrite Hrun.
    destruct Hun as [Hr Hw]; [discriminate | discriminate | discriminate |].
    rewrite Hr, Hw. reflexivity.
  - destruct (getAIResponse_never_throws malformed (initClients demoSettings)
                "deepseek" "m" hello (8 # 10)%Q noTraffic) as (r & w' & Hrun & _ & Hth).
    rewrite Hrun. simpl.
    destruct (Hth (ErrorObj "Cannot read properties of undefined (reading 'message')")
                  {| sent := [{| client := {| baseURL := "https://api.deepseek.com/v1";
                                               timeout := 60000;
                                               headers := [bearer "sk-demo"; jsonType] |};
                                  url := "/chat/completions";
                                  body := ChatCompletion "m" hello (8 # 10)%Q 1024 1 |}];
                     delays := [] |}) as [Hr _]; [reflexivity|].
    rewrite Hr. reflexivity.
Defined.

(** *** Thinking markers *)

(** The character that opens both markers. *)
Definition lt : ascii := "<"%char.

(** [c] does not occur in [s]. *)
Fixpoint free (c : ascii) (s : string) : bool :=
  match s with
  | EmptyString => true
  | String c' s' => (negb (Ascii.eqb c c') && free c s')%bool
  end.

(** [s.includes(pat)] *)
Definition occurs (pat s : string) : bool :=
  match Js.endOfFirst pat s with Some _ => true | None => false end.

Lemma stripFrom_skip starts stop s : forall k,
  Js.stripFrom starts stop k s = Js.stripFrom starts stop 0 (Js.drop k s).
Proof.
  induction s as [|c s IH]; intros [|k]; simpl; auto.
Qed.

Lemma drop_app a : forall rest, Js.drop (String.length a) (a ++ rest) = rest.
Proof. induction a as [|c a IH]; simpl; auto. Qed.

Lemma free_cons c a :
  free lt (String c a) = true -> lt <> c /\ free lt a = true.
Proof.
  cbn [free]. intros H. apply andb_true_iff in H. destruct H as [Hc Ha].
  split; [|exact Ha]. intros E. rewrite E, Ascii.eqb_refl in Hc. discriminate.
Qed.

Lemma prefix_miss c p c' s : c <> c' -> prefix (String c p) (String c' s) = false.
Proof.
  intros E. cbn [prefix]. destruct (Ascii.ascii_dec c c'); [contradiction|reflexivity].
Qed.

Lemma prefix_app p : forall rest, prefix p (p ++ rest) = true.
Proof.
  induction p as [|c p IH]; intros rest; [destruct rest; reflexivity|].
  cbn [String.append prefix]. destruct (Ascii.ascii_dec c c); [apply IH|contradiction].
Qed.

Lemma length_append a : forall b,
  String.length (a ++ b) = String.length a + String.length b.
Proof. induction a as [|c a IH]; intros b; simpl; auto. Qed.

Lemma append_assoc a : forall b c, (a ++ b) ++ c = a ++ b ++ c.
Proof. induction a as [|x a IH]; intros b c; simpl; [|rewrite IH]; reflexivity. Qed.

Lemma endOfFirst_hit p s :
  prefix p s = true -> Js.endOfFirst p s = Some (String.length p).
Proof. intros H. destruct s; cbn [Js.endOfFirst]; now rewrite H. Qed.

Lemma drop_add a : forall b s, Js.drop (a + b) s = Js.drop b (Js.drop a s).
Proof.
  induction a as [|a IH]; intros b s; [reflexivity|].
  destruct s as [|c s]; [destruct b; reflexivity|]. apply IH.
Qed.

Lemma stripFrom_cons starts stop c s :
  Js.stripFrom starts stop 0 (String c s)
  = match Js.firstPrefix starts (String c s) with
    | Some p =>
        match Js.endOfFirst stop (Js.drop (String.length p) (String c s)) with
        | Some n => Js.stripFrom starts stop (String.length p + n - 1) s
        | None => String c (Js.stripFrom starts stop 0 s)
        end
    | None => String c (Js.stripFrom starts stop 0 s)
    end.
Proof. reflexivity. Qed.

Lemma endOfFirst_cons pat c s :
  Js.endOfFirst pat (String c s)
  = if prefix pat (String c s) then Some (String.length pat)
    else option_map S (Js.endOfFirst pat s).
Proof. reflexivity. Qed.

Lemma endOfFirst_nil c q : Js.endOfFirst (String c q) EmptyString = None.
Proof. reflexivity. Qed.

Lemma prefix_nil s : prefix EmptyString s = true.
Proof. destruct s; reflexivity. Qed.

Lemma prefix_extends p : forall s t, prefix p s = true -> prefix p (s ++ t) = true.
Proof.
  induction p as [|c p IH]; intros s t H; [apply prefix_nil|].
  destruct s as [|d s]; [discriminate H|].
  cbn [String.append prefix] in *.
  destruct (Ascii.ascii_dec c d); [now apply IH | discriminate H].
Qed.

Lemma prefix_length p : forall s, prefix p s = true -> String.length p <= String.length s.
Proof.
  induction p as [|c p IH]; intros s H; [cbn; lia|].
  destruct s as [|d s]; [discriminate H|].
  cbn [prefix] in H. destruct (Ascii.ascii_dec c d); [|discriminate H].
  specialize (IH s H). cbn [String.length]. lia.
Qed.

Lemma prefix_split p : forall s, prefix p s = true -> exists rest, s = p ++ rest.
Proof.
  induction p as [|c p IH]; intros s H; [now exists s|].
  destruct s as [|d s]; [discriminate H|].
  cbn [prefix] in H. destruct (Ascii.ascii_dec c d) as [E|]; [|discriminate H].
  destruct (IH s H) as [rest ->]. exists rest. now rewrite E.
Qed.

Lemma occurs_false pat s : occurs pat s = false -> Js.endOfFirst pat s = None.
Proof. unfold occurs. now destruct (Js.endOfFirst pat s). Qed.

Lemma endOfFirst_cons_none pat c s :
  Js.endOfFirst pat (String c s) = None ->
  prefix pat (String c s) = false /\ Js.endOfFirst pat s = None.
Proof.
  rewrite endOfFirst_cons. destruct (prefix pat (String c s)); [discriminate|].
  destruct (Js.endOfFirst pat s); [discriminate | auto].
Qed.

Lemma endOfFirst_drop pat : forall s n,
  Js.endOfFirst pat s = None -> Js.endOfFirst pat (Js.drop n s) = None.
Proof.
  induction s as [|c s IH]; intros [|n] H; try exact H.
  cbn [Js.drop]. apply IH. now apply endOfFirst_cons_none in H.
Qed.

Lemma endOfFirst_bound pat : forall s n,
  Js.endOfFirst pat s = Some n -> n <= String.length s.
Proof.
  induction s as [|c s IH]; intros n H.
  - cbn [Js.endOfFirst] in H.
    destruct (prefix pat EmptyString) eqn:Hp; [|discriminate H].
    inversion H. subst n. now apply prefix_length.
  - rewrite endOfFirst_cons in H.
    destruct (prefix pat (String c s)) eqn:Hp.
    + inversion H. subst n. now apply prefix_length.
    + destruct (Js.endOfFirst pat s) as [m|]; [|discriminate H].
      inversion H. specialize (IH m eq_refl). cbn [String.length]. lia.
Qed.

Lemma drop_within : forall n s t,
  n <= String.length s -> Js.drop n (s ++ t) = Js.drop n s ++ t.
Proof.
  induction n as [|n IH]; intros s t H; [reflexivity|].
  destruct s as [|c s]; [cbn in H; lia|].
  cbn [String.append Js.drop]. apply IH. cbn [String.length] in H. lia.
Qed.

(** A text without closing marker is left as it is, whatever the opening
    markers are. *)
Lemma strip_unclosed starts stop : forall s,
  Js.endOfFirst stop s = None -> Js.stripFrom starts stop 0 s = s.
Proof.
  induction s as [|c s IH]; intros H; [reflexivity|].
  rewrite stripFrom_cons.
  destruct (Js.firstPrefix starts (String c s)) as [p|].
  - rewrite (endOfFirst_drop stop (String c s) _ H).
    apply endOfFirst_cons_none in H. destruct H as [_ H]. now rewrite (IH H).
  - apply endOfFirst_cons_none in H. destruct H as [_ H]. now rewrite (IH H).
Qed.

(** The text up to the first occurrence of a pattern. *)
Lemma first_split x q : forall s n,
  Js.endOfFirst (String x q) s = Some n ->
  exists pre post,
    s = pre ++ String x q ++ post
    /\ Js.endOfFirst (String x q) pre = None
    /\ n = String.length pre + String.length (String x q).
Proof.
  induction s as [|c s IH]; intros n H; [discriminate H|].
  rewrite endOfFirst_cons in H.
  destruct (prefix (String x q) (String c s)) eqn:Hp.
  - inversion H. destruct (prefix_split _ _ Hp) as [post E].
    exists EmptyString, post. auto.
  - destruct (Js.endOfFirst (String x q) s) as [m|] eqn:Hm; [|discriminate H].
    inversion H. destruct (IH m eq_refl) as (pre & post & E & Hpre & Hn).
    exists (String c pre), post. split; [rewrite E; reflexivity|].
    split; [|cbn [String.length] in *; lia].
    rewrite endOfFirst_cons, Hpre.
    destruct (prefix (String x q) (String c pre)) eqn:Hp'; [|reflexivity].
    apply (prefix_extends _ _ (String x q ++ post)) in Hp'.
    rewrite E in Hp.
    change (String c pre ++ String x q ++ post)
      with (String c (pre ++ String x q ++ post)) in Hp'.
    congruence.
Qed.

(** A pattern that occurs is found, not later than where it occurs. *)
Lemma first_found pat : forall pre post,
  exists n, Js.endOfFirst pat (pre ++ pat ++ post) = Some n
            /\ n <= String.length pre + String.length pat.
Proof.
  induction pre as [|c pre IH]; intros post.
  - exists (String.length pat). split; [|cbn; lia].
    change (EmptyString ++ pat ++ post) with (pat ++ post).
    apply endOfFirst_hit. apply prefix_app.
  - destruct (IH post) as (n & Hn & Hle).
    cbn [String.append]. rewrite endOfFirst_cons, Hn.
    destruct (prefix pat (String c (pre ++ pat ++ post))).
    + exists (String.length pat). split; [reflexivity | cbn [String.length]; lia].
    + exists (S n). split; [reflexivity | cbn [String.length]; lia].
Qed.

Section Markers.

(** Two patterns that begin with the same character and have it nowhere
    else, as the two markers have [<]. *)
Variables (x : ascii) (q q' : string).
Hypothesis Hq : free x q = true.
Hypothesis Hq' : free x q' = true.

Lemma prefix_tail_blind : forall u s t,
  free x u = true -> prefix u (s ++ String x t) = prefix u s.
Proof.
  induction u as [|y u IH]; intros s t H; [now rewrite !prefix_nil|].
  cbn [free] in H. apply andb_true_iff in H. destruct H as [Hy Hu].
  destruct s as [|d s].
  - cbn [String.append prefix].
    destruct (Ascii.ascii_dec y x) as [E|]; [|reflexivity].
    rewrite E, Ascii.eqb_refl in Hy. discriminate Hy.
  - cbn [String.append prefix].
    destruct (Ascii.ascii_dec y d); [now apply IH | reflexivity].
Qed.

(** An occurrence of a marker cannot lie across the start of another
    marker. *)
Lemma prefix_blind u c s t :
  free x u = true ->
  prefix (String x u) (String c s ++ String x t) = prefix (String x u) (String c s).
Proof.
  intros H. cbn [String.append prefix].
  destruct (Ascii.ascii_dec x c); [now apply prefix_tail_blind | reflexivity].
Qed.

Lemma endOfFirst_blind u t : free x u = true ->
  Js.endOfFirst (String x u) (String x t) = None ->
  forall s, Js.endOfFirst (String x u) (s ++ String x t)
            = Js.endOfFirst (String x u) s.
Proof.
  intros Hu Ht. induction s as [|c s IH]; [exact Ht|].
  rewrite (endOfFirst_cons _ c s). rewrite <- (prefix_blind u c s t Hu).
  cbn [String.append]. rewrite endOfFirst_cons. cbn [String.append] in IH.
  now rewrite IH.
Qed.

(** The scan copies a text that has no opening marker up to the next
    [x]. *)
Lemma strip_over : forall a t,
  Js.endOfFirst (String x q) a = None ->
  Js.stripFrom [String x q] (String x q') 0 (a ++ String x t)
  = a ++ Js.stripFrom [String x q] (String x q') 0 (String x t).
Proof.
  induction a as [|c a IH]; intros t H; [reflexivity|].
  apply endOfFirst_cons_none in H. destruct H as [Hp Ha].
  change (String c a ++ String x t) with (String c (a ++ String x t)).
  rewrite stripFrom_cons. cbn [Js.firstPrefix].
  change (String c (a ++ String x t)) with (String c a ++ String x t).
  rewrite (prefix_blind q c a t Hq), Hp.
  cbn [String.append]. now rewrite IH.
Qed.

(** A text that has no opening marker is left as it is. *)
Lemma strip_unopened : forall s,
  Js.endOfFirst (String x q) s = None ->
  Js.stripFrom [String x q] (String x q') 0 s = s.
Proof.
  induction s as [|c s IH]; intros H; [reflexivity|].
  apply endOfFirst_cons_none in H. destruct H as [Hp Hs].
  rewrite stripFrom_cons. cbn [Js.firstPrefix]. rewrite Hp. now rewrite IH.
Qed.

(** The first closing marker behind a text that has none. *)
Lemma endOfFirst_behind body : forall rest,
  Js.endOfFirst (String x q') body = None ->
  Js.endOfFirst (String x q') (body ++ String x q' ++ rest)
  = Some (String.length body + String.length (String x q')).
Proof.
  induction body as [|c body IH]; intros rest H.
  - cbn [String.append]. apply endOfFirst_hit.
    exact (prefix_app (String x q') rest).
  - apply endOfFirst_cons_none in H. destruct H as [Hp Hb].
    change (String c body ++ String x q' ++ rest)
      with (String c (body ++ String x q' ++ rest)).
    rewrite endOfFirst_cons.
    change (String c (body ++ String x q' ++ rest))
      with (String c body ++ String x (q' ++ rest)).
    rewrite (prefix_blind q' c body (q' ++ rest) Hq'), Hp.
    change (String x (q' ++ rest)) with (String x q' ++ rest).
    rewrite (IH rest Hb). reflexivity.
Qed.

(** An opening marker, a text without closing marker, a closing marker:
    all three go, and the scan goes on behind them. *)
Lemma strip_pair body rest :
  Js.endOfFirst (String x q') body = None ->
  Js.stripFrom [String x q] (String x q') 0
               (String x q ++ body ++ String x q' ++ rest)
  = Js.stripFrom [String x q] (String x q') 0 rest.
Proof.
  intros H.
  remember (body ++ String x q' ++ rest) as tail eqn:Et.
  assert (Hp : prefix (String x q) (String x q ++ tail) = true)
    by apply prefix_app.
  assert (Hd : Js.drop (String.length (String x q)) (String x q ++ tail) = tail)
    by apply drop_app.
  assert (He : Js.endOfFirst (String x q') tail
               = Some (String.length body + String.length (String x q')))
    by (subst tail; now apply endOfFirst_behind).
  change (String x q ++ tail) with (String x (q ++ tail)) in *.
  rewrite stripFrom_cons. cbn [Js.firstPrefix]. rewrite Hp, Hd, He.
  rewrite stripFrom_skip. f_equal.
  cbn [String.length].
  replace (S (String.length q) + (String.length body + S (String.length q')) - 1)
    with (String.length q + String.length (body ++ String x q'))
    by (rewrite length_append; cbn [String.length]; lia).
  rewrite drop_add, drop_app. subst tail.
  rewrite <- append_assoc. exact (drop_app (body ++ String x q') rest).
Qed.

(** Behind any text, a text that begins with [x] and has no closing
    marker stays, and the scan of the text before it does not see it. *)
Lemma strip_before t :
  Js.endOfFirst (String x q') (String x t) = None ->
  forall a k, k <= String.length a ->
    Js.stripFrom [String x q] (String x q') k (a ++ String x t)
    = Js.stripFrom [String x q] (String x q') k a ++ String x t.
Proof.
  intros Ht. induction a as [|c a IH]; intros k Hk.
  - cbn [String.length] in Hk. assert (k = 0) by lia. subst k.
    cbn [String.append]. now apply strip_unclosed.
  - destruct k as [|k].
    + change (String c a ++ String x t) with (String c (a ++ String x t)).
      rewrite !stripFrom_cons. cbn [Js.firstPrefix].
      change (String c (a ++ String x t)) with (String c a ++ String x t).
      rewrite (prefix_blind q c a t Hq).
      destruct (prefix (String x q) (String c a)) eqn:Hp.
      * pose proof (prefix_length _ _ Hp) as Hlen.
        rewrite (drop_within _ _ _ Hlen).
        rewrite (endOfFirst_blind q' t Hq' Ht).
        destruct (Js.endOfFirst (String x q')
                    (Js.drop (String.length (String x q)) (String c a)))
          as [n|] eqn:Hn.
        -- apply endOfFirst_bound in Hn.
           assert (Hd : String.length (Js.drop (String.length (String x q)) (String c a))
                        + String.length (String x q) = String.length (String c a)).
           { clear - Hlen. revert Hlen.
             generalize (String.length (String x q)) as m.
             generalize (String c a) as s.
             induction s as [|d s IHs]; intros [|m] H; cbn in *; try lia.
             specialize (IHs m). lia. }
           apply IH. cbn [String.length] in *. lia.
        -- cbn [String.append]. f_equal. apply IH. lia.
      * cbn [String.append]. f_equal. apply IH. lia.
    + cbn [String.append Js.stripFrom]. apply IH. cbn [String.length] in Hk. lia.
Qed.

End Markers.

Definition startTail : string := "|im_start|>think".
Definition endTail : string := "|im_end|>".

Lemma thinkingStart_shape : thinkingStart = String lt startTail.
Proof. reflexivity. Qed.

Lemma thinkingEnd_shape : thinkingEnd = String lt endTail.
Proof. reflexivity. Qed.

Lemma removeThinkingTags_stripFrom text :
  removeThinkingTags text = Js.stripFrom [String lt startTail] (String lt endTail) 0 text.
Proof. reflexivity. Qed.

(** The leftmost marked part goes, and the scan goes on behind it. *)
Lemma strip_marked a body rest :
  occurs thinkingStart a = false -> occurs thinkingEnd body = false ->
  removeThinkingTags (a ++ thinkingStart ++ body ++ thinkingEnd ++ rest)
  = a ++ removeThinkingTags rest.
Proof.
  intros Ha Hb. apply occurs_false in Ha, Hb.
  rewrite !removeThinkingTags_stripFrom.
  rewrite thinkingStart_shape, thinkingEnd_shape in *.
  change (String lt startTail ++ body ++ String lt endTail ++ rest)
    with (String lt (startTail ++ body ++ String lt endTail ++ rest)).
  rewrite (strip_over lt startTail endTail eq_refl a _ Ha).
  change (String lt (startTail ++ body ++ String lt endTail ++ rest))
    with (String lt startTail ++ body ++ String lt endTail ++ rest).
  now rewrite (strip_pair lt startTail endTail eq_refl body rest Hb).
Qed.

(** Every text that holds an opening marker and a closing marker behind
    it has a leftmost marked part: an opening marker with none before it,
    and the first closing marker behind that. *)
Lemma leftmost_marked a0 body0 rest0 :
  exists a body rest,
    a0 ++ thinkingStart ++ body0 ++ thinkingEnd ++ rest0
    = a ++ thinkingStart ++ body ++ thinkingEnd ++ rest
    /\ occurs thinkingStart a = false /\ occurs thinkingEnd body = false.
Proof.
  rewrite thinkingStart_shape, thinkingEnd_shape.
  set (text := a0 ++ String lt startTail ++ body0 ++ String lt endTail ++ rest0).
  destruct (first_found (String lt startTail) a0
              (body0 ++ String lt endTail ++ rest0)) as (n & Hn & Hle).
  fold text in Hn.
  destruct (first_split lt startTail text n Hn) as (a & tail & Et & Ha & En).
  assert (Htail : tail = Js.drop n text).
  { rewrite Et, En, drop_add, drop_app.
    symmetry. exact (drop_app (String lt startTail) tail). }
  assert (Hcut : text = (a0 ++ String lt startTail ++ body0)
                        ++ String lt endTail ++ rest0)
    by (unfold text; now rewrite !append_assoc).
  rewrite Hcut in Htail.
  rewrite drop_within in Htail
    by (rewrite !length_append; lia).
  destruct (first_found (String lt endTail)
              (Js.drop n (a0 ++ String lt startTail ++ body0)) rest0)
    as (m & Hm & _).
  rewrite <- Htail in Hm.
  destruct (first_split lt endTail tail m Hm) as (body & rest & Eb & Hb & _).
  exists a, body, rest. rewrite Et, Eb. split; [reflexivity|].
  unfold occurs. now rewrite Ha, Hb.
Qed.

Definition thinkTagged : string :=
  "<think>ignored</think>Hello" ++ Js.NL ++ Js.NL ++ Js.NL ++ "World".

Definition markerTagged : string :=
  thinkingStart ++ "ignored" ++ thinkingEnd
  ++ "Hello" ++ Js.NL ++ Js.NL ++ Js.NL ++ "World".

Definition helloWorld : string := "Hello" ++ Js.NL ++ Js.NL ++ "World".

(** C3 (as the code has it).  The markers that post-processing strips are
    [<|im_start|>think] and [<|im_end|>].  Where the text has an opening
    marker with none before it and, behind it, a closing marker with none
    between the two, [removeThinkingTags] takes away the two markers and
    all that is between them and goes on in the same way behind them, so
    that nothing of the marked part reaches the later steps of
    [processOllamaResponse]; every text that holds an opening marker with
    a closing marker behind it can be read in this way; and the
    scenario's text, written with these markers, is post-processed to
    "Hello\n\nWorld". *)
Theorem thinking_markers_stripped :
  (forall a body rest,
      occurs thinkingStart a = false -> occurs thinkingEnd body = false ->
      removeThinkingTags (a ++ thinkingStart ++ body ++ thinkingEnd ++ rest)
      = a ++ removeThinkingTags rest
      /\ processOllamaResponse (a ++ thinkingStart ++ body ++ thinkingEnd ++ rest)
         = Js.trim (compressEmptyLines (compressDuplicateParagraphs
                      (removeJsonMetadata (a ++ removeThinkingTags rest)))))
  /\ (forall a0 body0 rest0,
        exists a body rest,
          a0 ++ thinkingStart ++ body0 ++ thinkingEnd ++ rest0
          = a ++ thinkingStart ++ body ++ thinkingEnd ++ rest
          /\ occurs thinkingStart a = false /\ occurs thinkingEnd body = false)
  /\ processOllamaResponse markerTagged = helloWorld.
Proof.
  split; [|split].
  - intros a body rest Ha Hb.
    pose proof (strip_marked a body rest Ha Hb) as H. split; [exact H|].
    unfold processOllamaResponse. now rewrite H.
  - apply leftmost_marked.
  - vm_compute. reflexivity.
Qed.

(** The first part of the theorem at a text with two marked parts, where
    [<] and an opening marker stand inside the first part and [<] stands
    outside. *)
Lemma thinking_markers_stripped_witness :
  removeThinkingTags ("if a<b: " ++ thinkingStart
                      ++ ("x<y " ++ thinkingStart ++ " plan ")
                      ++ thinkingEnd
                      ++ "so <b> " ++ thinkingStart ++ "more" ++ thinkingEnd ++ "done")
  = "if a<b: "
    ++ removeThinkingTags ("so <b> " ++ thinkingStart ++ "more" ++ thinkingEnd ++ "done")
  /\ processOllamaResponse
       ("if a<b: " ++ thinkingStart
        ++ ("x<y " ++ thinkingStart ++ " plan ")
        ++ thinkingEnd
        ++ "so <b> " ++ thinkingStart ++ "more" ++ thinkingEnd ++ "done")
     = Js.trim (compressEmptyLines (compressDuplicateParagraphs
                  (removeJsonMetadata
                     ("if a<b: "
                      ++ removeThinkingTags ("so <b> " ++ thinkingStart ++ "more"
                                             ++ thinkingEnd ++ "done"))))).
Proof.
  apply (proj1 thinking_markers_stripped "if a<b: "
               ("x<y " ++ thinkingStart ++ " plan ")
               ("so <b> " ++ thinkingStart ++ "more" ++ thinkingEnd ++ "done"));
    reflexivity.
Defined.

(** C3, counterexample.  The scenario's text keeps its [<think>] part:
    only the three line feeds are squeezed to two. *)
Lemma think_tags_survive :
  processOllamaResponse thinkTagged
  = "<think>ignored</think>Hello" ++ Js.NL ++ Js.NL ++ "World"
  /\ processOllamaResponse thinkTagged <> helloWorld.
Proof.
  split; [vm_compute; reflexivity | vm_compute; discriminate].
Qed.


(** *** Requests that are not made, rejected, or answered with odd data *)

Lemma missing_openai_key network s model messages temp w :
  openai_key s = EmptyString ->
  getAIResponse network (initClients s) "openai" model messages temp w
  = (Normal (failed "OpenAI client not initialized"), w).
Proof. intros H. unfold getAIResponse, tryCatch, dispatch, getOpenAIResponse.
  cbn [String.eqb Ascii.eqb Bool.eqb initClients openaiClient]. rewrite H. reflexivity.
Qed.

Lemma missing_deepseek_key network s model messages temp w :
  deepseek_key s = EmptyString ->
  getAIResponse network (initClients s) "deepseek" model messages temp w
  = (Normal (failed "DeepSeek client not initialized"), w).
Proof. intros H. unfold getAIResponse, tryCatch, dispatch, getDeepSeekResponse.
  cbn [String.eqb Ascii.eqb Bool.eqb initClients deepseekClient]. rewrite H. reflexivity.
Qed.

Lemma settle_status c status data :
  (status < 200 \/ 300 <= status)%Z ->
  settle c (HttpResponse status data)
  = Throw (ErrorObj ("Request failed with status code " ++ Js.showZ status)).
Proof.
  intros H. cbn [settle].
  replace ((200 <=? status)%Z && (status <? 300)%Z)%bool with false; [reflexivity|].
  symmetry. apply andb_false_iff.
  destruct H; [left; apply Z.leb_gt | right; apply Z.ltb_ge]; assumption.
Qed.

(** What the three branches do with the data of a response. *)
Definition ollamaContent (data : JsValue) : M World AIResponse :=
  (message <- lift (getProp data "message") ;;
   content <- lift (getPropOpt message "content") ;;
   content <- lift (callString "text" "replace" processOllamaResponse
                               (orEmpty content)) ;;
   ret (succeeded content))%js.

Definition reading (apiType : string) (data : JsValue) : M World AIResponse :=
  if String.eqb apiType "ollama" then ollamaContent data
  else (content <- completionContent data ;; ret (succeeded content))%js.

(** A request that is answered: the reply is read from the data, in the
    world in which the request has been sent. *)
Lemma dispatch_answered network svc apiType model messages temp c w data :
  clientFor svc apiType = Some c ->
  settle c (network (attempts w)) = Normal data ->
  exists request,
    client request = c
    /\ dispatch network svc apiType model messages temp w
       = reading apiType data
           {| sent := sent w ++ [request]; delays := delays w |}.
Proof.
  unfold clientFor, dispatch, reading. intros Hc He.
  destruct (String.eqb apiType "ollama").
  { unfold getOllamaResponse. rewrite Hc. unfold bind at 1, post. rewrite He.
    eexists. split; [|reflexivity]. reflexivity. }
  destruct (String.eqb apiType "openai").
  { unfold getOpenAIResponse. rewrite Hc. unfold bind at 1, post. rewrite He.
    eexists. split; [|reflexivity]. reflexivity. }
  destruct (String.eqb apiType "deepseek"); [|discriminate].
  unfold getDeepSeekResponse. rewrite Hc. unfold bind at 1, post. rewrite He.
  eexists. split; [|reflexivity]. reflexivity.
Qed.

Definition openaiOnly : ApiSettings :=
  {| openai_key := "sk-demo"; openai_baseUrl := EmptyString;
     deepseek_key := EmptyString; deepseek_baseUrl := EmptyString;
     ollama_url := "http://localhost:11434"; ollama_key := EmptyString |}.

(** X1.  Without a key there is no client, and a call for OpenAI or
    DeepSeek then returns the Failure '... client not initialized' without
    sending anything. *)
Theorem missing_key_no_request network s model messages temp w :
  (openai_key s = EmptyString ->
   getAIResponse network (initClients s) "openai" model messages temp w
   = (Normal (failed "OpenAI client not initialized"), w))
  /\ (deepseek_key s = EmptyString ->
      getAIResponse network (initClients s) "deepseek" model messages temp w
      = (Normal (failed "DeepSeek client not initialized"), w)).
Proof.
  split; [apply missing_openai_key | apply missing_deepseek_key].
Qed.

Lemma missing_key_no_request_witness :
  getAIResponse alwaysTimeout (initClients demoSettings) "openai" "gpt-4o" hello
                (8 # 10)%Q noTraffic
  = (Normal (failed "OpenAI client not initialized"), noTraffic)
  /\ getAIResponse alwaysTimeout (initClients openaiOnly) "deepseek" "deepseek-chat"
                   hello (8 # 10)%Q noTraffic
     = (Normal (failed "DeepSeek client not initialized"), noTraffic).
Proof.
  split.
  - apply (proj1 (missing_key_no_request alwaysTimeout demoSettings "gpt-4o" hello
                    (8 # 10)%Q noTraffic)). reflexivity.
  - apply (proj2 (missing_key_no_request alwaysTimeout openaiOnly "deepseek-chat"
                    hello (8 # 10)%Q noTraffic)). reflexivity.
Defined.

(** X2.  A response with a status outside 200..299, be it 4xx or 5xx, ends
    the call at once: the Failure carries 'Request failed with status code
    N' and exactly one request has been sent. *)
Theorem rejected_status_reported network svc apiType model messages temp c w
        status data :
  clientFor svc apiType = Some c ->
  network (attempts w) = HttpResponse status data ->
  (status < 200 \/ 300 <= status)%Z ->
  exists request,
    getAIResponse network svc apiType model messages temp w
    = (Normal (failed ("Request failed with status code " ++ Js.showZ status)),
       {| sent := sent w ++ [request]; delays := delays w |}).
Proof.
  intros Hc Hn Hs.
  pose proof (settle_status c status data Hs) as He. rewrite <- Hn in He.
  destruct (dispatch_rejected network svc apiType model messages temp c w _ Hc He)
    as [request Hd].
  exists request. unfold getAIResponse, tryCatch. now rewrite Hd.
Qed.

Definition tooManyRequests : nat -> NetOutcome :=
  fun _ => HttpResponse 429 (JObject [("error", JString "rate limited")]).

Lemma rejected_status_reported_witness :
  exists request,
    getAIResponse tooManyRequests (initClients openaiOnly) "openai" "gpt-4o" hello
                  (8 # 10)%Q noTraffic
    = (Normal (failed ("Request failed with status code " ++ Js.showZ 429)),
       {| sent := [] ++ [request]; delays := [] |}).
Proof.
  apply (rejected_status_reported tooManyRequests (initClients openaiOnly) "openai"
           "gpt-4o" hello (8 # 10)%Q
           {| baseURL := "https://api.openai.com/v1"; timeout := 60000;
              headers := [bearer "sk-demo"; jsonType] |}
           noTraffic 429 (JObject [("error", JString "rate limited")]));
    [reflexivity | reflexivity | right; lia].
Defined.

Lemma processOllamaResponse_empty : processOllamaResponse EmptyString = EmptyString.
Proof. reflexivity. Qed.

(** X3.  A local-model response whose data has no [message], or a
    [message] whose [content] is missing or empty, is not an error: the
    call succeeds with the empty text. *)
Theorem ollama_reply_without_content network svc model messages temp c w
        data message content :
  ollamaClient svc = Some c ->
  settle c (network (attempts w)) = Normal data ->
  getProp data "message" = Normal message ->
  getPropOpt message "content" = Normal content ->
  falsy content = true ->
  exists request,
    getAIResponse network svc "ollama" model messages temp w
    = (Normal (succeeded EmptyString),
       {| sent := sent w ++ [request]; delays := delays w |}).
Proof.
  intros Hc Hs Hm Hcont Hf.
  destruct (dispatch_answered network svc "ollama" model messages temp c w data Hc Hs)
    as (request & _ & Hd).
  exists request. unfold getAIResponse, tryCatch. rewrite Hd.
  unfold reading. cbn [String.eqb Ascii.eqb Bool.eqb].
  unfold ollamaContent, bind, lift, ret. rewrite Hm, Hcont.
  unfold orEmpty. rewrite Hf. cbn [callString].
  now rewrite processOllamaResponse_empty.
Qed.

Definition noMessage : nat -> NetOutcome :=
  fun _ => HttpResponse 200 (JObject [("done", JBool true)]).

Lemma ollama_reply_without_content_witness :
  exists request,
    getAIResponse noMessage (initClients demoSettings) "ollama" "qwen3:14b" hello
                  (8 # 10)%Q noTraffic
    = (Normal (succeeded EmptyString), {| sent := [] ++ [request]; delays := [] |}).
Proof.
  apply (ollama_reply_without_content noMessage (initClients demoSettings)
           "qwen3:14b" hello (8 # 10)%Q
           {| baseURL := "http://localhost:11434"; timeout := 60000; headers := [] |}
           noTraffic (JObject [("done", JBool true)]) JUndefined JUndefined);
    reflexivity.
Defined.

Definition completions_api (apiType : string) : bool :=
  (String.eqb apiType "openai" || String.eqb apiType "deepseek")%bool.

Lemma reading_completion apiType data :
  completions_api apiType = true ->
  reading apiType data
  = (content <- completionContent data ;; ret (succeeded content))%js.
Proof.
  unfold completions_api, reading. intros H.
  destruct (String.eqb apiType "ollama") eqn:E; [|reflexivity].
  apply String.eqb_eq in E. subst apiType. discriminate H.
Qed.

(** X4.  A completion response whose data has no [choices] makes the
    OpenAI and DeepSeek branches throw while reading the first choice; the
    call returns the Failure with the message of that [TypeError]. *)
Theorem completion_without_choices network svc apiType model messages temp c w
        data :
  completions_api apiType = true ->
  clientFor svc apiType = Some c ->
  settle c (network (attempts w)) = Normal data ->
  getProp data "choices" = Normal JUndefined ->
  exists request,
    getAIResponse network svc apiType model messages temp w
    = (Normal (failed "Cannot read properties of undefined (reading '0')"),
       {| sent := sent w ++ [request]; delays := delays w |}).
Proof.
  intros Ha Hc Hs Hch.
  destruct (dispatch_answered network svc apiType model messages temp c w data Hc Hs)
    as (request & _ & Hd).
  exists request. unfold getAIResponse, tryCatch. rewrite Hd.
  rewrite (reading_completion _ _ Ha).
  unfold completionContent, bind, lift. now rewrite Hch.
Qed.

Definition errorBody : nat -> NetOutcome :=
  fun _ => HttpResponse 200 (JObject [("error", JString "model overloaded")]).

Lemma completion_without_choices_witness :
  exists request,
    getAIResponse errorBody (initClients demoSettings) "deepseek" "deepseek-chat"
                  hello (8 # 10)%Q noTraffic
    = (Normal (failed "Cannot read properties of undefined (reading '0')"),
       {| sent := [] ++ [request]; delays := [] |}).
Proof.
  apply (completion_without_choices errorBody (initClients demoSettings) "deepseek"
           "deepseek-chat" hello (8 # 10)%Q
           {| baseURL := "https://api.deepseek.com/v1"; timeout := 60000;
              headers := [bearer "sk-demo"; jsonType] |}
           noTraffic (JObject [("error", JString "model overloaded")]));
    reflexivity.
Defined.

(** X5.  A completion response whose first choice has a text as the
    content of its message gives a Success with that text trimmed, after
    one request. *)
Theorem completion_reply_trimmed network svc apiType model messages temp c w
        data choices choice message text :
  completions_api apiType = true ->
  clientFor svc apiType = Some c ->
  settle c (network (attempts w)) = Normal data ->
  getProp data "choices" = Normal choices ->
  getFirst choices = Normal choice ->
  getProp choice "message" = Normal message ->
  getProp message "content" = Normal (JString text) ->
  exists request,
    getAIResponse network svc apiType model messages temp w
    = (Normal (succeeded (Js.trim text)),
       {| sent := sent w ++ [request]; delays := delays w |}).
Proof.
  intros Ha Hc Hs H1 H2 H3 H4.
  destruct (dispatch_answered network svc apiType model messages temp c w data Hc Hs)
    as (request & _ & Hd).
  exists request. unfold getAIResponse, tryCatch. rewrite Hd.
  rewrite (reading_completion _ _ Ha).
  unfold completionContent, bind, lift. now rewrite H1, H2, H3, H4.
Qed.

Definition padded : JsValue :=
  JObject [("content", JString "  Hi there. ")].

Definition oneChoice : nat -> NetOutcome :=
  fun _ => HttpResponse 200
             (JObject [("choices", JArray [JObject [("message", padded)]])]).

Lemma completion_reply_trimmed_witness :
  exists request,
    getAIResponse oneChoice (initClients openaiOnly) "openai" "gpt-4o" hello
                  (8 # 10)%Q noTraffic
    = (Normal (succeeded (Js.trim "  Hi there. ")),
       {| sent := [] ++ [request]; delays := [] |}).
Proof.
  apply (completion_reply_trimmed oneChoice (initClients openaiOnly) "openai"
           "gpt-4o" hello (8 # 10)%Q
           {| baseURL := "https://api.openai.com/v1"; timeout := 60000;
              headers := [bearer "sk-demo"; jsonType] |}
           noTraffic
           (JObject [("choices", JArray [JObject [("message", padded)]])])
           (JArray [JObject [("message", padded)]])
           (JObject [("message", padded)]) padded "  Hi there. ");
    reflexivity.
Defined.

(** *** Empty lines *)

(** [s], read after [run] line feeds, has three line feeds in a row. *)
Fixpoint tripleFrom (run : nat) (s : string) : bool :=
  match s with
  | EmptyString => false
  | String c s' =>
      if Ascii.eqb c Js.nl
      then ((2 <=? run)%nat || tripleFrom (S run) s')%bool
      else tripleFrom 0 s'
  end.

Lemma tripleFrom_newlines m : forall k t,
  k + m <= 2 -> tripleFrom k (Js.newlines m ++ t) = tripleFrom (k + m) t.
Proof.
  induction m as [|m IH]; intros k t H.
  - now rewrite Nat.add_0_r.
  - cbn [Js.newlines String.append tripleFrom]. rewrite Ascii.eqb_refl.
    replace (2 <=? k)%nat with false by (symmetry; apply Nat.leb_gt; lia).
    cbn [orb]. rewrite IH by lia. f_equal. lia.
Qed.

Lemma append_empty s : s ++ EmptyString = s.
Proof. induction s as [|c s IH]; [reflexivity|]. cbn [String.append]. now rewrite IH. Qed.

Lemma squeeze_no_triple s : forall run, tripleFrom 0 (Js.squeeze run s) = false.
Proof.
  induction s as [|c s IH]; intros run.
  - cbn [Js.squeeze]. rewrite <- (append_empty (Js.newlines _)).
    rewrite tripleFrom_newlines by lia. reflexivity.
  - cbn [Js.squeeze]. destruct (Ascii.eqb c Js.nl) eqn:E; [apply IH|].
    rewrite tripleFrom_newlines by lia. cbn [tripleFrom]. rewrite E. apply IH.
Qed.

Lemma newlines_shift run s :
  Js.newlines run ++ String Js.nl s = String Js.nl (Js.newlines run ++ s).
Proof. induction run as [|run IH]; [reflexivity|]. cbn [Js.newlines String.append]. now rewrite IH. Qed.

Lemma squeeze_fixed s : forall run,
  run <= 2 -> tripleFrom run s = false -> Js.squeeze run s = Js.newlines run ++ s.
Proof.
  induction s as [|c s IH]; intros run Hr H.
  - cbn [Js.squeeze]. now rewrite Nat.min_l, append_empty.
  - cbn [Js.squeeze tripleFrom] in *. destruct (Ascii.eqb c Js.nl) eqn:E.
    + apply Ascii.eqb_eq in E. subst c. apply orb_false_iff in H. destruct H as [H1 H2].
      apply Nat.leb_gt in H1. rewrite IH by (assumption || lia).
      cbn [Js.newlines String.append]. now rewrite newlines_shift.
    + rewrite (IH 0) by (assumption || lia). now rewrite Nat.min_l.
Qed.

(** X6.  [compressEmptyLines] leaves no three line feeds in a row, and it
    changes nothing in a text that has none. *)
Theorem compressEmptyLines_no_triple text :
  tripleFrom 0 (compressEmptyLines text) = false
  /\ (tripleFrom 0 text = false -> compressEmptyLines text = text).
Proof.
  split; [apply squeeze_no_triple|].
  intros H. unfold compressEmptyLines. now rewrite squeeze_fixed by (assumption || lia).
Qed.

Lemma compressEmptyLines_no_triple_witness :
  compressEmptyLines helloWorld = helloWorld.
Proof.
  apply (proj2 (compressEmptyLines_no_triple helloWorld)). reflexivity.
Defined.

(** *** Paragraphs *)

Lemma includes_In acc p : Js.includes acc p = true <-> In p acc.
Proof.
  unfold Js.includes. rewrite existsb_exists. split.
  - intros (x & Hx & E). apply String.eqb_eq in E. now subst.
  - intros H. exists p. split; [exact H | apply String.eqb_refl].
Qed.

Definition kept (acc : list string) : Prop :=
  NoDup acc /\ forall p, In p acc -> Js.truthy (Js.trim p) = true.

Lemma uniqueParagraphs_kept ps : forall acc,
  kept acc -> kept (uniqueParagraphs ps acc).
Proof.
  induction ps as [|p ps IH]; intros acc [Hn Hb]; [now split|].
  cbn [uniqueParagraphs].
  destruct (Js.truthy (Js.trim p)) eqn:Hp; cbn [andb]; [|now apply IH].
  destruct (Js.includes acc p) eqn:Hi; cbn [negb]; [now apply IH|].
  apply IH. split.
  - apply NoDup_app; [exact Hn | repeat constructor; intros [] | ].
    intros x Hx [<-|[]]. apply includes_In in Hx. congruence.
  - intros x Hx. apply in_app_or in Hx. destruct Hx as [Hx|[<-|[]]]; auto.
Qed.

Lemma uniqueParagraphs_In ps : forall acc p,
  In p (uniqueParagraphs ps acc)
  <-> In p acc \/ (In p ps /\ Js.truthy (Js.trim p) = true).
Proof.
  induction ps as [|q ps IH]; intros acc p.
  - cbn [uniqueParagraphs In]. tauto.
  - cbn [uniqueParagraphs].
    destruct (Js.truthy (Js.trim q)) eqn:Hq; cbn [andb].
    + destruct (Js.includes acc q) eqn:Hi; cbn [negb]; rewrite IH.
      * apply includes_In in Hi. cbn [In]. split.
        -- intros [H|[H1 H2]]; auto.
        -- intros [H|[[<-|H1] H2]]; auto.
      * rewrite in_app_iff. cbn [In]. split.
        -- intros [[H|[<-|[]]]|[H1 H2]]; auto.
        -- intros [H|[[<-|H1] H2]]; auto.
    + rewrite IH. cbn [In]. split.
      * intros [H|[H1 H2]]; auto.
      * intros [H|[[<-|H1] H2]]; auto. congruence.
Qed.

(** X7.  The paragraphs that [compressDuplicateParagraphs] joins are
    pairwise different, and they are exactly the paragraphs of the text
    that are not blank. *)
Theorem kept_paragraphs text :
  let paragraphs := Js.splitBlank EmptyString text in
  let unique := uniqueParagraphs paragraphs [] in
  compressDuplicateParagraphs text = Js.join blank unique
  /\ NoDup unique
  /\ forall p, In p unique <-> In p paragraphs /\ Js.truthy (Js.trim p) = true.
Proof.
  cbv zeta. split; [reflexivity|]. split.
  - apply uniqueParagraphs_kept. split; [constructor | intros p []].
  - intros p. rewrite uniqueParagraphs_In. cbn [In]. tauto.
Qed.

(** *** Markers that are not there, or not closed *)

(** No closing marker begins inside a text without [<]. *)
Lemma endOfFirst_past u : forall t,
  free lt u = true ->
  Js.endOfFirst thinkingEnd t = None ->
  Js.endOfFirst thinkingEnd (u ++ t) = None.
Proof.
  induction u as [|c u IH]; intros t Hu Ht; [exact Ht|].
  apply free_cons in Hu. destruct Hu as [Hc Hu].
  cbn [String.append]. rewrite endOfFirst_cons.
  unfold thinkingEnd at 1. rewrite (prefix_miss _ _ _ _ Hc).
  now rewrite (IH t Hu Ht).
Qed.

(** An opening marker holds no closing marker and brings none about. *)
Lemma opener_unclosed tail :
  Js.endOfFirst thinkingEnd tail = None ->
  Js.endOfFirst (String lt endTail) (String lt (startTail ++ tail)) = None.
Proof.
  intros H. rewrite endOfFirst_cons.
  replace (prefix (String lt endTail) (String lt (startTail ++ tail)))
    with false by reflexivity.
  change (String lt endTail) with thinkingEnd.
  now rewrite (endOfFirst_past startTail tail eq_refl H).
Qed.

(** X8.  [removeThinkingTags] changes nothing in a text that has no
    opening marker or no closing marker; and an opening marker with no
    closing marker behind it stays, together with everything after it,
    whatever stands before it. *)
Theorem unclosed_marker_kept :
  (forall text,
      occurs thinkingStart text = false \/ occurs thinkingEnd text = false ->
      removeThinkingTags text = text)
  /\ (forall a tail,
        occurs thinkingEnd tail = false ->
        removeThinkingTags (a ++ thinkingStart ++ tail)
        = removeThinkingTags a ++ thinkingStart ++ tail).
Proof.
  split.
  - intros text [H|H]; apply occurs_false in H;
      rewrite removeThinkingTags_stripFrom.
    + now apply (strip_unopened lt startTail endTail).
    + now apply strip_unclosed.
  - intros a tail H. apply occurs_false in H.
    rewrite !removeThinkingTags_stripFrom, thinkingStart_shape.
    change (String lt startTail ++ tail) with (String lt (startTail ++ tail)).
    apply (strip_before lt startTail endTail eq_refl eq_refl (startTail ++ tail)
                        (opener_unclosed tail H) a 0).
    lia.
Qed.

(** The theorem at a text with [<] but no marker, and at an opening
    marker that follows a marked part and is followed by a text with
    [<] and another opening marker. *)
Lemma unclosed_marker_kept_witness :
  removeThinkingTags "if a<b then x" = "if a<b then x"
  /\ removeThinkingTags (("x " ++ thinkingStart ++ "y" ++ thinkingEnd ++ " z ")
                         ++ thinkingStart ++ "if a<b " ++ thinkingStart)
     = removeThinkingTags ("x " ++ thinkingStart ++ "y" ++ thinkingEnd ++ " z ")
       ++ thinkingStart ++ "if a<b " ++ thinkingStart.
Proof.
  split.
  - apply (proj1 unclosed_marker_kept "if a<b then x"). left. reflexivity.
  - apply (proj2 unclosed_marker_kept
                 ("x " ++ thinkingStart ++ "y" ++ thinkingEnd ++ " z ")
                 ("if a<b " ++ thinkingStart)).
    reflexivity.
Defined.

(** *** One request for each call that has a client *)

(** Computations that leave the world as it is. *)
Definition still {A} (m : M World A) : Prop := forall w, snd (m w) = w.

Lemma still_ret {A} (a : A) : still (ret a).
Proof. intros w. reflexivity. Qed.

Lemma still_lift {A} (r : Signal A) : still (lift r).
Proof. intros w. reflexivity. Qed.

Lemma still_bind {A B} (m : M World A) (k : A -> M World B) :
  still m -> (forall a, still (k a)) -> still (bind m k).
Proof.
  intros Hm Hk w. unfold bind. specialize (Hm w).
  destruct (m w) as [[a| | |e] w']; cbn [snd] in *; subst; auto. apply Hk.
Qed.

Ltac still_steps :=
  repeat first [ apply still_bind; [| intros ? ] | apply still_ret | apply still_lift ].

Lemma still_reading apiType data : still (reading apiType data).
Proof.
  unfold reading, ollamaContent, completionContent.
  destruct (String.eqb apiType "ollama"); still_steps.
Qed.

Lemma settle_settled c o : settled (settle c o).
Proof.
  destruct o as [status data| |]; cbn [settle]; try exact I.
  now destruct ((200 <=? status)%Z && (status <? 300)%Z)%bool.
Qed.

Lemma call_sends_one network svc apiType model messages temp c w :
  clientFor svc apiType = Some c ->
  exists request,
    snd (getAIResponse network svc apiType model messages temp w)
    = {| sent := sent w ++ [request]; delays := delays w |}.
Proof.
  intros Hc. pose proof (settle_settled c (network (attempts w))) as Hs.
  destruct (settle c (network (attempts w))) as [data| | |e] eqn:E;
    try contradiction.
  - destruct (dispatch_answered network svc apiType model messages temp c w data Hc E)
      as (request & _ & Hd).
    exists request. unfold getAIResponse, tryCatch. rewrite Hd.
    pose proof (still_reading apiType data
                  {| sent := sent w ++ [request]; delays := delays w |}) as Hw.
    destruct (reading apiType data _) as [[r| | |e] w']; cbn [snd] in *; now subst.
  - destruct (dispatch_rejected network svc apiType model messages temp c w e Hc E)
      as (request & Hd).
    exists request. unfold getAIResponse, tryCatch. now rewrite Hd.
Qed.

(** X9.  Whatever the network does and whatever the data of the response,
    a call for which the service has a client sends exactly one request
    and takes no pause. *)
Theorem one_request_per_call network svc apiType model messages temp c w :
  clientFor svc apiType = Some c ->
  attempts (snd (getAIResponse network svc apiType model messages temp w))
  = S (attempts w)
  /\ delays (snd (getAIResponse network svc apiType model messages temp w))
     = delays w.
Proof.
  intros Hc.
  destruct (call_sends_one network svc apiType model messages temp c w Hc)
    as (request & ->).
  unfold attempts. cbn [sent delays]. rewrite length_app. cbn [length].
  split; [lia | reflexivity].
Qed.

Lemma one_request_per_call_witness :
  attempts (snd (getAIResponse malformed (initClients demoSettings) "deepseek" "m"
                               hello (8 # 10)%Q noTraffic)) = 1
  /\ delays (snd (getAIResponse malformed (initClients demoSettings) "deepseek" "m"
                                hello (8 # 10)%Q noTraffic)) = [].
Proof.
  apply (one_request_per_call malformed (initClients demoSettings) "deepseek" "m"
           hello (8 # 10)%Q
           {| baseURL := "https://api.deepseek.com/v1"; timeout := 60000;
              headers := [bearer "sk-demo"; jsonType] |} noTraffic).
  reflexivity.
Defined.

(** *** Changing the settings *)

Import AIServiceSettings.

Lemma initClients_allocated s : initClients s = initClientsOn (allocated s).
Proof. reflexivity. Qed.

(** X10.  [updateSettings] builds the clients a new service would get when
    both keys are given; but a key that is taken away leaves the client
    made with the old key in place, and calls keep going out through it. *)
Theorem updateSettings_keeps_client network svc s model messages temp c w :
  (Js.truthy (openai_key s) = true -> Js.truthy (deepseek_key s) = true ->
   updateSettings svc s = initClients s)
  /\ (openai_key s = EmptyString -> openaiClient svc = Some c ->
      openaiClient (updateSettings svc s) = Some c
      /\ attempts (snd (getAIResponse network (updateSettings svc s) "openai"
                                      model messages temp w))
         = S (attempts w)).
Proof.
  split.
  - intros H1 H2. unfold updateSettings, initClients, initClientsOn.
    cbn [settings openaiClient deepseekClient]. now rewrite H1, H2.
  - intros Hk Hc.
    assert (Hkept : openaiClient (updateSettings svc s) = Some c).
    { unfold updateSettings, initClientsOn. cbn [settings openaiClient].
      now rewrite Hk. }
    split; [exact Hkept|].
    destruct (call_sends_one network (updateSettings svc s) "openai" model messages
                temp c w Hkept) as (request & ->).
    unfold attempts. cbn [sent]. rewrite length_app. cbn [length]. lia.
Qed.

Lemma updateSettings_keeps_client_witness :
  openaiClient (updateSettings (initClients openaiOnly) demoSettings)
  = Some {| baseURL := "https://api.openai.com/v1"; timeout := 60000;
            headers := [bearer "sk-demo"; jsonType] |}
  /\ attempts (snd (getAIResponse alwaysTimeout
                      (updateSettings (initClients openaiOnly) demoSettings)
                      "openai" "gpt-4o" hello (8 # 10)%Q noTraffic))
     = 1.
Proof.
  apply (proj2 (updateSettings_keeps_client alwaysTimeout (initClients openaiOnly)
                  demoSettings "gpt-4o" hello (8 # 10)%Q
                  {| baseURL := "https://api.openai.com/v1"; timeout := 60000;
                     headers := [bearer "sk-demo"; jsonType] |} noTraffic));
    reflexivity.
Defined.

(** *** The lists of models *)

Import AIServiceModels.

Lemma settled_includesGpt id : settled (includesGpt id).
Proof. destruct id; exact I. Qed.

Lemma settled_arrayFor method v : settled (arrayFor method v).
Proof. destruct v; exact I. Qed.

Lemma settled_filterGpt items : settled (filterGpt items).
Proof.
  induction items as [|model rest IH]; [exact I|].
  cbn [filterGpt]. pose proof (settled_getProp model "id") as Hid.
  destruct (getProp model "id") as [id| | |e]; try exact Hid.
  pose proof (settled_includesGpt id) as Hin.
  destruct (includesGpt id) as [keep| | |e]; try exact Hin.
  destruct (filterGpt rest); exact IH.
Qed.

Lemma settled_mapId items : settled (mapId items).
Proof.
  induction items as [|model rest IH]; [exact I|].
  cbn [mapId]. pose proof (settled_getProp model "id") as Hid.
  destruct (getProp model "id") as [id| | |e]; try exact Hid.
  destruct (mapId rest); exact IH.
Qed.

(** Computations on the GET requests that end normally or by a throw and
    add at most one request. *)
Definition calm {A} (m : M (list Lookup) A) : Prop :=
  forall w, settled (fst (m w))
            /\ (snd (m w) = w \/ exists request, snd (m w) = (w ++ [request])%list).

Lemma calm_pure {A} (r : Signal A) : settled r -> calm (pure r).
Proof. intros H w. split; [exact H | now left]. Qed.

Lemma calm_ret {A} (a : A) : calm (ret a).
Proof. intros w. split; [exact I | now left]. Qed.

Definition quiet {A} (m : M (list Lookup) A) : Prop :=
  forall w, settled (fst (m w)) /\ snd (m w) = w.

Lemma quiet_pure {A} (r : Signal A) : settled r -> quiet (pure r).
Proof. intros H w. now split. Qed.

Lemma quiet_bind {A B} (m : M (list Lookup) A) (k : A -> M (list Lookup) B) :
  quiet m -> (forall a, quiet (k a)) -> quiet (bind m k).
Proof.
  intros Hm Hk w. unfold bind. destruct (Hm w) as [Hs Hw].
  destruct (m w) as [[a| | |e] w']; cbn [fst snd] in *; subst;
    try contradiction; try (now split). apply Hk.
Qed.

Lemma calm_get_then {B} network c u (k : JsValue -> M (list Lookup) B) :
  (forall data, quiet (k data)) -> calm (bind (get_ network c u) k).
Proof.
  intros Hk w. unfold bind, get_.
  pose proof (settle_settled c (network (length w))) as Hs.
  destruct (settle c (network (length w))) as [data| | |e]; try contradiction.
  - destruct (Hk data (w ++ [{| via := c; path := u |}])%list) as [H1 H2].
    split; [exact H1|]. right. eauto.
  - split; [exact I|]. right. cbn [snd]. eauto.
Qed.

Lemma calm_tryCatch {A} (m : M (list Lookup) A) (d : A) :
  calm m ->
  forall w, exists r,
    fst (tryCatch m (fun _ => ret d) w) = Normal r
    /\ (snd (tryCatch m (fun _ => ret d) w) = w
        \/ exists request,
             snd (tryCatch m (fun _ => ret d) w) = (w ++ [request])%list).
Proof.
  intros Hm w. unfold tryCatch. destruct (Hm w) as [Hs Hw].
  destruct (m w) as [[a| | |e] w']; cbn [fst snd ret] in *; try contradiction; eauto.
Qed.

Ltac quiet_steps :=
  repeat first [ apply quiet_bind; [| intros ? ]
               | apply quiet_pure;
                 first [ apply settled_getProp | apply settled_arrayFor
                       | apply settled_filterGpt | apply settled_mapId ] ].

Lemma calm_openai network svc :
  calm (match openaiClient svc with
        | None => ret defaultOpenAIModels
        | Some c =>
            (data <- get_ network c "/models" ;;
             models <- pure (getProp data "data") ;;
             items <- pure (arrayFor "filter" models) ;;
             kept <- pure (filterGpt items) ;;
             pure (mapId kept))%js
        end).
Proof.
  destruct (openaiClient svc) as [c|]; [|apply calm_ret].
  apply calm_get_then. intros data. quiet_steps.
Qed.

Lemma calm_deepseek network svc :
  calm (match deepseekClient svc with
        | None => ret defaultDeepSeekModels
        | Some c =>
            (data <- get_ network c "/models" ;;
             models <- pure (getProp data "data") ;;
             items <- pure (arrayFor "map" models) ;;
             pure (mapId items))%js
        end).
Proof.
  destruct (deepseekClient svc) as [c|]; [|apply calm_ret].
  apply calm_get_then. intros data. quiet_steps.
Qed.

(** X22.  [getOpenAIModels] and [getDeepSeekModels] never throw and make
    at most one request; without a client they return their default list
    and make none, and when the request is rejected (a status outside
    200..299, a timeout, a refused connection) they return the default
    list too. *)
Theorem model_lists_fall_back network svc w :
  (exists models,
      fst (getOpenAIModels network svc w) = Normal models
      /\ (snd (getOpenAIModels network svc w) = w
          \/ exists request,
               snd (getOpenAIModels network svc w) = (w ++ [request])%list))
  /\ (exists models,
         fst (getDeepSeekModels network svc w) = Normal models
         /\ (snd (getDeepSeekModels network svc w) = w
             \/ exists request,
                  snd (getDeepSeekModels network svc w) = (w ++ [request])%list))
  /\ (openaiClient svc = None ->
      getOpenAIModels network svc w = (Normal defaultOpenAIModels, w))
  /\ (deepseekClient svc = None ->
      getDeepSeekModels network svc w = (Normal defaultDeepSeekModels, w))
  /\ (forall c e, openaiClient svc = Some c ->
                  settle c (network (length w)) = Throw e ->
                  fst (getOpenAIModels network svc w) = Normal defaultOpenAIModels)
  /\ (forall c e, deepseekClient svc = Some c ->
                  settle c (network (length w)) = Throw e ->
                  fst (getDeepSeekModels network svc w) = Normal defaultDeepSeekModels).
Proof.
  split; [exact (calm_tryCatch _ defaultOpenAIModels (calm_openai network svc) w)|].
  split; [exact (calm_tryCatch _ defaultDeepSeekModels (calm_deepseek network svc) w)|].
  split; [intros H; unfold getOpenAIModels, tryCatch; now rewrite H|].
  split; [intros H; unfold getDeepSeekModels, tryCatch; now rewrite H|].
  split.
  - intros c e Hc He. unfold getOpenAIModels, tryCatch, bind, get_.
    now rewrite Hc, He.
  - intros c e Hc He. unfold getDeepSeekModels, tryCatch, bind, get_.
    now rewrite Hc, He.
Qed.

Lemma model_lists_fall_back_witness :
  getOpenAIModels alwaysTimeout (initClients demoSettings) []
  = (Normal defaultOpenAIModels, [])
  /\ fst (getDeepSeekModels alwaysTimeout (initClients demoSettings) [])
     = Normal defaultDeepSeekModels.
Proof.
  destruct (model_lists_fall_back alwaysTimeout (initClients demoSettings) [])
    as (_ & _ & Hnone & _ & _ & Hrejected).
  split; [apply Hnone; reflexivity|].
  apply (Hrejected {| baseURL := "https://api.deepseek.com/v1"; timeout := 60000;
                      headers := [bearer "sk-demo"; jsonType] |}
                   (ErrorObj "timeout of 60000ms exceeded")); reflexivity.
Defined.

(** A list of models as the API sends it: objects with a text as [id]. *)
Definition listed (items : list JsValue) (ids : list string) : Prop :=
  Forall2 (fun item id => getProp item "id" = Normal (JString id)) items ids.

Lemma mapId_listed items ids :
  listed items ids -> mapId items = Normal (map JString ids).
Proof.
  induction 1 as [|item id items ids Hid _ IH]; [reflexivity|].
  cbn [mapId map]. now rewrite Hid, IH.
Qed.

Lemma filterGpt_listed items ids :
  listed items ids ->
  exists kept,
    filterGpt items = Normal kept
    /\ listed kept (filter (includesText "gpt") ids).
Proof.
  induction 1 as [|item id items ids Hid _ (kept & Hk & Hl)].
  - exists []. split; [reflexivity | constructor].
  - cbn [filterGpt filter]. rewrite Hid. cbn [includesGpt]. rewrite Hk.
    destruct (includesText "gpt" id).
    + exists (item :: kept). split; [reflexivity | now constructor].
    + exists kept. now split.
Qed.

(** X23.  When the request succeeds and the data lists models, each an
    object with a text as its [id], [getOpenAIModels] returns the ids that
    contain 'gpt', in their order, and [getDeepSeekModels] returns all
    ids, after one request. *)
Theorem model_lists_from_data network svc w c data items ids :
  settle c (network (length w)) = Normal data ->
  getProp data "data" = Normal (JArray items) ->
  listed items ids ->
  (openaiClient svc = Some c ->
   getOpenAIModels network svc w
   = (Normal (map JString (filter (includesText "gpt") ids)),
      (w ++ [{| via := c; path := "/models" |}])%list))
  /\ (deepseekClient svc = Some c ->
      getDeepSeekModels network svc w
      = (Normal (map JString ids), (w ++ [{| via := c; path := "/models" |}])%list)).
Proof.
  intros Hs Hd Hl. split; intros Hc.
  - destruct (filterGpt_listed items ids Hl) as (kept & Hk & Hkl).
    unfold getOpenAIModels, tryCatch, bind, get_, pure.
    rewrite Hc, Hs, Hd. cbn [arrayFor]. rewrite Hk, (mapId_listed _ _ Hkl).
    reflexivity.
  - unfold getDeepSeekModels, tryCatch, bind, get_, pure.
    rewrite Hc, Hs, Hd. cbn [arrayFor]. rewrite (mapId_listed _ _ Hl).
    reflexivity.
Qed.

Definition modelEntry (id : string) : JsValue :=
  JObject [("id", JString id); ("object", JString "model")].

Definition threeModels : nat -> NetOutcome :=
  fun _ => HttpResponse 200
             (JObject [("object", JString "list");
                       ("data", JArray [modelEntry "gpt-4o";
                                        modelEntry "text-embedding-3-small";
                                        modelEntry "chatgpt-4o-latest"])]).

Lemma model_lists_from_data_witness :
  getOpenAIModels threeModels (initClients openaiOnly) []
  = (Normal [JString "gpt-4o"; JString "chatgpt-4o-latest"],
     [{| via := {| baseURL := "https://api.openai.com/v1"; timeout := 60000;
                   headers := [bearer "sk-demo"; jsonType] |};
         path := "/models" |}]).
Proof.
  apply (proj1 (model_lists_from_data threeModels (initClients openaiOnly) []
                  {| baseURL := "https://api.openai.com/v1"; timeout := 60000;
                     headers := [bearer "sk-demo"; jsonType] |}
                  (JObject [("object", JString "list");
                            ("data", JArray [modelEntry "gpt-4o";
                                             modelEntry "text-embedding-3-small";
                                             modelEntry "chatgpt-4o-latest"])])
                  [modelEntry "gpt-4o"; modelEntry "text-embedding-3-small";
                   modelEntry "chatgpt-4o-latest"]
                  ["gpt-4o"; "text-embedding-3-small"; "chatgpt-4o-latest"]
                  eq_refl eq_refl
                  ltac:(repeat constructor)));
    reflexivity.
Defined.

End AIServiceFacts.

(** ** The client of the backend *)

Module ApiServiceFacts.
Import AIService ApiService.

(** The outcomes that the specification calls retryable: a transport-level
    error (the promise of [fetch] rejects) or a 5xx response. *)
Definition retryable (o : FetchOutcome) : bool :=
  match o with
  | Rejected _ => true
  | Responded status _ _ => (500 <=? status)%Z
  end.

(** The outcomes that are no Success: a rejection, or a response whose
    status is not 2xx. *)
Definition refused (o : FetchOutcome) : bool :=
  match o with
  | Rejected _ => true
  | Responded status _ _ => negb (ok status)
  end.

(** The text the code finds for a response that is not [ok], or what the
    reading of the body throws: the field [detail] of the JSON body when
    that is truthy, the default text without it, and, when the body is no
    JSON or has no fields to read, the default text followed by the body
    as text. *)
Definition reported (status : Z) (json : JsValue + Thrown)
           (text : string + Thrown) : JsValue + Thrown :=
  match json with
  | inl (JObject fields) =>
      inl (if falsy (lookup "detail" fields)
           then JString (defaultMessage status)
           else lookup "detail" fields)
  | inl JUndefined | inl JNull | inr _ =>
      match text with
      | inl t => inl (JString (defaultMessage status ++ " - " ++ t))
      | inr e => inr e
      end
  | inl _ => inl (JString (defaultMessage status))
  end.

(** The error of a refused attempt. *)
Definition failure (o : FetchOutcome) : Thrown :=
  match o with
  | Rejected error => error
  | Responded status json text =>
      match reported status json text with
      | inl v => ErrorObj (toText v)
      | inr e => e
      end
  end.

(** The request as [fetch] gets it. *)
Definition outgoing (url : string) (options : RequestInit) (p : Page) : Fetch :=
  {| target := url;
     init := {| method := method options;
                init_headers := withToken (token p) (init_headers options);
                init_body := init_body options |} |}.

(** The pauses before the attempts 1 to [k], in milliseconds. *)
Definition waits (k : nat) : list Z :=
  map (fun j => (1000 * Z.of_nat j)%Z) (seq 1 k).

Definition timeout : Thrown := ErrorObj "The operation timed out.".

Definition alwaysTimeout : nat -> FetchOutcome := fun _ => Rejected timeout.

Definition unavailable : FetchOutcome :=
  Responded 503 (inl (JObject [("detail", JString "overloaded")]))
            (inr (ErrorObj "body stream already read")).

Definition notFound : FetchOutcome :=
  Responded 404 (inl (JObject [("detail", JString "Not Found")]))
            (inr (ErrorObj "body stream already read")).

Definition answer : JsValue := JObject [("success", JBool true)].

(** Two 503 responses, then the answer. *)
Definition thirdTimeLucky : nat -> FetchOutcome :=
  fun j => match j with
           | 0 | 1 => unavailable
           | _ => Responded 200 (inl answer) (inr NonError)
           end.

Definition alwaysNotFound : nat -> FetchOutcome := fun _ => notFound.

(** The end of the proofs about one pass: run the monad, then read the
    fields of the page it leaves. *)
Ltac pass_done :=
  cbv beta iota delta [tryCatch bind throw ret modify sleep removeToken reload
                       andb];
  eexists; split; [reflexivity|];
  cbv beta iota delta [fetched pauses tokens token reloads];
  rewrite ?app_nil_r; repeat split; auto; intros; discriminate.

Section Passes.

Variable network : nat -> FetchOutcome.

Lemma errorMessageOf_reported status json text p :
  errorMessageOf status json text p
  = (match reported status json text with
     | inl v => Normal v
     | inr e => Throw e
     end, p).
Proof.
  unfold errorMessageOf, reported, tryCatch, bind, await, lift, ret, throw.
  destruct json as [[| | | | | |fields]|e]; cbn;
    try (destruct text; reflexivity); reflexivity.
Qed.

(** One pass of the loop over a refused attempt: a pause and the next
    pass while [attempt < MAX_RETRIES - 1], the error of the attempt
    after that. *)
Lemma pass_refused url i attempt p :
  refused (network (length (fetched p))) = true ->
  exists p',
    tryCatch (attemptOnce network url i attempt) (onFailure attempt) p
    = (if (attempt <? MAX_RETRIES - 1)%nat then Normal None
       else Throw (failure (network (length (fetched p)))), p')
    /\ fetched p' = (fetched p ++ [{| target := url; init := i |}])%list
    /\ pauses p'
       = (pauses p ++ if (attempt <? MAX_RETRIES - 1)%nat
                      then [(RETRY_DELAY * (Z.of_nat attempt + 1))%Z] else [])%list
    /\ tokens p' = tokens p
    /\ (retryable (network (length (fetched p))) = true ->
        token p' = token p /\ reloads p' = reloads p).
Proof.
  intros Hr. unfold tryCatch at 1, attemptOnce, bind at 1, fetch.
  remember (attempt <? MAX_RETRIES - 1)%nat as more eqn:Hmore.
  remember (RETRY_DELAY * (Z.of_nat attempt + 1))%Z as d eqn:Hd.
  destruct (network (length (fetched p))) as [error|status json text].
  - unfold onFailure, backoff. rewrite <- Hmore, <- Hd.
    destruct more; pass_done.
  - cbn [refused] in Hr. rewrite Hr.
    unfold bind at 1. rewrite errorMessageOf_reported.
    cbn [failure retryable]. unfold onFailure, backoff.
    rewrite <- Hmore, <- Hd.
    destruct (reported status json text) as [v|e]; [|destruct more; pass_done].
    destruct (500 <=? status)%Z eqn:H5.
    + replace (status =? 401)%Z with false
        by (symmetry; apply Z.eqb_neq; apply Z.leb_le in H5; lia).
      destruct more; pass_done.
    + destruct (status =? 401)%Z; destruct more; pass_done.
Qed.

(** One pass over a Success. *)
Lemma pass_answered url i attempt p status data text :
  network (length (fetched p)) = Responded status (inl data) text ->
  ok status = true ->
  exists p',
    tryCatch (attemptOnce network url i attempt) (onFailure attempt) p
    = (Normal (Some data), p')
    /\ fetched p' = (fetched p ++ [{| target := url; init := i |}])%list
    /\ pauses p' = pauses p
    /\ tokens p' = tokens p
    /\ token p' = token p /\ reloads p' = reloads p.
Proof.
  intros Hn Hok. unfold tryCatch, attemptOnce, bind, fetch. rewrite Hn, Hok.
  cbn. eexists. split; [reflexivity|]. cbn. auto.
Qed.

(** The loop from attempt [a] on, with [n] passes to go: [k] refused
    attempts, and then either the end of the attempts or a Success. *)
Lemma retry_refused url i : forall k n a p,
  a + n = MAX_RETRIES -> k <= n ->
  (forall j, j < k -> refused (network (length (fetched p) + j)) = true) ->
  (k = n ->
   k <> 0 ->
   exists p',
     retry network url i n a p
     = (Throw (failure (network (length (fetched p) + (k - 1)))), p')
     /\ fetched p' = (fetched p ++ repeat {| target := url; init := i |} k)%list
     /\ pauses p'
        = (pauses p ++ map (fun j => (RETRY_DELAY * Z.of_nat j)%Z)
                           (seq (S a) (k - 1)))%list
     /\ tokens p' = tokens p)
  /\ (k < n ->
      forall status data text,
        network (length (fetched p) + k) = Responded status (inl data) text ->
        ok status = true ->
        exists p',
          retry network url i n a p = (Normal data, p')
          /\ fetched p'
             = (fetched p ++ repeat {| target := url; init := i |} (k + 1))%list
          /\ pauses p'
             = (pauses p ++ map (fun j => (RETRY_DELAY * Z.of_nat j)%Z)
                                (seq (S a) k))%list
          /\ tokens p' = tokens p).
Proof.
  induction k as [|k IH]; intros n a p Han Hkn Href.
  - split; [intros _ H; contradiction|].
    intros Hlt status data text Hn Hok.
    destruct n as [|n]; [lia|]. rewrite Nat.add_0_r in Hn.
    destruct (pass_answered url i a p status data text Hn Hok)
      as (p' & Hp & Hf & Hs & Ht & _).
    exists p'. cbn [retry]. unfold bind at 1. rewrite Hp.
    cbn [Nat.add repeat seq map]. rewrite app_nil_r. unfold ret.
    repeat split; auto.
  - destruct n as [|n]; [lia|].
    assert (H0 : refused (network (length (fetched p))) = true)
      by (rewrite <- (Nat.add_0_r (length (fetched p))); apply Href; lia).
    destruct (pass_refused url i a p H0) as (p1 & Hp & Hf & Hs & Ht & _).
    assert (Hlen : length (fetched p1) = S (length (fetched p)))
      by (rewrite Hf, length_app; cbn [length]; lia).
    assert (Href1 : forall j, j < k ->
              refused (network (length (fetched p1) + j)) = true).
    { intros j Hj. rewrite Hlen.
      replace (S (length (fetched p)) + j) with (length (fetched p) + S j) by lia.
      apply Href. lia. }
    destruct n as [|n].
    + (* the last pass *)
      assert (Hk0 : k = 0) by lia. subst k. split; [|lia].
      intros _ _.
      assert (Hb : (a <? MAX_RETRIES - 1)%nat = false)
        by (apply Nat.ltb_ge; lia).
      rewrite Hb in Hp, Hs. exists p1. cbn [retry]. unfold bind at 1.
      rewrite Hp. cbn [Nat.sub repeat seq map].
      rewrite Hf, Hs, app_nil_r, Nat.add_0_r. auto.
    + assert (Hb : (a <? MAX_RETRIES - 1)%nat = true)
        by (apply Nat.ltb_lt; lia).
      rewrite Hb in Hp, Hs.
      assert (Hstep : retry network url i (S (S n)) a p
                      = retry network url i (S n) (S a) p1)
        by (cbn [retry]; unfold bind at 1; rewrite Hp; reflexivity).
      destruct (IH (S n) (S a) p1 ltac:(lia) ltac:(lia) Href1) as [IHend IHok].
      replace (RETRY_DELAY * (Z.of_nat a + 1))%Z
        with (RETRY_DELAY * Z.of_nat (S a))%Z in Hs by lia.
      split.
      * intros Hk1 _.
        destruct IHend as (p' & Hr & Hf' & Hs' & Ht'); [lia | lia |].
        exists p'. rewrite Hstep, Hr, Hf', Hs', Ht', Hlen, Hf, Hs, Ht.
        rewrite <- !app_assoc.
        replace (S k - 1) with (S (k - 1)) by lia.
        replace (length (fetched p) + S (k - 1))
          with (S (length (fetched p)) + (k - 1)) by lia.
        cbn [app repeat seq map]. auto.
      * intros Hlt status data text Hn Hok.
        destruct (IHok ltac:(lia) status data text)
          as (p' & Hr & Hf' & Hs' & Ht');
          [rewrite Hlen;
           replace (S (length (fetched p)) + k)
             with (length (fetched p) + S k) by lia; exact Hn
          | exact Hok |].
        exists p'. rewrite Hstep, Hr, Hf', Hs', Ht', Hf, Hs, Ht.
        rewrite <- !app_assoc. cbn [Nat.add app repeat seq map]. auto.
Qed.

Lemma retryable_refused o : retryable o = true -> refused o = true.
Proof.
  destruct o as [error|status json text]; [reflexivity|].
  cbn [retryable refused]. intros H. apply Z.leb_le in H. unfold ok.
  replace (status <=? 299)%Z with false by (symmetry; apply Z.leb_gt; lia).
  now rewrite andb_false_r.
Qed.

(** A call that finds a token in the bucket takes it and enters the loop
    with the request it sends in every attempt. *)
Lemma request_enters now url options p :
  (0 < tokens (refill now p))%Z ->
  request network now url options p
  = Some (retry network url (init (outgoing url options p)) MAX_RETRIES 0
                (consume (refill now p)))
  /\ fetched (consume (refill now p)) = fetched p
  /\ pauses (consume (refill now p)) = pauses p
  /\ tokens (consume (refill now p)) = (tokens (refill now p) - 1)%Z.
Proof.
  intros H. unfold request.
  replace (tokens (refill now p) <=? 0)%Z with false
    by (symmetry; apply Z.leb_gt; exact H).
  assert (Hf : fetched (refill now p) = fetched p
               /\ pauses (refill now p) = pauses p
               /\ token (refill now p) = token p).
  { unfold refill.
    destruct (0 <? (now - lastTokenRefill p) / 1000 * RATE_LIMIT)%Z; auto. }
  destruct Hf as (Hf & Hs & Ht).
  cbn [consume fetched pauses tokens token outgoing init]. rewrite Hf, Hs, Ht.
  auto.
Qed.

(** Refused attempts, retryable or not, up to the last one. *)
Lemma request_exhausted now url options p :
  (0 < tokens (refill now p))%Z ->
  (forall j, j < MAX_RETRIES ->
     refused (network (length (fetched p) + j)) = true) ->
  exists p',
    request network now url options p
    = Some (Throw (failure (network (length (fetched p) + (MAX_RETRIES - 1)))), p')
    /\ fetched p' = (fetched p ++ repeat (outgoing url options p) MAX_RETRIES)%list
    /\ pauses p' = (pauses p ++ [RETRY_DELAY; 2 * RETRY_DELAY]%Z)%list
    /\ tokens p' = (tokens (refill now p) - 1)%Z.
Proof.
  intros Hready Href.
  destruct (request_enters now url options p Hready) as (Hreq & Hf & Hs & Ht).
  destruct (retry_refused url (init (outgoing url options p)) MAX_RETRIES
              MAX_RETRIES 0 (consume (refill now p)) eq_refl (le_n _))
    as [Hend _]; [rewrite Hf; exact Href|].
  destruct Hend as (p' & Hr & Hf' & Hs' & Ht'); [reflexivity | discriminate |].
  exists p'. rewrite Hreq, Hr, Hf', Hs', Ht', Hf, Hs, Ht. auto.
Qed.

(** Refused attempts, then a Success. *)
Lemma request_answered now url options p k status data text :
  (0 < tokens (refill now p))%Z ->
  k < MAX_RETRIES ->
  (forall j, j < k -> refused (network (length (fetched p) + j)) = true) ->
  network (length (fetched p) + k) = Responded status (inl data) text ->
  ok status = true ->
  exists p',
    request network now url options p = Some (Normal data, p')
    /\ fetched p' = (fetched p ++ repeat (outgoing url options p) (k + 1))%list
    /\ pauses p' = (pauses p ++ waits k)%list.
Proof.
  intros Hready Hk Href Hn Hok.
  destruct (request_enters now url options p Hready) as (Hreq & Hf & Hs & Ht).
  destruct (retry_refused url (init (outgoing url options p)) k
              MAX_RETRIES 0 (consume (refill now p)) eq_refl (Nat.lt_le_incl _ _ Hk))
    as [_ Hgo]; [rewrite Hf; exact Href|].
  destruct (Hgo Hk status data text) as (p' & Hr & Hf' & Hs' & Ht');
    [rewrite Hf; exact Hn | exact Hok |].
  exists p'. rewrite Hreq, Hr, Hf', Hs', Hf, Hs. auto.
Qed.

End Passes.


(** C1.  A call of [request] that finds a token in the bucket attempts the
    network call up to [MAX_RETRIES] = 3 times, always with the same
    request, and pauses [RETRY_DELAY * k] = 1000 k milliseconds before
    attempt [k] (attempts counted from 0).  If the first [k < 3] attempts meet a
    retryable outcome (the promise of [fetch] rejects, or a 5xx response)
    and the next one a response that is [ok], the call returns the data of
    that response after exactly [k + 1] attempts.  If all three attempts
    meet a retryable outcome, the call throws the error of the last one,
    after exactly three attempts and the two pauses of 1000 and 2000 ms. *)
Theorem request_retries network now url options p :
  (0 < tokens (refill now p))%Z ->
  (forall k status data text,
      k < MAX_RETRIES ->
      (forall j, j < k -> retryable (network (length (fetched p) + j)) = true) ->
      network (length (fetched p) + k) = Responded status (inl data) text ->
      ok status = true ->
      exists p',
        request network now url options p = Some (Normal data, p')
        /\ fetched p' = (fetched p ++ repeat (outgoing url options p) (k + 1))%list
        /\ pauses p' = (pauses p ++ waits k)%list)
  /\ ((forall j, j < MAX_RETRIES ->
         retryable (network (length (fetched p) + j)) = true) ->
      exists p',
        request network now url options p
        = Some (Throw (failure (network (length (fetched p) + 2))), p')
        /\ length (fetched p') = length (fetched p) + 3
        /\ fetched p' = (fetched p ++ repeat (outgoing url options p) 3)%list
        /\ pauses p' = (pauses p ++ [1000; 2000]%Z)%list
        /\ tokens p' = (tokens (refill now p) - 1)%Z).
Proof.
  intros Hready. split.
  - intros k status data text Hk Hret Hn Hok.
    apply (request_answered network now url options p k status data text);
      auto using retryable_refused.
  - intros Hret.
    destruct (request_exhausted network now url options p Hready)
      as (p' & Hr & Hf & Hs & Ht); [auto using retryable_refused|].
    exists p'. repeat split; auto.
    rewrite Hf, length_app, repeat_length. reflexivity.
Qed.

Definition discussionUrl : string := API_BASE_URL ++ "/discussion/start".

(** The request of a discussion as it is sent with the token 'secret'. *)
Definition discussionFetch : Fetch :=
  {| target := discussionUrl;
     init := {| method := "POST";
                init_headers := [("Content-Type", "application/json");
                                 ("Authorization", "Bearer secret")];
                init_body := Some "{}" |} |}.

(** The theorem at a new client: three timeouts in a row give the timeout
    as the error after three attempts with pauses of 1000 and 2000 ms; two
    503 responses and then an answer give the answer after the same
    attempts and pauses. *)
Lemma request_retries_witness :
  (exists p',
      request thirdTimeLucky 0 discussionUrl (postJson "{}")
              (created 0 (Some "secret"))
      = Some (Normal answer, p')
      /\ fetched p' = [discussionFetch; discussionFetch; discussionFetch]
      /\ pauses p' = [1000; 2000]%Z)
  /\ (exists p',
        request alwaysTimeout 0 discussionUrl (postJson "{}")
                (created 0 (Some "secret"))
        = Some (Throw timeout, p')
        /\ length (fetched p') = 3
        /\ fetched p' = [discussionFetch; discussionFetch; discussionFetch]
        /\ pauses p' = [1000; 2000]%Z
        /\ tokens p' = 9%Z).
Proof.
  split.
  - apply (proj1 (request_retries thirdTimeLucky 0 discussionUrl (postJson "{}")
                    (created 0 (Some "secret")) eq_refl)
                 2 200%Z answer (inr NonError));
      [ unfold MAX_RETRIES; lia
      | intros [|[|j]] Hj; [reflexivity | reflexivity | lia]
      | reflexivity
      | reflexivity ].
  - apply (proj2 (request_retries alwaysTimeout 0 discussionUrl (postJson "{}")
                    (created 0 (Some "secret")) eq_refl)).
    intros j Hj. reflexivity.
Defined.


(** *** Every failure is retried *)

(** X24.  The loop does not tell a 4xx response from a 5xx response or
    from a transport error: the [throw] for a response that is not [ok]
    stands inside the [try] block, so the [catch] block pauses and goes on
    to the next attempt after it as well.  Three refused attempts of any
    kind make three calls of [fetch] with pauses of 1000 and 2000 ms, and
    the error of the third is thrown. *)
Theorem every_failure_retried network now url options p :
  (0 < tokens (refill now p))%Z ->
  (forall j, j < 3 -> refused (network (length (fetched p) + j)) = true) ->
  exists p',
    request network now url options p
    = Some (Throw (failure (network (length (fetched p) + 2))), p')
    /\ fetched p' = (fetched p ++ repeat (outgoing url options p) 3)%list
    /\ pauses p' = (pauses p ++ [1000; 2000]%Z)%list.
Proof.
  intros Hready Href.
  destruct (request_exhausted network now url options p Hready Href)
    as (p' & Hr & Hf & Hs & _).
  exists p'. auto.
Qed.

(** The theorem at a new client and a backend that answers 404 every
    time. *)
Lemma every_failure_retried_witness :
  exists p',
    request alwaysNotFound 0 discussionUrl (postJson "{}") (created 0 (Some "secret"))
    = Some (Throw (ErrorObj "Not Found"), p')
    /\ fetched p' = [discussionFetch; discussionFetch; discussionFetch]
    /\ pauses p' = [1000; 2000]%Z.
Proof.
  apply (every_failure_retried alwaysNotFound 0 discussionUrl (postJson "{}")
           (created 0 (Some "secret")) eq_refl).
  intros j Hj. reflexivity.
Defined.

(** *** What the callers of [request] see *)

(** X25.  When the three attempts of a call meet retryable outcomes,
    [startDiscussion] and [startDebate] throw the error of the last
    attempt as it is, and [sendChatMessage] throws a new error whose
    message is '发送聊天消息失败: ' followed by the message of that error;
    each after three calls of [fetch] to its own endpoint. *)
Theorem callers_see_last_error network now payload p :
  (0 < tokens (refill now p))%Z ->
  (forall j, j < 3 -> retryable (network (length (fetched p) + j)) = true) ->
  (exists p',
      sendChatMessage network now payload p
      = Some (Throw (ErrorObj ("发送聊天消息失败: "
                               ++ messageOr "发送聊天消息失败"
                                    (failure (network (length (fetched p) + 2))))),
              p')
      /\ map target (fetched p')
         = (map target (fetched p)
            ++ repeat "http://localhost:8000/api/chat/send" 3)%list)
  /\ (exists p',
        startDiscussion network now payload p
        = Some (Throw (failure (network (length (fetched p) + 2))), p')
        /\ map target (fetched p')
           = (map target (fetched p)
              ++ repeat "http://localhost:8000/api/discussion/start" 3)%list)
  /\ (exists p',
        startDebate network now payload p
        = Some (Throw (failure (network (length (fetched p) + 2))), p')
        /\ map target (fetched p')
           = (map target (fetched p)
              ++ repeat "http://localhost:8000/api/debate/start" 3)%list).
Proof.
  intros Hready Hret.
  assert (Href : forall j, j < MAX_RETRIES ->
            refused (network (length (fetched p) + j)) = true)
    by (intros j Hj; apply retryable_refused, Hret, Hj).
  unfold sendChatMessage, startDiscussion, startDebate, guarded.
  split; [|split].
  - destruct (request_exhausted network now (API_BASE_URL ++ "/chat/send")
                (postJson payload) p Hready Href) as (p' & Hr & Hf & _).
    exists p'. rewrite Hr, Hf, map_app. split; reflexivity.
  - destruct (request_exhausted network now (API_BASE_URL ++ "/discussion/start")
                (postJson payload) p Hready Href) as (p' & Hr & Hf & _).
    exists p'. rewrite Hr, Hf, map_app. split; reflexivity.
  - destruct (request_exhausted network now (API_BASE_URL ++ "/debate/start")
                (postJson payload) p Hready Href) as (p' & Hr & Hf & _).
    exists p'. rewrite Hr, Hf, map_app. split; reflexivity.
Qed.

(** The theorem at a new client and a network on which every request
    times out. *)
Lemma callers_see_last_error_witness :
  (exists p',
      sendChatMessage alwaysTimeout 0 "{}" (created 0 None)
      = Some (Throw (ErrorObj "发送聊天消息失败: The operation timed out."), p')
      /\ map target (fetched p') = repeat "http://localhost:8000/api/chat/send" 3)
  /\ (exists p',
        startDiscussion alwaysTimeout 0 "{}" (created 0 None)
        = Some (Throw timeout, p')
        /\ map target (fetched p')
           = repeat "http://localhost:8000/api/discussion/start" 3)
  /\ (exists p',
        startDebate alwaysTimeout 0 "{}" (created 0 None)
        = Some (Throw timeout, p')
        /\ map target (fetched p')
           = repeat "http://localhost:8000/api/debate/start" 3).
Proof.
  apply (callers_see_last_error alwaysTimeout 0 "{}" (created 0 None) eq_refl).
  intros j Hj. reflexivity.
Defined.

(** *** The token bucket *)

(** Computations that leave the bucket alone. *)
Definition keeps {A} (m : M Page A) : Prop :=
  forall p, tokens (snd (m p)) = tokens p
            /\ lastTokenRefill (snd (m p)) = lastTokenRefill p.

Lemma keeps_ret {A} (a : A) : keeps (ret a).
Proof. intros p. split; reflexivity. Qed.

Lemma keeps_throw {A} e : keeps (@throw Page A e).
Proof. intros p. split; reflexivity. Qed.

Lemma keeps_lift {A} (r : Signal A) : keeps (lift r).
Proof. intros p. split; reflexivity. Qed.

Lemma keeps_await {A} (r : A + Thrown) : keeps (await r).
Proof. destruct r; intros p; split; reflexivity. Qed.

Lemma keeps_sleep ms : keeps (sleep ms).
Proof. intros p. split; reflexivity. Qed.

Lemma keeps_removeToken : keeps removeToken.
Proof. intros p. split; reflexivity. Qed.

Lemma keeps_reload : keeps reload.
Proof. intros p. split; reflexivity. Qed.

Lemma keeps_fetch network url i : keeps (fetch network url i).
Proof. intros p. split; reflexivity. Qed.

Lemma keeps_bind {A B} (m : M Page A) (k : A -> M Page B) :
  keeps m -> (forall a, keeps (k a)) -> keeps (bind m k).
Proof.
  intros Hm Hk p. unfold bind. specialize (Hm p).
  destruct (m p) as [[a| | |e] p1]; cbn [snd] in *; try exact Hm.
  destruct (Hk a p1) as [H1 H2]. destruct Hm as [H3 H4]. split; congruence.
Qed.

Lemma keeps_tryCatch {A} (m : M Page A) (h : Thrown -> M Page A) :
  keeps m -> (forall e, keeps (h e)) -> keeps (tryCatch m h).
Proof.
  intros Hm Hh p. unfold tryCatch. specialize (Hm p).
  destruct (m p) as [[a| | |e] p1]; cbn [snd] in *; try exact Hm.
  destruct (Hh e p1) as [H1 H2]. destruct Hm as [H3 H4]. split; congruence.
Qed.

Create HintDb bucket.

#[local] Hint Resolve keeps_ret keeps_throw keeps_lift keeps_await keeps_sleep
  keeps_removeToken keeps_reload keeps_fetch : bucket.

Ltac keeps_steps :=
  repeat first [ apply keeps_bind; [| intros ? ]
               | apply keeps_tryCatch; [| intros ? ]
               | solve [ auto with bucket ]
               | match goal with
                 | |- keeps (if ?b then _ else _) => destruct b
                 | |- keeps (match ?o with Rejected _ => _ | Responded _ _ _ => _ end) =>
                     destruct o
                 end ].

Lemma keeps_retry network url i : forall n attempt, keeps (retry network url i n attempt).
Proof.
  induction n as [|n IH]; intros attempt; cbn [retry]; [apply keeps_throw|].
  apply keeps_bind.
  - unfold attemptOnce, errorMessageOf, onFailure, backoff. keeps_steps.
  - intros [data|]; [apply keeps_ret | apply IH].
Qed.

(** X26.  A call of [request] waits, without a call of [fetch], exactly
    when the bucket is empty after the refill; a call that does not wait
    takes one token, whatever the network does and however the call
    ends.  The refill adds nothing before a full second has passed since
    the last one, and it never fills the bucket beyond its size of 10. *)
Theorem one_token_per_call network now url options p :
  (request network now url options p = None <-> (tokens (refill now p) <= 0)%Z)
  /\ (forall r p',
        request network now url options p = Some (r, p') ->
        tokens p' = (tokens (refill now p) - 1)%Z)
  /\ ((0 <= now - lastTokenRefill p < 1000)%Z -> refill now p = p)
  /\ ((tokens p <= 10)%Z -> (tokens (refill now p) <= 10)%Z).
Proof.
  split; [|split; [|split]].
  - unfold request. destruct (tokens (refill now p) <=? 0)%Z eqn:E.
    + apply Z.leb_le in E. split; auto.
    + apply Z.leb_gt in E. split; [discriminate | lia].
  - intros r p'. unfold request. cbv zeta.
    destruct (tokens (refill now p) <=? 0)%Z; [discriminate|].
    match goal with
    | |- Some (retry ?n ?u ?i ?k ?a ?q) = _ -> _ =>
        pose proof (keeps_retry n u i k a q) as [Ht _];
        destruct (retry n u i k a q) as [r1 p1]
    end.
    intros H. injection H as _ ->. cbn [snd] in Ht. rewrite Ht. reflexivity.
  - intros Hnow. unfold refill.
    replace ((now - lastTokenRefill p) / 1000)%Z with 0%Z
      by (symmetry; apply Z.div_small; lia).
    reflexivity.
  - intros Hp. unfold refill.
    destruct (0 <? (now - lastTokenRefill p) / 1000 * RATE_LIMIT)%Z; [|exact Hp].
    cbn [tokens]. unfold TOKEN_BUCKET_SIZE. lia.
Qed.

(** The theorem at a client that was made at time 0 and is called at time
    500: nothing is added, and the call, which times out three times,
    leaves nine tokens. *)
Lemma one_token_per_call_witness :
  refill 500 (created 0 None) = created 0 None
  /\ (tokens (refill 500 (created 0 None)) <= 10)%Z
  /\ (forall r p',
        request alwaysTimeout 500 discussionUrl (postJson "{}") (created 0 None)
        = Some (r, p') ->
        tokens p' = (tokens (refill 500 (created 0 None)) - 1)%Z).
Proof.
  destruct (one_token_per_call alwaysTimeout 500 discussionUrl (postJson "{}")
              (created 0 None)) as (_ & Htake & Hsame & Hcap).
  split; [apply Hsame; unfold created; cbn [lastTokenRefill]; lia|].
  split; [|exact Htake].
  apply Hcap. unfold created, TOKEN_BUCKET_SIZE. cbn [tokens]. lia.
Defined.

End ApiServiceFacts.

Local Open Scope list_scope.

(** ** Reasoning about runs: weakest preconditions *)

Definition wp {S A} (m : M S A) (Q : Signal A -> S -> Prop) (s : S) : Prop :=
  Q (fst (m s)) (snd (m s)).

(** The postcondition of [m] in [bind m k], given the one of the whole. *)
Definition after {S A B} (k : A -> M S B) (Q : Signal B -> S -> Prop)
  : Signal A -> S -> Prop :=
  fun r s =>
    match r with
    | Normal a => wp (k a) Q s
    | Break => Q Break s
    | Return => Q Return s
    | Throw e => Q (Throw e) s
    end.

Lemma wp_bind {S A B} (m : M S A) (k : A -> M S B) Q s :
  wp m (after k Q) s -> wp (bind m k) Q s.
Proof.
  unfold wp, after, bind. destruct (m s) as [[a| | |e] s']; simpl; auto.
Qed.

Lemma wp_ret {S A} (a : A) (Q : Signal A -> S -> Prop) s :
  Q (Normal a) s -> wp (ret a) Q s.
Proof. exact (fun H => H). Qed.

Lemma wp_get {S} (Q : Signal S -> S -> Prop) s : Q (Normal s) s -> wp get Q s.
Proof. exact (fun H => H). Qed.

Lemma wp_modify {S} (f : S -> S) (Q : Signal unit -> S -> Prop) s :
  Q (Normal tt) (f s) -> wp (modify f) Q s.
Proof. exact (fun H => H). Qed.

Lemma wp_brk {S A} (Q : Signal A -> S -> Prop) s : Q Break s -> wp brk Q s.
Proof. exact (fun H => H). Qed.

Lemma wp_return {S A} (Q : Signal A -> S -> Prop) s : Q Return s -> wp return_ Q s.
Proof. exact (fun H => H). Qed.

Lemma wp_throw {S A} e (Q : Signal A -> S -> Prop) s : Q (Throw e) s -> wp (throw e) Q s.
Proof. exact (fun H => H). Qed.

Lemma wp_mono {S A} (m : M S A) (Q Q' : Signal A -> S -> Prop) s :
  wp m Q s -> (forall r s', Q r s' -> Q' r s') -> wp m Q' s.
Proof. unfold wp. auto. Qed.

Lemma wp_endLoop {S} (m : M S unit) (Q : Signal unit -> S -> Prop) s :
  wp m (fun r s' => match r with Break => Q (Normal tt) s' | _ => Q r s' end) s ->
  wp (endLoop m) Q s.
Proof. unfold wp, endLoop. destruct (m s) as [[a| | |e] s']; simpl; auto. Qed.

Lemma wp_endCall {S} (m : M S unit) (Q : Signal unit -> S -> Prop) s :
  wp m (fun r s' => match r with Return => Q (Normal tt) s' | _ => Q r s' end) s ->
  wp (endCall m) Q s.
Proof. unfold wp, endCall. destruct (m s) as [[a| | |e] s']; simpl; auto. Qed.

Lemma wp_tryCatch {S A} (m : M S A) (h : Thrown -> M S A) (Q : Signal A -> S -> Prop) s :
  wp m (fun r s' => match r with Throw e => wp (h e) Q s' | _ => Q r s' end) s ->
  wp (tryCatch m h) Q s.
Proof. unfold wp, tryCatch. destruct (m s) as [[a| | |e] s']; simpl; auto. Qed.

Lemma wp_tryFinally {S A} (m : M S A) (fin : S -> S) (Q : Signal A -> S -> Prop) s :
  wp m (fun r s' => Q r (fin s')) s -> wp (tryFinally m fin) Q s.
Proof. unfold wp, tryFinally. destruct (m s) as [r s']; simpl; auto. Qed.

(** *** The primitives of a run *)

Definition logged (e : Event) (s : State) : State :=
  {| isRunning := isRunning s; history := history s;
     startTime := startTime s; limit := limit s;
     log := e :: log s; requests := requests s; readings := readings s |}.

Definition running (b : bool) (s : State) : State :=
  {| isRunning := b; history := history s;
     startTime := startTime s; limit := limit s;
     log := log s; requests := requests s; readings := readings s |}.

Definition ticked (s : State) : State :=
  {| isRunning := isRunning s; history := history s;
     startTime := startTime s; limit := limit s;
     log := log s; requests := requests s; readings := S (readings s) |}.

Definition asked (env : Env) (api model : string) (messages : list Message)
           (temp : Temperature) (s : State) : State :=
  {| isRunning := isRunning s && negb (stopDuring env (requests s));
     history := history s;
     startTime := startTime s; limit := limit s;
     log := Called api model messages temp :: log s;
     requests := S (requests s); readings := readings s |}.

Definition published (m : ChatMessageDisplay) (s : State) : State :=
  {| isRunning := isRunning s; history := history s ++ [m];
     startTime := startTime s; limit := limit s;
     log := OnMessage m :: log s; requests := requests s; readings := readings s |}.

Lemma wp_emit e (Q : Signal unit -> State -> Prop) s :
  Q (Normal tt) (logged e s) -> wp (emit e) Q s.
Proof. exact (fun H => H). Qed.

Lemma wp_onStatusUpdate t (Q : Signal unit -> State -> Prop) s :
  Q (Normal tt) (logged (OnStatusUpdate (Text t)) s) -> wp (onStatusUpdate t) Q s.
Proof. exact (fun H => H). Qed.

Lemma wp_setRunning b (Q : Signal unit -> State -> Prop) s :
  Q (Normal tt) (running b s) -> wp (setRunning b) Q s.
Proof. exact (fun H => H). Qed.

Lemma wp_now env (Q : Signal Z -> State -> Prop) s :
  Q (Normal (clock env (readings s))) (ticked s) -> wp (now env) Q s.
Proof. exact (fun H => H). Qed.

Lemma wp_getAIResponse env api model messages temp
      (Q : Signal AIResponse -> State -> Prop) s :
  Q (Normal (respond env (requests s))) (asked env api model messages temp s) ->
  wp (getAIResponse env api model messages temp) Q s.
Proof. exact (fun H => H). Qed.

Lemma wp_publish m (Q : Signal unit -> State -> Prop) s :
  Q (Normal tt) (published m s) -> wp (publish m) Q s.
Proof. exact (fun H => H). Qed.

Lemma wp_if {S A} (b : bool) (m1 m2 : M S A) Q s :
  (b = true -> wp m1 Q s) -> (b = false -> wp m2 Q s) ->
  wp (if b then m1 else m2) Q s.
Proof. destruct b; auto. Qed.

Ltac wp_enter :=
  lazymatch goal with
  | |- after ?k ?Q (Normal ?a) ?s => change (wp (k a) Q s); cbv beta
  | |- after ?k ?Q Break ?s => change (Q Break s); cbv beta
  | |- after ?k ?Q Return ?s => change (Q Return s); cbv beta
  | |- after ?k ?Q (Throw ?e) ?s => change (Q (Throw e) s); cbv beta
  end.

(** *** Events that are neither a request, a turn, an error nor the end *)

Definition isSilent (e : Event) : bool :=
  match e with
  | OnStatusUpdate _ | TimeCheck _ => true
  | _ => false
  end.

Definition silent (evs : list Event) : Prop := forallb isSilent evs = true.

(** [s] after the events [evs] (newest first) and [k] readings of the clock. *)
Definition noted (evs : list Event) (k : nat) (s : State) : State :=
  {| isRunning := isRunning s; history := history s;
     startTime := startTime s; limit := limit s;
     log := evs ++ log s; requests := requests s; readings := k + readings s |}.

Lemma emitted_silent evs l : silent evs -> emitted (evs ++ l) = emitted l.
Proof.
  unfold silent. induction evs as [|e evs IH]; simpl; intros H; [reflexivity|].
  apply andb_true_iff in H. destruct H as [He H]. destruct e; try discriminate; auto.
Qed.

Lemma transmitted_silent evs l : silent evs -> transmitted (evs ++ l) = transmitted l.
Proof.
  unfold silent. induction evs as [|e evs IH]; simpl; intros H; [reflexivity|].
  apply andb_true_iff in H. destruct H as [He H]. destruct e; try discriminate; auto.
Qed.

Lemma errors_silent evs l : silent evs -> errors (evs ++ l) = errors l.
Proof.
  unfold silent. induction evs as [|e evs IH]; simpl; intros H; [reflexivity|].
  apply andb_true_iff in H. destruct H as [He H]. destruct e; try discriminate; auto.
Qed.

Lemma completions_silent evs l : silent evs -> completions (evs ++ l) = completions l.
Proof.
  unfold silent. induction evs as [|e evs IH]; simpl; intros H; [reflexivity|].
  apply andb_true_iff in H. destruct H as [He H]. destruct e; try discriminate; auto.
Qed.

Lemma noted_nil s : noted [] 0 s = s.
Proof. destruct s; reflexivity. Qed.

(** *** A monitor for the time limit

    [Due]: a request was made or a turn emitted since the last comparison
    (or nothing has happened yet); [Passed]: the latest of these events is
    a comparison that found time left; [Over]: a comparison found the limit
    reached; [Bad]: the discipline was broken.  A request needs [Passed];
    with [checkReplies] a turn needs [Passed] too; after [Over] only status
    lines may follow. *)
Inductive Watch : Type := Bad | Due | Passed | Over.

Definition watch (lim : Z) (checkReplies : bool) (w : Watch) (e : Event) : Watch :=
  match w with
  | Bad => Bad
  | Over => match e with OnStatusUpdate _ => Over | _ => Bad end
  | Due =>
      match e with
      | TimeCheck elapsed => if (1000 * lim <=? elapsed)%Z then Over else Passed
      | Called _ _ _ _ => Bad
      | OnMessage _ => if checkReplies then Bad else Due
      | _ => Due
      end
  | Passed =>
      match e with
      | TimeCheck elapsed => if (1000 * lim <=? elapsed)%Z then Over else Passed
      | Called _ _ _ _ => Due
      | OnMessage _ => Due
      | _ => Passed
      end
  end.

(** The state of the monitor after a log (newest event first). *)
Fixpoint verdict (lim : Z) (checkReplies : bool) (init : Watch) (l : list Event)
  : Watch :=
  match l with
  | [] => init
  | e :: older => watch lim checkReplies (verdict lim checkReplies init older) e
  end.

Definition isStatus (e : Event) : bool :=
  match e with OnStatusUpdate _ => true | _ => false end.

Definition statusOnly (evs : list Event) : Prop := forallb isStatus evs = true.

(** Status lines do not move the monitor. *)
Lemma verdict_statuses lim cr init evs l :
  statusOnly evs -> verdict lim cr init (evs ++ l) = verdict lim cr init l.
Proof.
  unfold statusOnly. induction evs as [|e evs IH]; intros H; [reflexivity|].
  cbn [forallb] in H. apply andb_true_iff in H. destruct H as [He H].
  cbn [app verdict]. rewrite (IH H).
  destruct e; try discriminate. now destruct (verdict lim cr init l).
Qed.

Ltac judge :=
  repeat (progress
            (cbn [verdict watch app] in *;
             rewrite ?verdict_statuses by assumption;
             repeat match goal with
                    | H : (_ <=? _)%Z = _ |- _ => rewrite H
                    | H : verdict _ _ _ _ = _ |- _ => rewrite H
                    end)).

(** Any computation satisfies the postcondition that names its outcome. *)
Lemma wp_run {S A} (m : M S A) s : wp m (fun r s' => m s = (r, s')) s.
Proof. unfold wp. now destruct (m s). Qed.

Lemma wp_and {S A} (m : M S A) (Q1 Q2 : Signal A -> S -> Prop) s :
  wp m Q1 s -> wp m Q2 s -> wp m (fun r s' => Q1 r s' /\ Q2 r s') s.
Proof. unfold wp. auto. Qed.

(** Events that are neither a request nor a turn. *)
Definition isAside (e : Event) : bool :=
  match e with
  | Called _ _ _ _ | OnMessage _ => false
  | _ => true
  end.

Definition aside (evs : list Event) : Prop := forallb isAside evs = true.

Lemma emitted_aside evs l : aside evs -> emitted (evs ++ l) = emitted l.
Proof.
  unfold aside. induction evs as [|e evs IH]; simpl; intros H; [reflexivity|].
  apply andb_true_iff in H. destruct H as [He H]. destruct e; try discriminate; auto.
Qed.

Lemma transmitted_aside evs l : aside evs -> transmitted (evs ++ l) = transmitted l.
Proof.
  unfold aside. induction evs as [|e evs IH]; simpl; intros H; [reflexivity|].
  apply andb_true_iff in H. destruct H as [He H]. destruct e; try discriminate; auto.
Qed.

Lemma emitted_quiet evs : silent evs -> emitted evs = [].
Proof. intros H. rewrite <- (app_nil_r evs). now rewrite emitted_silent. Qed.

Lemma transmitted_quiet evs : silent evs -> transmitted evs = [].
Proof. intros H. rewrite <- (app_nil_r evs). now rewrite transmitted_silent. Qed.

(** *** A monitor for the order of requests and turns

    [Answered n]: [n] requests were made and each was followed by its turn;
    [Awaiting n]: one more request was made and its turn has not come;
    [OutOfStep]: a request was made while another was unanswered, or a turn
    was emitted that no request was waiting for. *)
Inductive Pace : Type := Answered (n : nat) | Awaiting (n : nat) | OutOfStep.

Definition pace1 (p : Pace) (e : Event) : Pace :=
  match e with
  | Called _ _ _ _ => match p with Answered n => Awaiting n | _ => OutOfStep end
  | OnMessage _ => match p with Awaiting n => Answered (S n) | _ => OutOfStep end
  | _ => p
  end.

(** The state of the monitor after a log (newest event first). *)
Fixpoint pace (l : list Event) : Pace :=
  match l with
  | [] => Answered 0
  | e :: older => pace1 (pace older) e
  end.

Lemma pace_silent evs l : silent evs -> pace (evs ++ l) = pace l.
Proof.
  unfold silent. induction evs as [|e evs IH]; intros H; [reflexivity|].
  cbn [forallb] in H. apply andb_true_iff in H. destruct H as [He H].
  cbn [app pace]. rewrite (IH H). now destruct e.
Qed.

Lemma pace_aside evs l : aside evs -> pace (evs ++ l) = pace l.
Proof.
  unfold aside. induction evs as [|e evs IH]; intros H; [reflexivity|].
  cbn [forallb] in H. apply andb_true_iff in H. destruct H as [He H].
  cbn [app pace]. rewrite (IH H). now destruct e.
Qed.

Lemma pace_quiet evs : silent evs -> pace evs = Answered 0.
Proof. intros H. rewrite <- (app_nil_r evs). now rewrite pace_silent. Qed.

Lemma pace_counts l :
  match pace l with
  | Answered n => length (emitted l) = n /\ length (transmitted l) = n
  | Awaiting n => length (emitted l) = n /\ length (transmitted l) = S n
  | OutOfStep => True
  end.
Proof.
  induction l as [|e l IH]; [now split|].
  cbn [pace emitted transmitted].
  destruct e; cbn [pace1]; try exact IH;
    destruct (pace l) as [n|n|]; try exact I; destruct IH as [IH1 IH2];
    rewrite ?length_app; cbn [length]; split; lia.
Qed.

Lemma pace_lost evs : forall l, pace l = OutOfStep -> pace (evs ++ l) = OutOfStep.
Proof.
  induction evs as [|e evs IH]; intros l H; [exact H|].
  cbn [app pace]. rewrite (IH l H). now destruct e.
Qed.

(** In a log that is in step, a request is made only when every earlier
    request has been followed by its turn. *)
Lemma pace_at_request newer api model messages temp older :
  pace (newer ++ Called api model messages temp :: older) <> OutOfStep ->
  length (emitted older) = length (transmitted older).
Proof.
  intros H. pose proof (pace_counts older) as Hc.
  destruct (pace older) as [n|n|] eqn:E.
  - destruct Hc. congruence.
  - destruct H. apply pace_lost. cbn [pace]. now rewrite E.
  - destruct H. apply pace_lost. cbn [pace]. now rewrite E.
Qed.

Ltac in_step :=
  repeat (progress
            (cbn [pace pace1 app] in *;
             rewrite ?pace_silent by first [assumption | reflexivity];
             repeat match goal with
                    | H : pace _ = _ |- _ => rewrite H
                    end)).

(** *** Status lines that carry a text only *)

Definition isNote (e : Event) : bool :=
  match e with OnStatusUpdate (Text _) => true | _ => false end.

Definition notes (evs : list Event) : Prop := forallb isNote evs = true.

Lemma notes_silent evs : notes evs -> silent evs.
Proof.
  unfold notes, silent. induction evs as [|e evs IH]; [reflexivity|].
  cbn [forallb]. intros H. apply andb_true_iff in H. destruct H as [He H].
  rewrite (IH H), andb_true_r. destruct e; try discriminate He. reflexivity.
Qed.

(** *** A monitor for the numbers a run reports

    The clock is read once when the run starts (reading 0) and then once
    for every comparison with the limit, for every turn and for the total
    at the end.  The monitor counts these readings and wants every
    reported number to be the one the clock gives: the elapsed time of a
    comparison and the total the difference between the reading and
    reading 0, the time stamp of a turn the reading itself, and the two
    status lines of a comparison the elapsed time of that comparison and
    the limit of the run.  Its state is the number of the next reading,
    or [None] once a number was wrong. *)
Definition tick (env : Env) (lim : Z) (next : option nat) (e : Event) : option nat :=
  match next with
  | None => None
  | Some k =>
      match e with
      | TimeCheck elapsed =>
          if (elapsed =? clock env k - clock env 0)%Z then Some (S k) else None
      | OnMessage m =>
          if (timestamp m =? clock env k)%Z then Some (S k) else None
      | OnStatusUpdate (TotalTime elapsed) =>
          if (elapsed =? clock env k - clock env 0)%Z then Some (S k) else None
      | OnStatusUpdate (CurrentTime elapsed l)
      | OnStatusUpdate (TimeLimitReached elapsed l) =>
          if ((elapsed =? clock env (Nat.pred k) - clock env 0) && (l =? lim))%Z
          then Some k else None
      | _ => Some k
      end
  end.

(** The state of the monitor after a log (newest event first). *)
Fixpoint onTime (env : Env) (lim : Z) (l : list Event) : option nat :=
  match l with
  | [] => Some 1
  | e :: older => tick env lim (onTime env lim older) e
  end.

Lemma onTime_notes env lim evs l :
  notes evs -> onTime env lim (evs ++ l) = onTime env lim l.
Proof.
  unfold notes. induction evs as [|e evs IH]; intros H; [reflexivity|].
  cbn [forallb] in H. apply andb_true_iff in H. destruct H as [He H].
  cbn [app onTime]. rewrite (IH H).
  destruct e as [| | |[t| | |]| |]; try discriminate He.
  now destruct (onTime env lim l).
Qed.

Lemma onTime_quiet env lim evs : notes evs -> onTime env lim evs = Some 1.
Proof. intros H. rewrite <- (app_nil_r evs). now rewrite onTime_notes. Qed.

Ltac clockwork :=
  repeat (progress
            (cbn [onTime tick app timestamp Nat.pred Nat.add] in *;
             rewrite ?onTime_notes by assumption;
             repeat match goal with
                    | H : onTime _ _ _ = _ |- _ => rewrite H
                    end;
             rewrite ?Z.eqb_refl; cbn [andb])).

(** *** The requests of a run with the API and the model they go to *)

Fixpoint calls (l : list Event) : list (string * string * list Message) :=
  match l with
  | [] => []
  | Called api model messages _ :: older => calls older ++ [(api, model, messages)]
  | _ :: older => calls older
  end.

Lemma calls_silent evs l : silent evs -> calls (evs ++ l) = calls l.
Proof.
  unfold silent. induction evs as [|e evs IH]; simpl; intros H; [reflexivity|].
  apply andb_true_iff in H. destruct H as [He H]. destruct e; try discriminate; auto.
Qed.

Lemma calls_aside evs l : aside evs -> calls (evs ++ l) = calls l.
Proof.
  unfold aside. induction evs as [|e evs IH]; simpl; intros H; [reflexivity|].
  apply andb_true_iff in H. destruct H as [He H]. destruct e; try discriminate; auto.
Qed.

Lemma calls_transmitted l :
  transmitted l = map (fun c => (fst (fst c), snd c)) (calls l).
Proof.
  induction l as [|e l IH]; [reflexivity|].
  destruct e; cbn [transmitted calls]; try exact IH.
  rewrite map_app, IH. reflexivity.
Qed.
Module ChatFacts.
Import ChatService.

Section Steps.

Variable env : Env.

(** What a passing and a failing comparison with the time limit add to the
    log (newest first) and how many clock readings they take. *)
Definition shown (show : bool) (elapsed lim : Z) : list Event :=
  if show then [OnStatusUpdate (CurrentTime elapsed lim)] else [].

Inductive passes (show : bool) (s : State) : list Event -> nat -> Prop :=
| passes_off : started s = None \/ limit s = 0%Z -> passes show s [] 0
| passes_on t0 :
    started s = Some t0 -> limit s <> 0%Z ->
    (clock env (readings s) - t0 < 1000 * limit s)%Z ->
    passes show s
           (shown show (clock env (readings s) - t0) (limit s)
            ++ [TimeCheck (clock env (readings s) - t0)]) 1.

Inductive breaches (show : bool) (s : State) : list Event -> nat -> Prop :=
| breaches_on t0 :
    started s = Some t0 -> limit s <> 0%Z ->
    (1000 * limit s <= clock env (readings s) - t0)%Z ->
    breaches show s
             (OnStatusUpdate (TimeLimitReached (clock env (readings s) - t0) (limit s))
              :: shown show (clock env (readings s) - t0) (limit s)
              ++ [TimeCheck (clock env (readings s) - t0)]) 1.

Lemma chat_passes_silent show s evs k : passes show s evs k -> silent evs.
Proof. intros [H|t0 H1 H2 H3]; [reflexivity|]. destruct show; reflexivity. Qed.

Lemma chat_breaches_silent show s evs k : breaches show s evs k -> silent evs.
Proof. intros [t0 H1 H2 H3]. destruct show; reflexivity. Qed.

Ltac run_monad :=
  cbv beta iota zeta
      delta [wp after bind ret get modify brk return_ throw emit onStatusUpdate
             setRunning setHistory setStartTime setLimit now publish
             getAIResponse fst snd].

Lemma wp_chat_checkTimeLimit show (Q : Signal bool -> State -> Prop) s :
  (forall evs k, passes show s evs k -> Q (Normal true) (noted evs k s)) ->
  (forall evs k, breaches show s evs k ->
                 Q (Normal false) (running false (noted evs k s))) ->
  wp (checkTimeLimit env show) Q s.
Proof.
  intros Hp Hb. unfold checkTimeLimit. run_monad.
  destruct (started s) as [t0|] eqn:Hs.
  2:{ rewrite <- (noted_nil s). apply Hp. constructor. now left. }
  destruct (limit s =? 0)%Z eqn:Hl.
  { rewrite <- (noted_nil s). apply Hp. constructor. right. now apply Z.eqb_eq. }
  apply Z.eqb_neq in Hl.
  destruct (1000 * limit s <=? clock env (readings s) - t0)%Z eqn:Hc.
  - apply Z.leb_le in Hc. specialize (Hb _ _ (breaches_on show s t0 Hs Hl Hc)).
    destruct show; run_monad; rewrite ?Hc; exact Hb.
  - apply Z.leb_gt in Hc. specialize (Hp _ _ (passes_on show s t0 Hs Hl Hc)).
    destruct show; run_monad; rewrite ?Hc; exact Hp.
Qed.

Definition stoppedNote : list Event := [OnStatusUpdate (Text "对话已停止")].

Lemma wp_breakIfStopped (Q : Signal unit -> State -> Prop) s :
  (isRunning s = true -> Q (Normal tt) s) ->
  (isRunning s = false -> Q Break (noted stoppedNote 0 s)) ->
  wp breakIfStopped Q s.
Proof.
  intros Hgo Hstop. unfold breakIfStopped. run_monad.
  destruct (isRunning s); [now apply Hgo | now apply Hstop].
Qed.

Lemma wp_chat_returnIfOverTime show (Q : Signal unit -> State -> Prop) s :
  (forall evs k, passes show s evs k -> Q (Normal tt) (noted evs k s)) ->
  (forall evs k, breaches show s evs k -> Q Return (running false (noted evs k s))) ->
  wp (returnIfOverTime env show) Q s.
Proof.
  intros Hp Hb. unfold returnIfOverTime. apply wp_bind, wp_chat_checkTimeLimit.
  - intros evs k H. apply Hp, H.
  - intros evs k H. apply Hb, H.
Qed.

Lemma recorded_cases r :
  recorded r = if Js.truthy (trimmedReply r) then trimmedReply r else fallback.
Proof. reflexivity. Qed.

Lemma wp_orFallback who r (Q : Signal string -> State -> Prop) s :
  (forall evs, silent evs -> Q (Normal (recorded r)) (noted evs 0 s)) ->
  wp (orFallback who r) Q s.
Proof.
  intros H. unfold orFallback. rewrite recorded_cases in H. run_monad.
  destruct (Js.truthy (trimmedReply r)).
  - rewrite <- (noted_nil s). now apply H.
  - exact (H [OnStatusUpdate (Text ("警告: AI " ++ who ++ " 的回复为空")%string)] eq_refl).
Qed.

Definition shownTurn (who model text : string) (t : Z) : ChatMessageDisplay :=
  {| sender := (who ++ " (" ++ model ++ ")")%string; d_content := text;
     timestamp := t |}.

Lemma wp_display who model text (Q : Signal ChatMessageDisplay -> State -> Prop) s :
  Q (Normal (shownTurn who model text (clock env (readings s)))) (noted [] 1 s) ->
  wp (display env who model text) Q s.
Proof. intros H. exact H. Qed.

Ltac step :=
  first
    [ wp_enter
    | lazymatch goal with
      | |- wp (bind _ _) _ _ => apply wp_bind
      | |- wp breakIfStopped _ _ => apply wp_breakIfStopped; intros ?
      | |- wp (returnIfOverTime _ _) _ _ => apply wp_chat_returnIfOverTime; intros ? ? ?
      | |- wp (orFallback _ _) _ _ => apply wp_orFallback; intros ? ?
      | |- wp (display _ _ _ _) _ _ => apply wp_display
      | |- wp (onStatusUpdate _) _ _ => apply wp_onStatusUpdate
      | |- wp (getAIResponse _ _ _ _ _) _ _ => apply wp_getAIResponse
      | |- wp (publish _) _ _ => apply wp_publish
      | |- wp (ret _) _ _ => apply wp_ret
      end ].

Definition turn1 (config : ChatConfig) (s : State) (t : Z) : ChatMessageDisplay :=
  shownTurn "ai1" (model1 config) (recorded (respond env (requests s))) t.

Definition turn2 (config : ChatConfig) (s : State) (t : Z) : ChatMessageDisplay :=
  shownTurn "ai2" (model2 config) (recorded (respond env (S (requests s)))) t.

Definition said (r : Role) (c : string) : Message := {| role := r; content := c |}.

(** What one pass of the loop does, read off the code. *)
Definition roundPost (config : ChatConfig) (p : string) (r : Z)
           (a h : list Message) (s : State)
           (sig : Signal (list Message * list Message)) (s' : State) : Prop :=
  errors (log s') = errors (log s)
  /\ completions (log s') = completions (log s)
  /\ limit s' = limit s /\ startTime s' = startTime s
  /\ exists new,
      history s' = history s ++ new
      /\ emitted (log s') = emitted (log s) ++ new
      /\ match sig with
         | Normal (a', h') =>
             exists t1 t2,
               new = [turn1 config s t1; turn2 config s t2]
               /\ requests s' = S (S (requests s))
               /\ isRunning s' = true
               /\ a' = a ++ [said assistant (recorded (respond env (requests s)));
                             said user (recorded (respond env (S (requests s))))]
               /\ h' = h ++ [said user (recorded (respond env (requests s)));
                             said assistant (recorded (respond env (S (requests s))))]
         | Break =>
             (new = [] \/ exists t1, new = [turn1 config s t1])
             /\ (isRunning s = false
                 \/ stopDuring env (requests s) = true
                 \/ stopDuring env (S (requests s)) = true)
         | Return =>
             (new = [] \/ exists t1, new = [turn1 config s t1])
             /\ limit s <> 0%Z
         | Throw _ => False
         end.

Lemma chat_breaches_why show s evs k :
  breaches show s evs k -> limit s <> 0%Z /\ started s <> None /\ silent evs.
Proof.
  intros H. pose proof (chat_breaches_silent show s evs k H) as Hs.
  destruct H as [t0 H1 H2 H3]. rewrite H1. repeat split; auto; discriminate.
Qed.

Lemma silent_stoppedNote : silent stoppedNote.
Proof. reflexivity. Qed.

Ltac quieten :=
  repeat match goal with
         | H : passes _ _ _ _ |- _ => apply chat_passes_silent in H
         | H : breaches _ _ _ _ |- _ =>
             apply chat_breaches_why in H; destruct H as (? & ? & ?)
         end.

Ltac observe :=
  cbn [log isRunning history startTime limit requests readings
       logged running ticked asked published noted finish fresh] in *;
  repeat (progress
            (rewrite ?errors_silent, ?emitted_silent, ?transmitted_silent,
               ?completions_silent in *
               by first [assumption | exact silent_stoppedNote];
             cbn [errors emitted transmitted completions app] in * )).

Ltac booleans :=
  repeat match goal with
         | H : context [isRunning ?s] |- _ => destruct (isRunning s)
         | H : context [stopDuring ?e ?n] |- _ => destruct (stopDuring e n)
         end;
  cbn [andb negb] in *; try discriminate; auto.

Lemma chat_round_spec config p r a h s :
  wp (round env config p r a h) (roundPost config p r a h s) s.
Proof.
  unfold round. cbv zeta. repeat step.
  all: unfold roundPost; quieten; observe.
  all: repeat match goal with |- _ /\ _ => split end; try reflexivity.
  all: rewrite <- ?app_assoc; cbn [app].
  all: try (eexists; split; [reflexivity | split; [reflexivity |]]).
  all: try (exists []; rewrite !app_nil_r; split; [reflexivity | split; [reflexivity |]]).
  all: try (do 2 eexists; repeat split; try reflexivity; booleans; fail).
  all: try (repeat split; auto; try (left; reflexivity);
            try (right; eexists; reflexivity); booleans; fail).
Qed.

(** The texts of the turns [new], emitted from request number [from] on,
    are the replies to the requests in order, with the fallback for the
    empty ones. *)
Definition contents (from : nat) (new : list ChatMessageDisplay) : Prop :=
  map d_content new
  = map (fun j => recorded (respond env j)) (seq from (length new)).

Definition loopPost (n : nat) (s : State) (sig : Signal unit) (s' : State) : Prop :=
  errors (log s') = errors (log s)
  /\ completions (log s') = completions (log s)
  /\ limit s' = limit s /\ startTime s' = startTime s
  /\ exists new,
      history s' = history s ++ new
      /\ emitted (log s') = emitted (log s) ++ new
      /\ length new <= 2 * n
      /\ contents (requests s) new
      /\ match sig with
         | Normal _ => length new = 2 * n
         | Break => isRunning s = false \/ exists j, stopDuring env j = true
         | Return => limit s <> 0%Z
         | Throw _ => False
         end.

Lemma chat_contents_nil from : contents from [].
Proof. reflexivity. Qed.

Lemma chat_contents_one config s t : contents (requests s) [turn1 config s t].
Proof. reflexivity. Qed.

Lemma chat_contents_two config s t1 t2 :
  contents (requests s) [turn1 config s t1; turn2 config s t2].
Proof. reflexivity. Qed.

Lemma chat_contents_app from new1 new2 :
  contents from new1 -> contents (length new1 + from) new2 ->
  contents from (new1 ++ new2).
Proof.
  unfold contents. intros H1 H2.
  rewrite map_app, length_app, seq_app, map_app, H1.
  f_equal. rewrite H2. now rewrite Nat.add_comm.
Qed.

Lemma chat_loop_spec config p n : forall r a h s,
  wp (loop env config p n r a h) (loopPost n s) s.
Proof.
  induction n as [|n IH]; intros r a h s.
  - apply wp_ret. unfold loopPost. repeat split; auto.
    exists []. rewrite !app_nil_r. repeat split; auto.
  - cbn [loop]. apply wp_bind.
    apply (wp_mono _ _ _ _ (chat_round_spec config p r a h s)).
    intros sig s1 (He & Hc & Hl & Ht & new & Hh & Hm & Hsig).
    destruct sig as [[a' h']| | |e]; wp_enter.
    + destruct Hsig as (t1 & t2 & -> & Hr & Hrun & -> & ->).
      cbn [fst snd].
      apply (wp_mono _ _ _ _ (IH (r + 1)%Z _ _ s1)).
      intros sig s2 (He2 & Hc2 & Hl2 & Ht2 & new2 & Hh2 & Hm2 & Hlen & Hcon & Hsig2).
      unfold loopPost. rewrite He2, Hc2, Hl2, Ht2, Hh2, Hm2, Hh, Hm, <- !app_assoc.
      repeat split; auto.
      eexists. split; [reflexivity|]. split; [reflexivity|].
      rewrite length_app. cbn [length]. split; [lia|]. split.
      * apply chat_contents_app; [apply chat_contents_two|]. now rewrite Hr in Hcon.
      * destruct sig as [u| | |e].
        -- lia.
        -- destruct Hsig2 as [Hs|Hs]; [congruence | now right].
        -- now rewrite Hl in Hsig2.
        -- exact Hsig2.
    + unfold loopPost. repeat split; auto. exists new.
      destruct Hsig as [Hnew Hwhy]. repeat split; auto.
      * destruct Hnew as [->|[t1 ->]]; cbn [length]; lia.
      * destruct Hnew as [->|[t1 ->]]; [apply chat_contents_nil | apply chat_contents_one].
      * destruct Hwhy as [Hs|[Hs|Hs]]; [now left | right; eauto | right; eauto].
    + unfold loopPost. repeat split; auto. exists new.
      destruct Hsig as (Hnew & Hl0). repeat split; auto.
      * destruct Hnew as [->|[t1 ->]]; cbn [length]; lia.
      * destruct Hnew as [->|[t1 ->]]; [apply chat_contents_nil | apply chat_contents_one].
    + contradiction.
Qed.

Ltac step_more :=
  first
    [ step
    | lazymatch goal with
      | |- wp get _ _ => apply wp_get
      | |- wp (emit _) _ _ => apply wp_emit
      | |- wp (now _) _ _ => apply wp_now
      | |- wp (throw _) _ _ => apply wp_throw
      | |- wp return_ _ _ => apply wp_return
      | |- wp (setRunning _) _ _ => apply wp_setRunning
      | |- wp (setHistory _) _ _ => unfold setHistory; apply wp_modify; cbv beta
      | |- wp (setStartTime _) _ _ => unfold setStartTime; apply wp_modify; cbv beta
      | |- wp (setLimit _) _ _ => unfold setLimit; apply wp_modify; cbv beta
      | |- wp (endCall _) _ _ => apply wp_endCall
      | |- wp (endLoop _) _ _ => apply wp_endLoop
      | |- wp (tryCatch _ _) _ _ => apply wp_tryCatch
      | |- wp (tryFinally _ _) _ _ => apply wp_tryFinally
      | |- wp (if _ then _ else _) _ _ => apply wp_if; intros ?
      end ].

(** What a call of [startChat] that gets past its two guards leaves behind. *)
Definition discussed (config : ChatConfig) (s' : State) : Prop :=
  errors (log s') = []
  /\ history s' = emitted (log s')
  /\ isRunning s' = false
  /\ startTime s' = None
  /\ length (emitted (log s')) <= 2 * Z.to_nat (rounds config)
  /\ contents 0 (emitted (log s'))
  /\ (completions (log s') = 1
      \/ completions (log s') = 0 /\ timeLimit config <> 0%Z)
  /\ (timeLimit config = 0%Z -> (forall j, stopDuring env j = false) ->
      length (emitted (log s')) = 2 * Z.to_nat (rounds config)
      /\ completions (log s') = 1).

Definition conversationPost (config : ChatConfig) (s : State)
           (sig : Signal unit) (s' : State) : Prop :=
  match sig with
  | Throw e =>
      Js.truthy (Js.trim (topic config)) = false
      /\ e = ErrorObj "请输入讨论主题" /\ s' = s
  | Break => False
  | _ =>
      Js.truthy (Js.trim (topic config)) = true
      /\ errors (log s') = errors (log s)
      /\ exists new,
          history s' = history s ++ new
          /\ emitted (log s') = emitted (log s) ++ new
          /\ length new <= 2 * Z.to_nat (rounds config)
          /\ contents (requests s) new
          /\ match sig with
             | Return => completions (log s') = completions (log s)
                         /\ limit s <> 0%Z
             | _ => completions (log s') = S (completions (log s))
             end
          /\ (isRunning s = true -> limit s = 0%Z ->
              (forall j, stopDuring env j = false) ->
              length new = 2 * Z.to_nat (rounds config)
              /\ completions (log s') = S (completions (log s)))
  end.

Lemma conversation_spec config s :
  wp (conversation env config) (conversationPost config s) s.
Proof.
  unfold conversation. cbv zeta.
  apply wp_bind, wp_if; intros Htopic; [|apply wp_throw; wp_enter; now repeat split].
  apply wp_ret. wp_enter. repeat step. apply wp_get. wp_enter.
  apply wp_bind.
  match goal with
  | |- wp _ ?Q ?s0 =>
      assert (Hnote : exists evs, silent evs /\ forall Q' : Signal unit -> State -> Prop,
                 Q' (Normal tt) (noted evs 0 s0) -> wp
                   (if (limit s0 =? 0)%Z then ret tt
                    else onStatusUpdate ("时间限制: " ++ Js.showZ (limit s0) ++ " 秒")%string)
                   Q' s0)
  end.
  { destruct (limit _ =? 0)%Z.
    - exists []. split; [reflexivity|]. intros Q' HQ. rewrite noted_nil in HQ. exact HQ.
    - match goal with
      | |- context [onStatusUpdate ?t] => exists [OnStatusUpdate (Text t)]
      end.
      split; [reflexivity|]. intros Q' HQ. exact HQ. }
  destruct Hnote as (evs & Hevs & Hnote). apply Hnote. clear Hnote. wp_enter.
  repeat step. apply wp_endLoop.
  match goal with
  | |- wp (loop _ _ ?p ?n ?r ?a ?h) _ ?s0 =>
      apply (wp_mono _ _ _ _ (chat_loop_spec config p n r a h s0))
  end.
  intros sig s1 (He & Hc & Hl & Ht & new & Hh & Hm & Hlen & Hcon & Hsig).
  observe.
  assert (Hdone : forall s2, errors (log s2) = errors (log s1) ->
            completions (log s2) = S (completions (log s1)) ->
            history s2 = history s1 -> emitted (log s2) = emitted (log s1) ->
            (match sig with Normal _ => length new = 2 * Z.to_nat (rounds config)
                       | _ => exists j, stopDuring env j = true \/ isRunning s = false end) ->
            conversationPost config s (Normal tt) s2).
  { intros s2 E1 E2 E3 E4 E5. split; [exact Htopic|]. split; [congruence|].
    exists new. split; [congruence|]. split; [congruence|].
    split; [exact Hlen|]. split; [exact Hcon|]. split; [congruence|].
    intros Hrun Hlim Hstop. split; [|congruence].
    destruct sig; auto; destruct E5 as (j & [E5|E5]); congruence. }
  assert (Htail : forall s1', s1' = s1 ->
            (match sig with Normal _ => length new = 2 * Z.to_nat (rounds config)
                       | _ => exists j, stopDuring env j = true \/ isRunning s = false end) ->
            wp (s0 <- get ;;
                match started s0 with
                | Some t0 => t <- now env ;; emit (OnStatusUpdate (TotalTime (t - t0)))
                | None => ret tt
                end ;; emit OnComplete)%js (conversationPost config s) s1').
  { intros s1' -> E5. apply wp_bind, wp_get. wp_enter. apply wp_bind.
    destruct (started s1) as [t0|].
    - apply wp_bind, wp_now. wp_enter. apply wp_emit. wp_enter. apply wp_emit.
      apply Hdone; auto.
    - apply wp_ret. wp_enter. apply wp_emit. apply Hdone; auto. }
  destruct sig as [u| | |e].
  - wp_enter. apply Htail; auto.
  - wp_enter. apply Htail; auto.
    destruct Hsig as [Hs|[j Hs]]; [exists 0; now right | exists j; now left].
  - wp_enter. split; [exact Htopic|]. split; [congruence|].
    exists new. split; [congruence|]. split; [congruence|].
    split; [exact Hlen|]. split; [exact Hcon|]. split; [split; congruence|].
    intros; congruence.
  - contradiction.
Qed.

(** The three ways a call of [startChat] can go. *)
Definition startChatPost (config : ChatConfig) (this s' : State) : Prop :=
  if isRunning this then
    log s' = [OnError "对话已经在运行中"]
    /\ isRunning s' = true /\ history s' = history this
    /\ startTime s' = startTime this
  else if Js.truthy (Js.trim (topic config)) then discussed config s'
  else
    log s' = [OnError "请输入讨论主题"]
    /\ isRunning s' = false /\ history s' = [] /\ startTime s' = None.

Lemma startChat_spec config this :
  startChatPost config this (run env config this).
Proof.
  change (wp (startChat env config) (fun _ s' => startChatPost config this s')
             (fresh this)).
  unfold startChat, startChatPost. apply wp_endCall, wp_bind, wp_get. wp_enter.
  cbn [fresh isRunning]. destruct (isRunning this) eqn:Hrun.
  { apply wp_bind, wp_emit. wp_enter. apply wp_return.
    cbn [logged fresh log isRunning history startTime]. auto. }
  repeat step_more.
  match goal with
  | |- wp _ _ ?s0 => apply (wp_mono _ _ _ _ (conversation_spec config s0))
  end.
  intros sig s1 Hpost. unfold conversationPost in Hpost.
  destruct sig as [u| | |e].
  - destruct Hpost as (Htopic & He & new & Hh & Hm & Hlen & Hcon & Hc & Hfull).
    rewrite Htopic. unfold discussed. observe.
    cbn [finish log history isRunning startTime].
    cbn [fresh log] in *. cbn [errors emitted completions app] in *.
    rewrite Hm, Hh.
    split; [exact He|]. do 5 (split; [auto|]). split; [now left|].
    intros Hlim Hstop. now apply Hfull.
  - contradiction.
  - destruct Hpost as (Htopic & He & new & Hh & Hm & Hlen & Hcon & [Hc Hl0] & Hfull).
    rewrite Htopic. unfold discussed. observe.
    cbn [finish log history isRunning startTime].
    cbn [fresh log] in *. cbn [errors emitted completions app] in *.
    rewrite Hm, Hh.
    split; [exact He|]. do 5 (split; [auto|]). split; [right; now split|].
    intros Hlim Hstop. destruct Hl0. exact Hlim.
  - destruct Hpost as (Htopic & -> & ->). rewrite Htopic.
    apply wp_emit. cbn [finish logged log history isRunning startTime messageOr].
    cbn [fresh log]. auto.
Qed.

(** *** The discipline of the time limit in a discussion *)

Lemma wp_chat_returnIfOverTime_on show (Q : Signal unit -> State -> Prop) s t0 :
  started s = Some t0 -> limit s <> 0%Z ->
  (forall e, (1000 * limit s <=? e)%Z = false ->
             Q (Normal tt) (noted (shown show e (limit s) ++ [TimeCheck e]) 1 s)) ->
  (forall e, (1000 * limit s <=? e)%Z = true ->
             Q Return
               (running false
                  (noted (OnStatusUpdate (TimeLimitReached e (limit s))
                          :: shown show e (limit s) ++ [TimeCheck e]) 1 s))) ->
  wp (returnIfOverTime env show) Q s.
Proof.
  intros Hs Hl Hp Hb. apply wp_chat_returnIfOverTime.
  - intros evs k [[H|H]|t1 H1 H2 H3]; [congruence | contradiction |].
    apply Hp. now apply Z.leb_gt.
  - intros evs k [t1 H1 H2 H3]. apply Hb. now apply Z.leb_le.
Qed.

Lemma wp_orFallback_notes who r (Q : Signal string -> State -> Prop) s :
  (forall evs, statusOnly evs -> Q (Normal (recorded r)) (noted evs 0 s)) ->
  wp (orFallback who r) Q s.
Proof.
  intros H. unfold orFallback. rewrite recorded_cases in H. run_monad.
  destruct (Js.truthy (trimmedReply r)).
  - rewrite <- (noted_nil s). now apply H.
  - exact (H [OnStatusUpdate (Text ("警告: AI " ++ who ++ " 的回复为空")%string)] eq_refl).
Qed.

Ltac step_on Hs Hl :=
  first
    [ wp_enter
    | lazymatch goal with
      | |- wp (bind _ _) _ _ => apply wp_bind
      | |- wp breakIfStopped _ _ => apply wp_breakIfStopped; intros ?
      | |- wp (returnIfOverTime _ _) _ _ =>
          eapply wp_chat_returnIfOverTime_on; [exact Hs | exact Hl | intros ? ? | intros ? ?]
      | |- wp (orFallback _ _) _ _ => apply wp_orFallback_notes; intros ? ?
      | |- wp (display _ _ _ _) _ _ => apply wp_display
      | |- wp (onStatusUpdate _) _ _ => apply wp_onStatusUpdate
      | |- wp (getAIResponse _ _ _ _ _) _ _ => apply wp_getAIResponse
      | |- wp (publish _) _ _ => apply wp_publish
      | |- wp (ret _) _ _ => apply wp_ret
      end ].

Definition watchedPost (s : State) (sig : Signal (list Message * list Message))
           (s' : State) : Prop :=
  limit s' = limit s /\ startTime s' = startTime s
  /\ match sig with
     | Normal _ | Break => verdict (limit s) true Due (log s') = Due
     | Return => verdict (limit s) true Due (log s') = Over
     | Throw _ => False
     end.

Lemma chat_round_watched config p r a h s t0 :
  started s = Some t0 -> limit s <> 0%Z ->
  verdict (limit s) true Due (log s) = Due ->
  wp (round env config p r a h) (watchedPost s) s.
Proof.
  intros Hs Hl Hv. unfold round. cbv zeta. repeat (step_on Hs Hl).
  all: unfold watchedPost; cbn [log isRunning history startTime limit requests readings
       logged running ticked asked published noted stoppedNote shown app] in *.
  all: do 2 (split; [reflexivity|]).
  all: judge; reflexivity.
Qed.

Definition loopWatched (s : State) (sig : Signal unit) (s' : State) : Prop :=
  limit s' = limit s /\ startTime s' = startTime s
  /\ match sig with
     | Normal _ | Break => verdict (limit s) true Due (log s') = Due
     | Return => verdict (limit s) true Due (log s') = Over
     | Throw _ => False
     end.

Lemma chat_loop_watched config p n : forall r a h s t0,
  started s = Some t0 -> limit s <> 0%Z ->
  verdict (limit s) true Due (log s) = Due ->
  wp (loop env config p n r a h) (loopWatched s) s.
Proof.
  induction n as [|n IH]; intros r a h s t0 Hs Hl Hv.
  - apply wp_ret. now repeat split.
  - cbn [loop]. apply wp_bind.
    apply (wp_mono _ _ _ _ (chat_round_watched config p r a h s t0 Hs Hl Hv)).
    intros sig s1 (Hl1 & Ht1 & Hv1).
    destruct sig as [[a' h']| | |e]; wp_enter; try (now repeat split).
    cbn [fst snd].
    assert (Hs1 : started s1 = Some t0) by (unfold started in *; now rewrite Ht1).
    rewrite <- Hl1 in Hv1, Hl.
    apply (wp_mono _ _ _ _ (IH (r + 1)%Z a' h' s1 t0 Hs1 Hl Hv1)).
    intros sig s2 (Hl2 & Ht2 & Hv2). rewrite Hl1 in *.
    split; [congruence|]. split; [congruence|]. exact Hv2.
Qed.

Lemma conversation_watched config s t0 :
  started s = Some t0 -> limit s <> 0%Z ->
  verdict (limit s) true Due (log s) = Due ->
  wp (conversation env config)
     (fun sig s' => verdict (limit s) true Due (log s')
                    = match sig with Return => Over | _ => Due end) s.
Proof.
  intros Hs Hl Hv. unfold conversation. cbv zeta.
  apply wp_bind, wp_if; intros Htopic; [|apply wp_throw; wp_enter; exact Hv].
  apply wp_ret. wp_enter. repeat step. apply wp_get. wp_enter.
  apply wp_bind, wp_if; intros Hz; [apply Z.eqb_eq in Hz; contradiction|].
  apply wp_onStatusUpdate. wp_enter. repeat step. apply wp_endLoop.
  match goal with
  | |- wp (loop _ _ ?p ?n ?r ?a ?h) _ ?s0 =>
      apply (wp_mono _ _ _ _ (chat_loop_watched config p n r a h s0 t0 Hs Hl
                                ltac:(cbn [log logged limit]; judge; reflexivity)))
  end.
  intros sig s1 (Hl1 & Ht1 & Hv1). cbn [limit logged] in *.
  assert (Htail : verdict (limit s) true Due (log s1) = Due ->
            wp (s0 <- get ;;
                match started s0 with
                | Some t0 => t <- now env ;; emit (OnStatusUpdate (TotalTime (t - t0)))
                | None => ret tt
                end ;; emit OnComplete)%js
               (fun sig s' => verdict (limit s) true Due (log s')
                              = match sig with Return => Over | _ => Due end) s1).
  { intros Hd. apply wp_bind, wp_get. wp_enter. apply wp_bind.
    destruct (started s1).
    - apply wp_bind, wp_now. wp_enter. apply wp_emit. wp_enter. apply wp_emit.
      cbn [log logged ticked]. judge. reflexivity.
    - apply wp_ret. wp_enter. apply wp_emit. cbn [log logged]. judge. reflexivity. }
  destruct sig as [u| | |e]; wp_enter; auto; contradiction.
Qed.

Lemma startChat_watched config this :
  timeLimit config <> 0%Z -> clock env 0 <> 0%Z ->
  verdict (timeLimit config) true Due (log (run env config this)) <> Bad.
Proof.
  intros Hl Hc.
  change (wp (startChat env config)
             (fun _ s' => verdict (timeLimit config) true Due (log s') <> Bad)
             (fresh this)).
  unfold startChat. apply wp_endCall, wp_bind, wp_get. wp_enter.
  apply wp_if; intros Hrun.
  { apply wp_bind, wp_emit. wp_enter. apply wp_return. discriminate. }
  repeat step_more.
  match goal with
  | |- wp _ _ ?s0 =>
      assert (Hs : started s0 = Some (clock env 0))
        by (unfold started;
            cbn [startTime fresh readings running ticked logged isRunning];
            destruct (Z.eqb_spec (clock env 0) 0); [contradiction | reflexivity]);
      apply (wp_mono _ _ _ _ (conversation_watched config s0 _ Hs Hl eq_refl))
  end.
  cbn [limit]. intros sig s1 Hv.
  destruct sig as [u| | |e]; cbn [finish log]; try (rewrite Hv; discriminate).
  apply wp_emit. cbn [finish log logged]. judge. discriminate.
Qed.


(** *** What is sent in a pass of the loop *)

Definition firstPrompt (config : ChatConfig) : Message :=
  said user ("请开始讨论主题：" ++ topic config ++ "。请提供你的见解和观点。")%string.

Definition topicAndView (config : ChatConfig) (view : string) : Message :=
  said user ("讨论主题：" ++ topic config ++ "。" ++ Js.NL
             ++ "AI 1的观点：" ++ view)%string.

(** The message lists of the two requests of pass [r], from the local
    arrays [a] and [h] as they stand when the pass begins. *)
Definition sentTo1 (config : ChatConfig) (r : Z) (a : list Message) : list Message :=
  if (r =? 1)%Z then a ++ [firstPrompt config] else a.

Definition sentTo2 (config : ChatConfig) (p : string) (r : Z)
           (h : list Message) (s : State) : list Message :=
  if (r =? 1)%Z
  then [said system p; topicAndView config (recorded (respond env (requests s)))]
  else said system p :: h.

Definition roundRequests (config : ChatConfig) (p : string) (r : Z)
           (a h : list Message) (s : State) : list (string * list Message) :=
  [(api1 config, sentTo1 config r a); (api2 config, sentTo2 config p r h s)].

(** Whatever way a pass ends, its requests are the first [k] of these two;
    both when it runs to its end. *)
Definition requestsPost (config : ChatConfig) (p : string) (r : Z)
           (a h : list Message) (s : State)
           (sig : Signal (list Message * list Message)) (s' : State) : Prop :=
  exists k,
    transmitted (log s')
    = transmitted (log s) ++ firstn k (roundRequests config p r a h s)
    /\ requests s' = k + requests s
    /\ k <= 2
    /\ match sig with Normal _ => k = 2 | _ => True end.

Lemma chat_round_requests config p r a h s :
  wp (round env config p r a h) (requestsPost config p r a h s) s.
Proof.
  unfold round. cbv zeta. repeat step.
  all: unfold requestsPost, roundRequests, sentTo1, sentTo2; quieten; observe.
  all: rewrite <- ?app_assoc; cbn [app].
  all: first [ exists 0; split; [symmetry; apply app_nil_r | now auto]
             | exists 1; split; [reflexivity | now auto]
             | exists 2; split; [reflexivity | now auto] ].
Qed.

(** *** The loop inside a call *)

Definition ai1Start : list Message :=
  [said system (fullSystemPrompt env "ai1SystemPrompt")].

Definition ai2Prompt : string := fullSystemPrompt env "ai2SystemPrompt".

(** A call of [startChat] that gets past its guards runs the loop from a
    state [s0] in which nothing but status lines has happened, and adds
    no turn and no request after it. *)
Definition framed (config : ChatConfig) (s' : State) : Prop :=
  exists s0 sig s1 tail,
    silent (log s0) /\ requests s0 = 0 /\ isRunning s0 = true
    /\ limit s0 = timeLimit config /\ startTime s0 = Some (clock env 0)
    /\ loop env config ai2Prompt (Z.to_nat (rounds config)) 1 ai1Start [] s0
       = (sig, s1)
    /\ aside tail
    /\ log s' = tail ++ log s1.

Lemma startChat_frame config this :
  isRunning this = false -> Js.truthy (Js.trim (topic config)) = true ->
  framed config (run env config this).
Proof.
  intros Hrun Htopic.
  change (wp (startChat env config) (fun _ s' => framed config s') (fresh this)).
  unfold startChat. apply wp_endCall, wp_bind, wp_get. wp_enter.
  cbn [fresh isRunning]. rewrite Hrun. repeat step_more.
  unfold conversation. cbv zeta. rewrite Htopic. repeat step_more.
  all: apply (wp_mono _ _ _ _ (wp_run _ _)); intros sig s1 Hloop.
  all: destruct sig as [u| | |e];
    repeat first [step_more | progress cbv beta iota].
  all: try match goal with
           | |- wp (match started ?s with _ => _ end) _ _ => destruct (started s)
           end; repeat step_more.
  all: match type of Hloop with
       | loop _ _ _ _ _ _ _ ?s0 = (?sig, _) => exists s0, sig, s1
       end.
  all: cbn [log isRunning history startTime limit requests readings
            logged running ticked finish fresh].
  all: first [ exists []; solve [repeat split; try reflexivity; exact Hloop]
             | eexists [_]; solve [repeat split; try reflexivity; exact Hloop]
             | eexists [_; _]; solve [repeat split; try reflexivity; exact Hloop] ].
Qed.

(** *** Stopping a discussion *)

Definition stopPost (s : State) (sig : Signal (list Message * list Message))
           (s' : State) : Prop :=
  exists new,
    emitted (log s') = emitted (log s) ++ new
    /\ match sig with
       | Normal _ =>
           length new = 2 /\ requests s' = S (S (requests s))
           /\ stopDuring env (requests s) = false
           /\ stopDuring env (S (requests s)) = false
       | Break | Return =>
           new = [] \/ (length new = 1 /\ stopDuring env (requests s) = false)
       | Throw _ => False
       end.

Lemma chat_round_stops config p r a h s :
  wp (round env config p r a h) (stopPost s) s.
Proof.
  unfold round. cbv zeta. repeat step.
  all: unfold stopPost; quieten; observe.
  all: rewrite <- ?app_assoc; cbn [app].
  all: first [ eexists; split; [reflexivity |]
             | exists []; split; [now rewrite app_nil_r |] ].
  all: cbn [length]; booleans.
Qed.

Definition stopLoopPost (s : State) (sig : Signal unit) (s' : State) : Prop :=
  exists new,
    emitted (log s') = emitted (log s) ++ new
    /\ forall j, stopDuring env j = true -> requests s <= j ->
                 length new <= j - requests s.

Lemma chat_loop_stops config p n : forall r a h s,
  wp (loop env config p n r a h) (stopLoopPost s) s.
Proof.
  induction n as [|n IH]; intros r a h s.
  - apply wp_ret. exists []. split; [now rewrite app_nil_r|]. intros; cbn [length]; lia.
  - cbn [loop]. apply wp_bind.
    apply (wp_mono _ _ _ _ (chat_round_stops config p r a h s)).
    intros sig s1 (new & Hm & Hsig).
    destruct sig as [[a' h']| | |e]; wp_enter.
    + destruct Hsig as (Hlen & Hr & Hs0 & Hs1). cbn [fst snd].
      apply (wp_mono _ _ _ _ (IH (r + 1)%Z a' h' s1)).
      intros sig s2 (new2 & Hm2 & Hstop). exists (new ++ new2).
      split; [now rewrite Hm2, Hm, app_assoc|].
      intros j Hj Hle. rewrite length_app, Hlen.
      assert (j <> requests s) by congruence.
      assert (j <> S (requests s)) by congruence.
      specialize (Hstop j Hj). rewrite Hr in Hstop. lia.
    + exists new. split; [exact Hm|]. intros j Hj Hle.
      destruct Hsig as [->|[Hlen Hs0]]; [cbn [length]; lia|].
      assert (j <> requests s) by congruence. lia.
    + exists new. split; [exact Hm|]. intros j Hj Hle.
      destruct Hsig as [->|[Hlen Hs0]]; [cbn [length]; lia|].
      assert (j <> requests s) by congruence. lia.
    + contradiction.
Qed.

(** The turns of a call that did not get past a guard: none. *)
Lemma startChat_guarded config this :
  isRunning this = true \/ Js.truthy (Js.trim (topic config)) = false ->
  emitted (log (run env config this)) = []
  /\ transmitted (log (run env config this)) = [].
Proof.
  intros H. pose proof (startChat_spec config this) as Hspec.
  unfold startChatPost in Hspec.
  destruct (isRunning this); [destruct Hspec as (-> & _); now split|].
  destruct H as [H|H]; [discriminate|]. rewrite H in Hspec.
  destruct Hspec as (-> & _); now split.
Qed.

Lemma chat_guards config this :
  (isRunning this = false /\ Js.truthy (Js.trim (topic config)) = true)
  \/ (isRunning this = true \/ Js.truthy (Js.trim (topic config)) = false).
Proof.
  destruct (isRunning this); [right; now left|].
  destruct (Js.truthy (Js.trim (topic config))); [left; now split | right; now right].
Qed.

Lemma stop_cuts_discussion config this j :
  stopDuring env j = true ->
  length (emitted (log (run env config this))) <= j.
Proof.
  intros Hj. destruct (chat_guards config this) as [[Hrun Htopic]|Hg].
  2:{ destruct (startChat_guarded config this Hg) as [-> _]. cbn [length]. lia. }
  destruct (startChat_frame config this Hrun Htopic)
    as (s0 & sig & s1 & tail & Hsil & Hreq & _ & _ & _ & Hloop & Htail & Hlog).
  pose proof (chat_loop_stops config ai2Prompt (Z.to_nat (rounds config)) 1
                ai1Start [] s0) as Hw.
  unfold wp in Hw. rewrite Hloop in Hw. cbn [fst snd] in Hw.
  destruct Hw as (new & Hnew & Hstop).
  rewrite Hlog, (emitted_aside _ _ Htail), Hnew, (emitted_quiet _ Hsil). cbn [app].
  specialize (Hstop j Hj). rewrite Hreq in Hstop. lia.
Qed.

(** *** Every message list a discussion sends *)

(** The text recorded for the reply to request [j]. *)
Definition reply (j : nat) : string := recorded (respond env j).

(** The two utterances of pass [m + 1] as AI 1 and as AI 2 are shown
    them. *)
Definition exchange1 (m : nat) : list Message :=
  [said assistant (reply (2 * m)); said user (reply (2 * m + 1))].

Definition exchange2 (m : nat) : list Message :=
  [said user (reply (2 * m)); said assistant (reply (2 * m + 1))].

Definition view1 (k : nat) : list Message := flat_map exchange1 (seq 0 k).
Definition view2 (k : nat) : list Message := flat_map exchange2 (seq 0 k).

(** The message list of request number [i] of a run. *)
Definition expected (config : ChatConfig) (i : nat) : string * list Message :=
  match i with
  | 0 => (api1 config, ai1Start ++ [firstPrompt config])
  | 1 => (api2 config, [said system ai2Prompt; topicAndView config (reply 0)])
  | _ =>
      if Nat.even i
      then (api1 config, ai1Start ++ view1 (Nat.div2 i))
      else (api2 config, said system ai2Prompt :: view2 (Nat.div2 i))
  end.

Lemma view1_S k : view1 (S k) = view1 k ++ exchange1 k.
Proof.
  unfold view1. rewrite seq_S, flat_map_app. cbn [flat_map Nat.add].
  now rewrite app_nil_r.
Qed.

Lemma view2_S k : view2 (S k) = view2 k ++ exchange2 k.
Proof.
  unfold view2. rewrite seq_S, flat_map_app. cbn [flat_map Nat.add].
  now rewrite app_nil_r.
Qed.

Lemma div2_double_plus k b : b < 2 -> Nat.div2 (2 * k + b) = k.
Proof.
  intros Hb. destruct b as [|[|b]]; [| |lia].
  - rewrite Nat.add_0_r. apply Nat.div2_double.
  - rewrite Nat.add_1_r. apply Nat.div2_succ_double.
Qed.

Lemma even_double_plus k b : b < 2 -> Nat.even (2 * k + b) = Nat.even b.
Proof.
  intros _. rewrite Nat.even_add, Nat.even_mul. cbn [Nat.even orb].
  now destruct (Nat.even b).
Qed.

Lemma roundRequests_expected config k s i :
  requests s = 2 * k -> i < 2 ->
  nth_error (roundRequests config ai2Prompt (Z.of_nat k + 1)
                           (ai1Start ++ view1 k) (view2 k) s) i
  = Some (expected config (2 * k + i)).
Proof.
  intros Hq Hi. unfold roundRequests, sentTo1, sentTo2. rewrite Hq.
  destruct k as [|k].
  - destruct i as [|[|i]]; [reflexivity | reflexivity | lia].
  - replace (Z.of_nat (S k) + 1 =? 1)%Z with false by (symmetry; apply Z.eqb_neq; lia).
    unfold expected.
    destruct (2 * S k + i) as [|[|j]] eqn:E; [lia | lia |].
    rewrite <- E, even_double_plus, div2_double_plus by assumption.
    destruct i as [|[|i]]; [reflexivity | reflexivity | lia].
Qed.

Definition listsPost (config : ChatConfig) (k : nat) (s : State)
           (sig : Signal unit) (s' : State) : Prop :=
  exists sent,
    transmitted (log s') = transmitted (log s) ++ sent
    /\ requests s' = length sent + requests s
    /\ forall i, i < length sent ->
                 nth_error sent i = Some (expected config (2 * k + i)).

Lemma chat_loop_lists config n : forall k s,
  requests s = 2 * k ->
  wp (loop env config ai2Prompt n (Z.of_nat k + 1) (ai1Start ++ view1 k) (view2 k))
     (listsPost config k s) s.
Proof.
  induction n as [|n IH]; intros k s Hq.
  - apply wp_ret. exists []. split; [now rewrite app_nil_r|]. split; [reflexivity|].
    intros i Hi. inversion Hi.
  - cbn [loop]. apply wp_bind.
    apply (wp_mono _ _ _ _
             (wp_and _ _ _ _
                (chat_round_spec config ai2Prompt (Z.of_nat k + 1)
                                 (ai1Start ++ view1 k) (view2 k) s)
                (chat_round_requests config ai2Prompt (Z.of_nat k + 1)
                                     (ai1Start ++ view1 k) (view2 k) s))).
    intros sig s1 [Hspec (m & Htr & Hr & Hm & Hsig)].
    assert (Hpart : forall i, i < length (firstn m (roundRequests config ai2Prompt
                       (Z.of_nat k + 1) (ai1Start ++ view1 k) (view2 k) s)) ->
              nth_error (firstn m (roundRequests config ai2Prompt
                       (Z.of_nat k + 1) (ai1Start ++ view1 k) (view2 k) s)) i
              = Some (expected config (2 * k + i))).
    { intros i Hi. rewrite length_firstn in Hi. cbn [roundRequests length] in Hi.
      rewrite nth_error_firstn.
      replace (i <? m)%nat with true by (symmetry; apply Nat.ltb_lt; lia).
      apply roundRequests_expected; [exact Hq | lia]. }
    assert (Hcount : length (firstn m (roundRequests config ai2Prompt
                       (Z.of_nat k + 1) (ai1Start ++ view1 k) (view2 k) s)) = m).
    { rewrite length_firstn. cbn [roundRequests length]. lia. }
    destruct sig as [[a' h']| | |e]; wp_enter;
      try (eexists; split; [exact Htr|]; split; [now rewrite Hcount | exact Hpart]).
    destruct Hspec as (_ & _ & _ & _ & new & _ & _ & t1 & t2 & _ & Hr2 & _ & -> & ->).
    subst m. cbn [fst snd].
    assert (Hq1 : requests s1 = 2 * S k) by lia.
    specialize (IH (S k) s1 Hq1).
    rewrite Nat2Z.inj_succ, <- Z.add_1_r, view1_S, view2_S, app_assoc in IH.
    unfold exchange1, exchange2, reply in IH. rewrite <- Hq, Nat.add_1_r in IH.
    apply (wp_mono _ _ _ _ IH).
    intros sig s2 (sent2 & Htr2 & Hr3 & Hexp).
    eexists. split; [rewrite Htr2, Htr, <- app_assoc; reflexivity|].
    split; [rewrite length_app, Hcount; lia|].
    intros i Hi. rewrite length_app, Hcount in Hi.
    destruct (Nat.lt_ge_cases i 2) as [Hlt|Hge].
    + rewrite nth_error_app1 by (rewrite Hcount; exact Hlt).
      apply Hpart. now rewrite Hcount.
    + rewrite nth_error_app2 by (rewrite Hcount; exact Hge). rewrite Hcount.
      rewrite Hexp by lia. f_equal. f_equal. lia.
Qed.

Lemma discussion_lists config this i x :
  nth_error (transmitted (log (run env config this))) i = Some x ->
  x = expected config i.
Proof.
  intros Hx. destruct (chat_guards config this) as [[Hrun Htopic]|Hg].
  2:{ destruct (startChat_guarded config this Hg) as [_ Hnone].
      rewrite Hnone in Hx. destruct i; discriminate. }
  destruct (startChat_frame config this Hrun Htopic)
    as (s0 & sig & s1 & tail & Hsil & Hreq & _ & _ & _ & Hloop & Htail & Hlog).
  pose proof (chat_loop_lists config (Z.to_nat (rounds config)) 0 s0 Hreq) as Hw.
  change (Z.of_nat 0 + 1)%Z with 1%Z in Hw.
  change (view2 0) with (@nil Message) in Hw.
  change (view1 0) with (@nil Message) in Hw. rewrite app_nil_r in Hw.
  unfold wp in Hw. rewrite Hloop in Hw. cbn [fst snd] in Hw.
  destruct Hw as (sent & Hsent & _ & Hexp).
  rewrite Hlog, (transmitted_aside _ _ Htail), Hsent, (transmitted_quiet _ Hsil) in Hx.
  cbn [app] in Hx.
  assert (Hi : i < length sent) by (apply nth_error_Some; congruence).
  rewrite (Hexp i Hi) in Hx. now inversion Hx.
Qed.

Lemma length_view1 k : length (view1 k) = 2 * k.
Proof.
  induction k as [|k IH]; [reflexivity|].
  rewrite view1_S, length_app, IH. cbn [exchange1 length]. lia.
Qed.

Lemma length_view2 k : length (view2 k) = 2 * k.
Proof.
  induction k as [|k IH]; [reflexivity|].
  rewrite view2_S, length_app, IH. cbn [exchange2 length]. lia.
Qed.

(** From the second pass on, AI 1 is sent one entry for the system prompt
    and one for each turn so far; AI 2 is sent one entry less. *)
Lemma length_expected config i :
  2 <= i ->
  length (snd (expected config i)) = if Nat.even i then 1 + i else i.
Proof.
  intros Hi. destruct i as [|[|j]]; [lia | lia |].
  unfold expected. pose proof (Nat.div2_odd (S (S j))) as Hd.
  rewrite <- Nat.negb_even in Hd.
  destruct (Nat.even (S (S j))); cbn [negb Nat.b2n] in Hd; cbn [snd].
  - rewrite length_app, length_view1. cbn [ai1Start length]. lia.
  - cbn [length]. rewrite length_view2. lia.
Qed.

(** The list sent to AI 2 in a later pass ends with AI 2's own previous
    utterance: the utterance AI 1 has just made is not in it. *)
Lemma last_view2 k d : last (view2 (S k)) d = said assistant (reply (2 * k + 1)).
Proof.
  rewrite view2_S. unfold exchange2.
  change ([said user (reply (2 * k)); said assistant (reply (2 * k + 1))])
    with ([said user (reply (2 * k))] ++ [said assistant (reply (2 * k + 1))]).
  rewrite app_assoc. apply last_last.
Qed.

(** *** Requests and turns of a discussion alternate *)

Definition pacedPost {A} (q : nat) (sig : Signal A) (s' : State) : Prop :=
  match sig with
  | Normal _ => pace (log s') = Answered (S (S q))
  | Throw _ => False
  | _ => pace (log s') <> OutOfStep
  end.

Lemma chat_round_paced config p r a h s q :
  pace (log s) = Answered q ->
  wp (round env config p r a h) (pacedPost q) s.
Proof.
  intros Hq. unfold round. cbv zeta. repeat step.
  all: unfold pacedPost; quieten.
  all: cbn [log isRunning history startTime limit requests readings
            logged running ticked asked published noted stoppedNote] in *.
  all: in_step; try reflexivity; discriminate.
Qed.

Lemma chat_loop_paced config p n : forall r a h s q,
  pace (log s) = Answered q ->
  wp (loop env config p n r a h) (fun _ s' => pace (log s') <> OutOfStep) s.
Proof.
  induction n as [|n IH]; intros r a h s q Hq.
  - apply wp_ret. rewrite Hq. discriminate.
  - cbn [loop]. apply wp_bind.
    apply (wp_mono _ _ _ _ (chat_round_paced config p r a h s q Hq)).
    intros sig s1 H1. destruct sig as [[a' h']| | |e]; wp_enter;
      [| exact H1 | exact H1 | contradiction].
    cbn [fst snd]. exact (IH _ _ _ s1 _ H1).
Qed.

Lemma discussion_in_step config this :
  pace (log (run env config this)) <> OutOfStep.
Proof.
  destruct (chat_guards config this) as [[Hrun Htopic]|Hg].
  2:{ pose proof (startChat_spec config this) as Hspec.
      unfold startChatPost in Hspec.
      destruct (isRunning this); [destruct Hspec as (-> & _); discriminate|].
      destruct Hg as [Hg|Hg]; [discriminate|]. rewrite Hg in Hspec.
      destruct Hspec as (-> & _); discriminate. }
  destruct (startChat_frame config this Hrun Htopic)
    as (s0 & sig & s1 & tail & Hsil & _ & _ & _ & _ & Hloop & Htail & Hlog).
  pose proof (chat_loop_paced config ai2Prompt (Z.to_nat (rounds config)) 1
                ai1Start [] s0 0 (pace_quiet _ Hsil)) as Hw.
  unfold wp in Hw. rewrite Hloop in Hw. cbn [fst snd] in Hw.
  now rewrite Hlog, (pace_aside _ _ Htail).
Qed.

(** *** The course of a discussion: why it ends *)

Lemma chat_breaches_when show s evs k :
  breaches show s evs k ->
  silent evs /\ k = 1
  /\ exists t0, started s = Some t0 /\ limit s <> 0%Z
                /\ (1000 * limit s <= clock env (readings s) - t0)%Z.
Proof.
  intros H. pose proof (chat_breaches_silent show s evs k H) as Hs.
  destruct H as [t0 H1 H2 H3]. eauto 7.
Qed.

(** What ends a pass before its end: a stop during the request made
    last, or a reading of the clock that is past the limit. *)
Definition endsPost {A} (s : State) (sig : Signal A) (s' : State) : Prop :=
  requests s <= requests s' /\ readings s <= readings s'
  /\ startTime s' = startTime s /\ limit s' = limit s
  /\ match sig with
     | Normal _ => isRunning s' = true /\ requests s' = S (S (requests s))
     | Break =>
         isRunning s = false
         \/ (requests s < requests s'
             /\ stopDuring env (Nat.pred (requests s')) = true)
     | Return =>
         exists t0 k,
           started s = Some t0 /\ limit s <> 0%Z
           /\ readings s <= k < readings s'
           /\ (1000 * limit s <= clock env k - t0)%Z
     | Throw _ => False
     end.

Ltac whens :=
  repeat match goal with
         | H : passes _ _ _ _ |- _ => apply chat_passes_silent in H
         | H : breaches _ _ _ _ |- _ =>
             apply chat_breaches_when in H;
             destruct H as (? & ? & ? & ? & ? & ?)
         end.

Lemma chat_round_ends config p r a h s :
  wp (round env config p r a h) (endsPost s) s.
Proof.
  unfold round. cbv zeta. repeat step.
  all: unfold endsPost, started in *; whens; subst; observe.
  all: cbn [Nat.pred Nat.add] in *.
  all: do 4 (split; [first [reflexivity | lia]|]).
  all: try (split; [booleans | reflexivity]; fail).
  all: try (booleans; fail).
  all: try (right; split; [lia | booleans]; fail).
  all: try (do 2 eexists; split; [eassumption|]; split; [assumption|];
            split; [|eassumption]; lia).
Qed.

Definition loopEnds (n : nat) (s : State) (sig : Signal unit) (s' : State) : Prop :=
  requests s <= requests s' /\ readings s <= readings s'
  /\ match sig with
     | Normal _ => requests s' = 2 * n + requests s
     | Break =>
         requests s < requests s'
         /\ stopDuring env (Nat.pred (requests s')) = true
     | Return =>
         exists t0 k,
           started s = Some t0 /\ limit s <> 0%Z
           /\ readings s <= k < readings s'
           /\ (1000 * limit s <= clock env k - t0)%Z
     | Throw _ => False
     end.

Lemma chat_loop_ends config p n : forall r a h s,
  isRunning s = true ->
  wp (loop env config p n r a h) (loopEnds n s) s.
Proof.
  induction n as [|n IH]; intros r a h s Hrun.
  - apply wp_ret. unfold loopEnds. auto.
  - cbn [loop]. apply wp_bind.
    apply (wp_mono _ _ _ _ (chat_round_ends config p r a h s)).
    intros sig s1 (Hq & Hk & Ht & Hl & Hsig).
    destruct sig as [[a' h']| | |e]; wp_enter.
    + cbn [fst snd]. destruct Hsig as [Hrun1 Hr1].
      apply (wp_mono _ _ _ _ (IH (r + 1)%Z a' h' s1 Hrun1)).
      intros sig s2 (Hq2 & Hk2 & Hsig2).
      split; [lia|]. split; [lia|].
      destruct sig as [u| | |e]; auto.
      * lia.
      * destruct Hsig2 as [Hlt Hstop]. split; [lia | exact Hstop].
      * destruct Hsig2 as (t0 & k & Hs & Hl0 & Hkk & Hover).
        exists t0, k. unfold started in *. rewrite Ht in Hs. rewrite Hl in Hl0, Hover.
        repeat split; auto; lia.
    + split; [lia|]. split; [lia|].
      destruct Hsig as [Hs|Hs]; [congruence | exact Hs].
    + split; [lia|]. split; [lia|]. exact Hsig.
    + contradiction.
Qed.

(** *** Who speaks *)

(** The label of the participant whose turn has a given number. *)
Definition speaker (config : ChatConfig) (j : nat) : string :=
  if Nat.even j then ("ai1 (" ++ model1 config ++ ")")%string
  else ("ai2 (" ++ model2 config ++ ")")%string.

Definition authors (config : ChatConfig) (from : nat)
           (new : list ChatMessageDisplay) : Prop :=
  map sender new = map (speaker config) (seq from (length new)).

Lemma speaker_pair config m :
  Nat.even m = true ->
  speaker config m = ("ai1 (" ++ model1 config ++ ")")%string
  /\ speaker config (S m) = ("ai2 (" ++ model2 config ++ ")")%string.
Proof.
  intros Hm.
  assert (Hodd : Nat.even (S m) = false)
    by (rewrite Nat.even_succ, <- Nat.negb_even, Hm; reflexivity).
  cbv beta delta [speaker]. now rewrite Hm, Hodd.
Qed.

Lemma chat_loop_authors config p n : forall r a h s m,
  Nat.even m = true ->
  wp (loop env config p n r a h)
     (fun _ s' => exists new, emitted (log s') = emitted (log s) ++ new
                              /\ authors config m new) s.
Proof.
  induction n as [|n IH]; intros r a h s m Hm.
  - apply wp_ret. exists []. split; [now rewrite app_nil_r | reflexivity].
  - cbn [loop]. apply wp_bind.
    apply (wp_mono _ _ _ _ (chat_round_spec config p r a h s)).
    intros sig s1 (_ & _ & _ & _ & new & _ & Hem & Hsig).
    destruct (speaker_pair config m Hm) as [Hs1 Hs2].
    assert (H1 : forall t, authors config m [turn1 config s t])
      by (intros t; unfold authors; cbn [map seq length];
          rewrite Hs1; reflexivity).
    destruct sig as [[a' h']| | |e]; wp_enter.
    + destruct Hsig as (t1 & t2 & -> & _). cbn [fst snd].
      assert (Hm2 : Nat.even (S (S m)) = true) by exact Hm.
      apply (wp_mono _ _ _ _ (IH (r + 1)%Z a' h' s1 (S (S m)) Hm2)).
      intros sig s2 (new2 & Hem2 & Ha2).
      exists ([turn1 config s t1; turn2 config s t2] ++ new2).
      split; [now rewrite Hem2, Hem, app_assoc|].
      unfold authors in *. rewrite map_app, length_app, Ha2.
      cbn [length Nat.add seq map app turn1 turn2 shownTurn sender].
      rewrite Hs1, Hs2. reflexivity.
    + exists new. split; [exact Hem|].
      destruct Hsig as [[->|[t1 ->]] _]; [reflexivity | apply H1].
    + exists new. split; [exact Hem|].
      destruct Hsig as [[->|[t1 ->]] _]; [reflexivity | apply H1].
    + contradiction.
Qed.

(** *** The numbers a discussion reports are the clock's *)

Lemma wp_chat_returnIfOverTime_at show (Q : Signal unit -> State -> Prop) s t0 :
  started s = Some t0 -> limit s <> 0%Z ->
  (let e := (clock env (readings s) - t0)%Z in
   (1000 * limit s <=? e)%Z = false ->
   Q (Normal tt) (noted (shown show e (limit s) ++ [TimeCheck e]) 1 s)) ->
  (let e := (clock env (readings s) - t0)%Z in
   (1000 * limit s <=? e)%Z = true ->
   Q Return
     (running false
        (noted (OnStatusUpdate (TimeLimitReached e (limit s))
                :: shown show e (limit s) ++ [TimeCheck e]) 1 s))) ->
  wp (returnIfOverTime env show) Q s.
Proof.
  intros Hs Hl Hp Hb. apply wp_chat_returnIfOverTime.
  - intros evs k [[H|H]|t1 H1 H2 H3]; [congruence | contradiction |].
    assert (t1 = t0) by congruence. subst t1. apply Hp. now apply Z.leb_gt.
  - intros evs k [t1 H1 H2 H3].
    assert (t1 = t0) by congruence. subst t1. apply Hb. now apply Z.leb_le.
Qed.

Lemma wp_orFallback_text who r (Q : Signal string -> State -> Prop) s :
  (forall evs, notes evs -> Q (Normal (recorded r)) (noted evs 0 s)) ->
  wp (orFallback who r) Q s.
Proof.
  intros H. unfold orFallback. rewrite recorded_cases in H. run_monad.
  destruct (Js.truthy (trimmedReply r)).
  - rewrite <- (noted_nil s). now apply H.
  - exact (H [OnStatusUpdate (Text ("警告: AI " ++ who ++ " 的回复为空")%string)] eq_refl).
Qed.

Ltac step_at Hs Hl :=
  first
    [ wp_enter
    | lazymatch goal with
      | |- wp (bind _ _) _ _ => apply wp_bind
      | |- wp breakIfStopped _ _ => apply wp_breakIfStopped; intros ?
      | |- wp (returnIfOverTime _ _) _ _ =>
          eapply wp_chat_returnIfOverTime_at;
          [exact Hs | exact Hl | cbv zeta; intros ? | cbv zeta; intros ?]
      | |- wp (orFallback _ _) _ _ => apply wp_orFallback_text; intros ? ?
      | |- wp (display _ _ _ _) _ _ => apply wp_display
      | |- wp (onStatusUpdate _) _ _ => apply wp_onStatusUpdate
      | |- wp (getAIResponse _ _ _ _ _) _ _ => apply wp_getAIResponse
      | |- wp (publish _) _ _ => apply wp_publish
      | |- wp (ret _) _ _ => apply wp_ret
      end ].

Definition clockedPost {A} (s : State) (sig : Signal A) (s' : State) : Prop :=
  limit s' = limit s /\ startTime s' = startTime s
  /\ onTime env (limit s) (log s') = Some (readings s').

Lemma chat_round_clocked config p r a h s :
  started s = Some (clock env 0) -> limit s <> 0%Z ->
  onTime env (limit s) (log s) = Some (readings s) ->
  wp (round env config p r a h) (clockedPost s) s.
Proof.
  intros Hs Hl Hv. unfold round. cbv zeta. repeat (step_at Hs Hl).
  all: unfold clockedPost;
    cbn [log isRunning history startTime limit requests readings
         logged running ticked asked published noted stoppedNote shown
         shownTurn app] in *.
  all: do 2 (split; [reflexivity|]).
  all: clockwork; reflexivity.
Qed.

Lemma chat_loop_clocked config p n : forall r a h s,
  started s = Some (clock env 0) -> limit s <> 0%Z ->
  onTime env (limit s) (log s) = Some (readings s) ->
  wp (loop env config p n r a h) (clockedPost s) s.
Proof.
  induction n as [|n IH]; intros r a h s Hs Hl Hv.
  - apply wp_ret. now repeat split.
  - cbn [loop]. apply wp_bind.
    apply (wp_mono _ _ _ _ (chat_round_clocked config p r a h s Hs Hl Hv)).
    intros sig s1 (Hl1 & Ht1 & Hv1).
    destruct sig as [[a' h']| | |e]; wp_enter; try (now repeat split).
    cbn [fst snd].
    assert (Hs1 : started s1 = Some (clock env 0))
      by (unfold started in *; now rewrite Ht1).
    rewrite <- Hl1 in Hv1, Hl.
    apply (wp_mono _ _ _ _ (IH (r + 1)%Z a' h' s1 Hs1 Hl Hv1)).
    intros sig s2 (Hl2 & Ht2 & Hv2). rewrite Hl1 in *.
    split; [congruence|]. split; [congruence|]. exact Hv2.
Qed.

(** *** A call from its start to its end *)

(** What follows the loop: the total and the completion when the loop
    ends by itself or by a stop, nothing when the time is up. *)
Definition ending (sig : Signal unit) (s1 : State) : list Event :=
  match sig with
  | Normal _ | Break =>
      OnComplete
        :: match started s1 with
           | Some t0 => [OnStatusUpdate (TotalTime (clock env (readings s1) - t0))]
           | None => []
           end
  | Return => []
  | Throw e => [OnError (messageOr "未知错误" e)]
  end.

(** A call of [startChat] that gets past its guards reads the clock once,
    writes status lines, runs the loop from the state [s0] reached so,
    and ends as [ending] says. *)
Definition coursed (config : ChatConfig) (s' : State) : Prop :=
  exists s0 sig s1,
    notes (log s0) /\ requests s0 = 0 /\ readings s0 = 1
    /\ isRunning s0 = true
    /\ limit s0 = timeLimit config /\ startTime s0 = Some (clock env 0)
    /\ loop env config ai2Prompt (Z.to_nat (rounds config)) 1 ai1Start [] s0
       = (sig, s1)
    /\ log s' = ending sig s1 ++ log s1
    /\ requests s' = requests s1.

Lemma startChat_course config this :
  isRunning this = false -> Js.truthy (Js.trim (topic config)) = true ->
  coursed config (run env config this).
Proof.
  intros Hrun Htopic.
  change (wp (startChat env config) (fun _ s' => coursed config s') (fresh this)).
  unfold startChat. apply wp_endCall, wp_bind, wp_get. wp_enter.
  cbn [fresh isRunning]. rewrite Hrun. repeat step_more.
  unfold conversation. cbv zeta. rewrite Htopic. repeat step_more.
  all: apply (wp_mono _ _ _ _ (wp_run _ _)); intros sig s1 Hloop.
  all: destruct sig as [u| | |e];
    repeat first [step_more | progress cbv beta iota].
  all: try match goal with
           | |- wp (match started ?s with _ => _ end) _ _ =>
               destruct (started s) eqn:Hstarted
           end; repeat step_more.
  all: match type of Hloop with
       | loop _ _ _ _ _ _ _ ?s0 = (?sig, _) => exists s0, sig, s1
       end.
  all: cbn [log isRunning history startTime limit requests readings
            logged running ticked finish fresh ending].
  all: rewrite ?Hstarted.
  all: repeat split; try reflexivity; exact Hloop.
Qed.

Lemma chat_completions_quiet evs : silent evs -> completions evs = 0.
Proof. intros H. rewrite <- (app_nil_r evs). now rewrite completions_silent. Qed.

Lemma ending_aside sig s1 : aside (ending sig s1).
Proof. destruct sig; cbn [ending]; try reflexivity; now destruct (started s1). Qed.

Lemma started_at s t :
  startTime s = Some t -> started s = if (t =? 0)%Z then None else Some t.
Proof. intros H. unfold started. now rewrite H. Qed.

(** The turns of a discussion are AI 1's and AI 2's in turn. *)
Lemma discussion_speakers config this :
  authors config 0 (emitted (log (run env config this))).
Proof.
  destruct (chat_guards config this) as [[Hrun Htopic]|Hg].
  2:{ destruct (startChat_guarded config this Hg) as [-> _]. reflexivity. }
  destruct (startChat_course config this Hrun Htopic)
    as (s0 & sig & s1 & Hnotes & _ & _ & _ & _ & _ & Hloop & Hlog & _).
  pose proof (chat_loop_authors config ai2Prompt (Z.to_nat (rounds config)) 1
                ai1Start [] s0 0 eq_refl) as Hw.
  unfold wp in Hw. rewrite Hloop in Hw. cbn [fst snd] in Hw.
  destruct Hw as (new & Hnew & Ha).
  rewrite Hlog, (emitted_aside _ _ (ending_aside sig s1)), Hnew.
  now rewrite (emitted_quiet _ (notes_silent _ Hnotes)).
Qed.

(** The three ways a discussion ends: all rounds are done; or it was
    stopped during the request made last, whose reply is dropped; or a
    reading of the clock was past the limit. *)
Definition ended (config : ChatConfig) (s' : State) : Prop :=
  let turns := length (emitted (log s')) in
  (turns = 2 * Z.to_nat (rounds config) /\ requests s' = turns
   /\ completions (log s') = 1)
  \/ (requests s' = S turns /\ stopDuring env turns = true
      /\ completions (log s') = 1)
  \/ (completions (log s') = 0
      /\ timeLimit config <> 0%Z /\ clock env 0 <> 0%Z
      /\ exists k, 0 < k
                   /\ (1000 * timeLimit config <= clock env k - clock env 0)%Z).

Lemma discussion_requests config this :
  requests (run env config this)
  = length (transmitted (log (run env config this))).
Proof.
  destruct (chat_guards config this) as [[Hrun Htopic]|Hg].
  2:{ destruct (startChat_guarded config this Hg) as [_ ->].
      pose proof (startChat_spec config this) as Hspec.
      unfold startChatPost in Hspec. unfold run.
      change (wp (startChat env config) (fun _ s' => requests s' = 0) (fresh this)).
      unfold startChat. apply wp_endCall, wp_bind, wp_get. wp_enter.
      apply wp_if; intros Hr.
      { apply wp_bind, wp_emit. wp_enter. apply wp_return. reflexivity. }
      repeat step_more. unfold conversation. cbv zeta.
      cbn [fresh isRunning] in Hr.
      destruct Hg as [Hg|Hg]; [congruence|]. rewrite Hg.
      repeat step_more. reflexivity. }
  destruct (startChat_course config this Hrun Htopic)
    as (s0 & sig & s1 & Hnotes & Hreq & _ & _ & _ & _ & Hloop & Hlog & Hreq').
  pose proof (chat_loop_lists config (Z.to_nat (rounds config)) 0 s0 Hreq) as Hw.
  change (Z.of_nat 0 + 1)%Z with 1%Z in Hw.
  change (view2 0) with (@nil Message) in Hw.
  change (view1 0) with (@nil Message) in Hw. rewrite app_nil_r in Hw.
  unfold wp in Hw. rewrite Hloop in Hw. cbn [fst snd] in Hw.
  destruct Hw as (sent & Hsent & Hr & _).
  rewrite Hreq', Hlog, (transmitted_aside _ _ (ending_aside sig s1)), Hsent.
  rewrite (transmitted_quiet _ (notes_silent _ Hnotes)). cbn [app]. lia.
Qed.

Lemma discussion_ends config this :
  isRunning this = false -> Js.truthy (Js.trim (topic config)) = true ->
  ended config (run env config this).
Proof.
  intros Hrun Htopic.
  pose proof (discussion_requests config this) as Hcount.
  pose proof (discussion_in_step config this) as Hpace.
  pose proof (pace_counts (log (run env config this))) as Hpc.
  destruct (startChat_course config this Hrun Htopic)
    as (s0 & sig & s1 & Hnotes & Hreq & Hread & Hrun0 & Hlim & Hst & Hloop
        & Hlog & Hreq').
  pose proof (notes_silent _ Hnotes) as Hsil.
  pose proof (chat_loop_spec config ai2Prompt (Z.to_nat (rounds config)) 1
                ai1Start [] s0) as Hspec.
  pose proof (chat_loop_ends config ai2Prompt (Z.to_nat (rounds config)) 1
                ai1Start [] s0 Hrun0) as Hends.
  unfold wp in Hspec, Hends. rewrite Hloop in Hspec, Hends.
  cbn [fst snd] in Hspec, Hends.
  destruct Hspec as (_ & Hc & _ & _ & new & _ & Hem & Hlen & _ & Hsig).
  destruct Hends as (_ & _ & Hwhy).
  rewrite (chat_completions_quiet _ Hsil) in Hc.
  rewrite (emitted_quiet _ Hsil) in Hem. cbn [app] in Hem.
  assert (Hturns : emitted (log (run env config this)) = new)
    by (rewrite Hlog, (emitted_aside _ _ (ending_aside sig s1)); exact Hem).
  assert (Hdone : forall t, completions (ending t s1 ++ log s1)
                            = completions (ending t s1) + 0).
  { intros t. rewrite <- Hc. clear. induction (ending t s1) as [|e l IH];
      [reflexivity|]. destruct e; cbn [app completions]; rewrite ?IH; reflexivity. }
  unfold ended. cbv zeta. rewrite Hturns, Hlog, Hdone, Hreq'.
  destruct sig as [u| | |e].
  - left. rewrite Hreq in Hwhy. cbn [ending completions].
    destruct (started s1); cbn [completions]; repeat split; auto; lia.
  - right. left. destruct Hwhy as [Hlt Hstop].
    rewrite Hreq' in Hcount. rewrite Hturns in Hpc.
    pose proof (stop_cuts_discussion config this _ Hstop) as Hcut.
    rewrite Hturns in Hcut.
    destruct (pace (log (run env config this))) as [q|q|]; [| |contradiction];
      destruct Hpc as [Hq1 Hq2];
      assert (Hj : requests s1 = S (length new)) by lia;
      rewrite Hj in Hstop; cbn [Nat.pred] in Hstop;
      cbn [ending completions]; destruct (started s1); cbn [completions];
      repeat split; auto.
  - right. right. destruct Hwhy as (t0 & k & Hs & Hl0 & Hk & Hover).
    rewrite (started_at _ _ Hst) in Hs.
    destruct (Z.eqb_spec (clock env 0) 0) as [|Hc0]; [discriminate|].
    inversion Hs. subst t0. rewrite Hlim in Hl0, Hover.
    cbn [ending completions]. repeat split; auto.
    exists k. split; [lia | exact Hover].
  - contradiction.
Qed.

(** No reading of the clock is past the limit of the run. *)
Definition inTime (config : ChatConfig) : Prop :=
  timeLimit config = 0%Z \/ clock env 0 = 0%Z
  \/ forall k, 0 < k -> (clock env k - clock env 0 < 1000 * timeLimit config)%Z.

(** Whatever the replies are: while the clock stays below the limit, a
    request during which the run is not stopped is followed by its turn,
    and that turn by the next request, until all rounds are done. *)
Lemma discussion_goes_on config this j :
  isRunning this = false -> Js.truthy (Js.trim (topic config)) = true ->
  inTime config ->
  j < requests (run env config this) -> stopDuring env j = false ->
  j < length (emitted (log (run env config this)))
  /\ (S j < 2 * Z.to_nat (rounds config) -> S j < requests (run env config this)).
Proof.
  intros Hrun Htopic Htime Hj Hstop.
  pose proof (discussion_ends config this Hrun Htopic) as H.
  unfold ended in H. cbv zeta in H.
  destruct H as [(Hall & Hr & _)|[(Hr & Hs & _)|(_ & Hl & Hc & k & Hk & Hover)]].
  - split; lia.
  - assert (j <> length (emitted (log (run env config this)))) by congruence.
    split; lia.
  - destruct Htime as [Ht|[Ht|Ht]]; [contradiction | contradiction |].
    specialize (Ht k Hk). lia.
Qed.

(** With a limit, the numbers a discussion reports are the clock's. *)
Lemma discussion_on_time config this :
  timeLimit config <> 0%Z -> clock env 0 <> 0%Z ->
  onTime env (timeLimit config) (log (run env config this)) <> None.
Proof.
  intros Hl Hc. destruct (chat_guards config this) as [[Hrun Htopic]|Hg].
  2:{ pose proof (startChat_spec config this) as Hspec.
      unfold startChatPost in Hspec.
      destruct (isRunning this); [destruct Hspec as (-> & _); discriminate|].
      destruct Hg as [Hg|Hg]; [discriminate|]. rewrite Hg in Hspec.
      destruct Hspec as (-> & _); discriminate. }
  destruct (startChat_course config this Hrun Htopic)
    as (s0 & sig & s1 & Hnotes & _ & Hread & _ & Hlim & Hst & Hloop & Hlog & _).
  assert (Hs : started s0 = Some (clock env 0)).
  { rewrite (started_at _ _ Hst).
    destruct (Z.eqb_spec (clock env 0) 0); [contradiction | reflexivity]. }
  rewrite <- Hlim in Hl.
  assert (Hv : onTime env (limit s0) (log s0) = Some (readings s0))
    by (rewrite Hread; now apply onTime_quiet).
  pose proof (chat_loop_clocked config ai2Prompt (Z.to_nat (rounds config)) 1
                ai1Start [] s0 Hs Hl Hv) as Hw.
  unfold wp in Hw. rewrite Hloop in Hw. cbn [fst snd] in Hw.
  destruct Hw as (_ & Ht1 & Hv1). rewrite Hlim in Hv1.
  assert (Hs1 : started s1 = Some (clock env 0))
    by (unfold started in *; now rewrite Ht1).
  rewrite Hlog. destruct sig as [u| | |e]; cbn [ending]; rewrite ?Hs1;
    clockwork; discriminate.
Qed.

(** *** The roles in the lists of a discussion *)




End Steps.
End ChatFacts.

Module DebateFacts.
Import DebateService.

Section Steps.

Variable env : Env.

Definition said (r : Role) (c : string) : Message := {| role := r; content := c |}.

Inductive passes (s : State) : list Event -> nat -> Prop :=
| passes_off : started s = None \/ limit s = 0%Z -> passes s [] 0
| passes_on t0 :
    started s = Some t0 -> limit s <> 0%Z ->
    (clock env (readings s) - t0 < 1000 * limit s)%Z ->
    passes s [TimeCheck (clock env (readings s) - t0)] 1.

Inductive breaches (s : State) : list Event -> nat -> Prop :=
| breaches_on t0 :
    started s = Some t0 -> limit s <> 0%Z ->
    (1000 * limit s <= clock env (readings s) - t0)%Z ->
    breaches s [OnStatusUpdate (Text "辩论时间已达限制");
                TimeCheck (clock env (readings s) - t0)] 1.

Lemma debate_passes_silent s evs k : passes s evs k -> silent evs.
Proof. intros [H|t0 H1 H2 H3]; reflexivity. Qed.

Lemma debate_breaches_why s evs k :
  breaches s evs k -> limit s <> 0%Z /\ silent evs.
Proof. intros [t0 H1 H2 H3]. split; [assumption | reflexivity]. Qed.

Ltac run_monad :=
  cbv beta iota zeta
      delta [wp after bind ret get modify brk return_ throw emit onStatusUpdate
             setRunning setHistory setStartTime setLimit now publish
             getAIResponse fst snd].

Lemma wp_debate_checkTimeLimit (Q : Signal bool -> State -> Prop) s :
  (forall evs k, passes s evs k -> Q (Normal true) (noted evs k s)) ->
  (forall evs k, breaches s evs k ->
                 Q (Normal false) (running false (noted evs k s))) ->
  wp (checkTimeLimit env) Q s.
Proof.
  intros Hp Hb. unfold checkTimeLimit. run_monad.
  destruct (started s) as [t0|] eqn:Hs.
  2:{ rewrite <- (noted_nil s). apply Hp. constructor. now left. }
  destruct (limit s =? 0)%Z eqn:Hl.
  { rewrite <- (noted_nil s). apply Hp. constructor. right. now apply Z.eqb_eq. }
  apply Z.eqb_neq in Hl.
  destruct (1000 * limit s <=? clock env (readings s) - t0)%Z eqn:Hc.
  - apply Z.leb_le in Hc. exact (Hb _ _ (breaches_on s t0 Hs Hl Hc)).
  - apply Z.leb_gt in Hc. exact (Hp _ _ (passes_on s t0 Hs Hl Hc)).
Qed.

Lemma wp_debate_returnIfOverTime (Q : Signal unit -> State -> Prop) s :
  (forall evs k, passes s evs k -> Q (Normal tt) (noted evs k s)) ->
  (forall evs k, breaches s evs k -> Q Return (running false (noted evs k s))) ->
  wp (returnIfOverTime env) Q s.
Proof.
  intros Hp Hb. unfold returnIfOverTime. apply wp_bind, wp_debate_checkTimeLimit.
  - intros evs k H. apply Hp, H.
  - intros evs k H. apply Hb, H.
Qed.

Lemma wp_returnIfStopped (Q : Signal unit -> State -> Prop) s :
  (isRunning s = true -> Q (Normal tt) s) ->
  (isRunning s = false -> Q Return s) ->
  wp returnIfStopped Q s.
Proof.
  intros Hgo Hstop. unfold returnIfStopped. run_monad.
  destruct (isRunning s); [now apply Hgo | now apply Hstop].
Qed.

Definition spoken (who : string) (r : AIResponse) (t : Z) : ChatMessageDisplay :=
  {| sender := who; d_content := contentOrEmpty r; timestamp := t |}.

Lemma wp_speak who label thinking done api model messages temp
      (Q : Signal string -> State -> Prop) s :
  (success (respond env (requests s)) = true ->
   Q (Normal (contentOrEmpty (respond env (requests s))))
     (noted [OnStatusUpdate (Text done)] 0
        (published (spoken who (respond env (requests s)) (clock env (readings s)))
           (noted [] 1
              (asked env api model messages temp
                 (noted [OnStatusUpdate (Text thinking)] 0 s)))))) ->
  (success (respond env (requests s)) = false ->
   Q (Throw (ErrorObj (label ++ errorText (respond env (requests s)))%string))
     (asked env api model messages temp
        (noted [OnStatusUpdate (Text thinking)] 0 s))) ->
  wp (speak env who label thinking done api model messages temp) Q s.
Proof.
  intros Hok Hko. unfold speak, throwIfFailed. run_monad.
  cbn [requests readings].
  destruct (success (respond env (requests s))); [now apply Hok | now apply Hko].
Qed.

Ltac step :=
  first
    [ wp_enter
    | lazymatch goal with
      | |- wp (bind _ _) _ _ => apply wp_bind
      | |- wp returnIfStopped _ _ => apply wp_returnIfStopped; intros ?
      | |- wp (returnIfOverTime _) _ _ => apply wp_debate_returnIfOverTime; intros ? ? ?
      | |- wp (speakPro _ _ _) _ _ => unfold speakPro; apply wp_speak; intros ?
      | |- wp (speakCon _ _ _) _ _ => unfold speakCon; apply wp_speak; intros ?
      | |- wp (onStatusUpdate _) _ _ => apply wp_onStatusUpdate
      | |- wp (emit _) _ _ => apply wp_emit
      | |- wp (ret _) _ _ => apply wp_ret
      end ].

Ltac quieten :=
  repeat match goal with
         | H : passes _ _ _ |- _ => apply debate_passes_silent in H
         | H : breaches _ _ _ |- _ => apply debate_breaches_why in H; destruct H as (? & ?)
         end.

Ltac observe :=
  cbn [log isRunning history startTime limit requests readings
       logged running ticked asked published noted finish fresh] in *;
  repeat (progress
            (rewrite ?errors_silent, ?emitted_silent, ?transmitted_silent,
               ?completions_silent in *
               by first [assumption | reflexivity];
             cbn [errors emitted transmitted completions app] in * )).

Definition reply0 (s : State) : AIResponse := respond env (requests s).
Definition reply1 (s : State) : AIResponse := respond env (S (requests s)).

Definition turnCon (s : State) (t : Z) : ChatMessageDisplay := spoken "ai2" (reply0 s) t.
Definition turnPro (s : State) (t : Z) : ChatMessageDisplay := spoken "ai1" (reply1 s) t.

Definition rebutted (a : list Message) (s : State) : list Message :=
  a ++ [said assistant (contentOrEmpty (reply0 s)); said user rebutCon].

(** What one pass of the loop does, read off the code. *)
Definition roundPost (config : ChatConfig) (a m : list Message) (s : State)
           (sig : Signal (list Message * list Message)) (s' : State) : Prop :=
  errors (log s') = errors (log s)
  /\ completions (log s') = completions (log s)
  /\ limit s' = limit s /\ startTime s' = startTime s
  /\ exists new sent,
      history s' = history s ++ new
      /\ emitted (log s') = emitted (log s) ++ new
      /\ transmitted (log s') = transmitted (log s) ++ sent
      /\ requests s' = length sent + requests s
      /\ match sig with
         | Normal (a', m') =>
             exists t1 t2,
               new = [turnCon s t1; turnPro s t2]
               /\ sent = [(api2 config, m); (api1 config, a')]
               /\ success (reply0 s) = true /\ success (reply1 s) = true
               /\ isRunning s' = negb (stopDuring env (S (requests s)))
               /\ a' = rebutted a s
               /\ m' = m ++ [said assistant (contentOrEmpty (reply1 s));
                             said user rebutPro]
         | Return =>
             ((new = [] /\ sent = []
               /\ (limit s <> 0%Z \/ isRunning s = false))
              \/ (exists t1, new = [turnCon s t1] /\ sent = [(api2 config, m)]
                             /\ success (reply0 s) = true
                             /\ (limit s <> 0%Z
                                 \/ stopDuring env (requests s) = true)))
         | Throw e =>
             (new = [] /\ sent = [(api2 config, m)]
              /\ success (reply0 s) = false
              /\ e = ErrorObj (conFailed ++ errorText (reply0 s))%string)
             \/ (exists t1, new = [turnCon s t1]
                  /\ sent = [(api2 config, m); (api1 config, rebutted a s)]
                  /\ success (reply0 s) = true /\ success (reply1 s) = false
                  /\ e = ErrorObj (proFailed ++ errorText (reply1 s))%string)
         | Break => False
         end.

Ltac booleans :=
  repeat match goal with
         | H : context [isRunning ?s] |- _ => destruct (isRunning s)
         | H : context [stopDuring ?e ?n] |- _ => destruct (stopDuring e n)
         end;
  cbn [andb negb] in *; try discriminate; auto.

Lemma debate_round_spec config a m s :
  wp (round env config a m) (roundPost config a m s) s.
Proof.
  unfold round. cbv zeta. repeat step.
  all: unfold roundPost; quieten; observe.
  all: do 4 (split; [reflexivity|]).
  all: rewrite <- ?app_assoc; cbn [app].
  all: eexists; eexists;
    do 3 (split; [first [reflexivity | symmetry; apply app_nil_r]|]);
    (split; [reflexivity|]).
  all: unfold reply0, reply1, turnCon, turnPro, rebutted, said in *.
  all: first
         [ solve [do 2 eexists; repeat split; try reflexivity; try assumption;
                  booleans]
         | solve [left; repeat split; try reflexivity; try assumption; booleans]
         | solve [right; eexists; repeat split; try reflexivity; try assumption;
                  booleans] ].
Qed.

(** The texts of the turns [new], emitted from request number [from] on,
    are the replies to the requests in order. *)
Definition contents (from : nat) (new : list ChatMessageDisplay) : Prop :=
  map d_content new
  = map (fun j => contentOrEmpty (respond env j)) (seq from (length new)).

(** The speakers and the closing instructions of [n] rebuttal rounds. *)
Fixpoint alternate (n : nat) : list string :=
  match n with
  | O => []
  | S n' => "ai2"%string :: "ai1"%string :: alternate n'
  end.

Fixpoint rebuttals (n : nat) : list Message :=
  match n with
  | O => []
  | S n' => said user rebutPro :: said user rebutCon :: rebuttals n'
  end.

(** The most recent message of a transmitted list. *)
Definition trailing (messages : list Message) : Message :=
  last messages (said system EmptyString).

Definition failureLabel (position : nat) : string :=
  if Nat.even position then proFailed else conFailed.

Definition loopPost (n : nat) (m : list Message) (s : State)
           (sig : Signal unit) (s' : State) : Prop :=
  errors (log s') = errors (log s)
  /\ completions (log s') = completions (log s)
  /\ limit s' = limit s /\ startTime s' = startTime s
  /\ exists new sent,
      history s' = history s ++ new
      /\ emitted (log s') = emitted (log s) ++ new
      /\ transmitted (log s') = transmitted (log s) ++ sent
      /\ requests s' = length sent + requests s
      /\ length new <= 2 * n
      /\ contents (requests s) new
      /\ map sender new = firstn (length new) (alternate n)
      /\ (forall j, j < length new -> success (respond env (j + requests s)) = true)
      /\ (trailing m = said user rebutPro ->
          map (fun c => trailing (snd c)) sent = firstn (length sent) (rebuttals n))
      /\ match sig with
         | Normal _ => length new = 2 * n /\ length sent = 2 * n
         | Return =>
             length sent = length new
             /\ (limit s <> 0%Z \/ isRunning s = false
                 \/ exists j, stopDuring env j = true)
         | Throw e =>
             length sent = S (length new)
             /\ success (respond env (length new + requests s)) = false
             /\ e = ErrorObj (failureLabel (S (length new))
                              ++ errorText (respond env (length new + requests s)))%string
         | Break => False
         end.

Lemma trailing_app m x y : trailing (m ++ [x; y]) = y.
Proof.
  unfold trailing. induction m as [|z m IH]; [reflexivity|].
  cbn [app]. destruct (m ++ [x; y]) eqn:E; [now destruct m|].
  cbn [last]. exact IH.
Qed.

Lemma debate_contents_app from new1 new2 :
  contents from new1 -> contents (length new1 + from) new2 ->
  contents from (new1 ++ new2).
Proof.
  unfold contents. intros H1 H2.
  rewrite map_app, length_app, seq_app, map_app, H1.
  f_equal. rewrite H2. now rewrite Nat.add_comm.
Qed.

Lemma debate_loop_spec config n : forall a m s,
  wp (loop env config n a m) (loopPost n m s) s.
Proof.
  induction n as [|n IH]; intros a m s.
  - apply wp_ret. unfold loopPost. do 4 (split; [reflexivity|]).
    exists [], []. rewrite !app_nil_r. repeat split; auto.
    intros j Hj. inversion Hj.
  - cbn [loop]. apply wp_bind.
    apply (wp_mono _ _ _ _ (debate_round_spec config a m s)).
    intros sig s1 (He & Hc & Hl & Ht & new & sent & Hh & Hm & Htr & Hr & Hsig).
    destruct sig as [[a' m']| | |e]; wp_enter.
    + destruct Hsig as (t1 & t2 & -> & -> & Hs0 & Hs1 & Hrun & -> & ->).
      cbn [fst snd].
      apply (wp_mono _ _ _ _ (IH _ _ s1)).
      intros sig s2 (He2 & Hc2 & Hl2 & Ht2 & new2 & sent2 & Hh2 & Hm2 & Htr2 & Hr2
                     & Hlen & Hcon & Hsend & Hok & Hreb & Hsig2).
      unfold loopPost.
      rewrite He2, Hc2, Hl2, Ht2, Hh2, Hm2, Htr2, Hr2, Hh, Hm, Htr, Hr, <- !app_assoc.
      do 4 (split; [auto|]).
      eexists. eexists. do 3 (split; [reflexivity|]).
      rewrite !length_app. cbn [length app].
      split; [lia|]. split; [lia|]. split.
      { apply (debate_contents_app _ [turnCon s t1; turnPro s t2] new2); [reflexivity|].
        now rewrite Hr in Hcon. }
      split. { cbn [map firstn alternate sender turnCon turnPro spoken]. now rewrite Hsend. }
      split.
      { intros [|[|j]] Hj; [exact Hs0 | exact Hs1 |].
        specialize (Hok j ltac:(lia)). rewrite Hr in Hok. cbn [length] in Hok.
        now replace (S (S j) + requests s) with (j + (2 + requests s)) by lia. }
      split.
      { intros Hm0. cbn [map firstn rebuttals snd]. rewrite Hm0.
        unfold rebutted. rewrite trailing_app.
        rewrite Hreb by apply trailing_app. reflexivity. }
      destruct sig as [u| | |e].
      * lia.
      * contradiction.
      * destruct Hsig2 as [Hls Hwhy]. split; [lia|].
        rewrite Hl in Hwhy. destruct Hwhy as [Hw|[Hw|Hw]]; auto.
        right. right. exists (S (requests s)).
        rewrite Hw in Hrun. now destruct (stopDuring env (S (requests s))).
      * destruct Hsig2 as (Hls & Hfail & ->). rewrite Hr in Hfail.
        cbn [length] in Hfail.
        replace (2 + length new2 + requests s)
          with (length new2 + (2 + requests s)) by lia.
        split; [lia|]. split; [exact Hfail|]. rewrite Hr. reflexivity.
    + contradiction.
    + unfold loopPost. do 4 (split; [auto|]). exists new, sent.
      do 4 (split; [auto|]).
      destruct Hsig as [(-> & -> & Hwhy)|(t1 & -> & -> & Hs0 & Hwhy)]; cbn [length].
      * split; [lia|]. split; [reflexivity|]. split; [reflexivity|].
        split. { intros j Hj. inversion Hj. }
        split. { intros _. reflexivity. }
        split; [reflexivity|]. destruct Hwhy; auto.
      * split; [lia|]. split; [reflexivity|]. split; [reflexivity|].
        split. { intros [|j] Hj; [exact Hs0 | lia]. }
        split. { intros Hm0. cbn [map firstn rebuttals snd]. now rewrite Hm0. }
        split; [reflexivity|]. destruct Hwhy; eauto.
    + unfold loopPost. do 4 (split; [auto|]). exists new, sent.
      do 4 (split; [auto|]).
      destruct Hsig as [(-> & -> & Hs0 & ->)|(t1 & -> & -> & Hs0 & Hs1 & ->)];
        cbn [length].
      * split; [lia|]. split; [reflexivity|]. split; [reflexivity|].
        split. { intros j Hj. inversion Hj. }
        split. { intros Hm0. cbn [map firstn rebuttals snd]. now rewrite Hm0. }
        split; [reflexivity|]. split; [exact Hs0|]. reflexivity.
      * split; [lia|]. split; [reflexivity|]. split; [reflexivity|].
        split. { intros [|j] Hj; [exact Hs0 | lia]. }
        split. { intros Hm0. cbn [map firstn rebuttals snd]. rewrite Hm0.
                 unfold rebutted. now rewrite trailing_app. }
        split; [reflexivity|]. split; [exact Hs1|]. reflexivity.
Qed.

Ltac step_more :=
  first
    [ step
    | lazymatch goal with
      | |- wp get _ _ => apply wp_get
      | |- wp (now _) _ _ => apply wp_now
      | |- wp (throw _) _ _ => apply wp_throw
      | |- wp return_ _ _ => apply wp_return
      | |- wp (setRunning _) _ _ => apply wp_setRunning
      | |- wp (setHistory _) _ _ => unfold setHistory; apply wp_modify; cbv beta
      | |- wp (setStartTime _) _ _ => unfold setStartTime; apply wp_modify; cbv beta
      | |- wp (setLimit _) _ _ => unfold setLimit; apply wp_modify; cbv beta
      | |- wp (endCall _) _ _ => apply wp_endCall
      | |- wp (tryCatch _ _) _ _ => apply wp_tryCatch
      | |- wp (tryFinally _ _) _ _ => apply wp_tryFinally
      | |- wp (if _ then _ else _) _ _ => apply wp_if; intros ?
      end ].

Definition openingInstruction (config : ChatConfig) : Message :=
  said user ("请开始你的辩论，支持这个观点：" ++ topic config)%string.

(** What a call of [startDebate] that gets past its two guards leaves
    behind: the turns, the requests, and one of three endings. *)
Definition debated (config : ChatConfig) (s' : State) : Prop :=
  let n := Z.to_nat (rounds config - 1) in
  let turns := emitted (log s') in
  history s' = turns
  /\ isRunning s' = false
  /\ startTime s' = None
  /\ length turns <= 1 + 2 * n
  /\ contents 0 turns
  /\ map sender turns = firstn (length turns) ("ai1"%string :: alternate n)
  /\ (forall j, j < length turns -> success (respond env j) = true)
  /\ requests s' = length (transmitted (log s'))
  /\ map (fun c => trailing (snd c)) (transmitted (log s'))
     = firstn (requests s') (openingInstruction config :: rebuttals n)
  /\ ((errors (log s') = [] /\ completions (log s') = 1
       /\ length turns = 1 + 2 * n /\ requests s' = 1 + 2 * n)
      \/ (errors (log s') = [] /\ completions (log s') = 0
          /\ requests s' = length turns
          /\ (timeLimit config <> 0%Z \/ exists j, stopDuring env j = true))
      \/ (completions (log s') = 0
          /\ requests s' = S (length turns)
          /\ success (respond env (length turns)) = false
          /\ errors (log s')
             = [(failureLabel (length turns)
                 ++ errorText (respond env (length turns)))%string])).

Definition startDebatePost (config : ChatConfig) (this s' : State) : Prop :=
  if isRunning this then
    log s' = [OnError "辩论已经在进行中"]
    /\ isRunning s' = true /\ history s' = history this
    /\ startTime s' = startTime this
  else if Js.truthy (Js.trim (topic config)) then debated config s'
  else
    log s' = [OnError "请输入辩论主题"]
    /\ isRunning s' = false /\ history s' = [] /\ startTime s' = None.

Lemma startDebate_spec config this :
  startDebatePost config this (run env config this).
Proof.
  change (wp (startDebate env config) (fun _ s' => startDebatePost config this s')
             (fresh this)).
  unfold startDebate, startDebatePost. apply wp_endCall, wp_bind, wp_get. wp_enter.
  cbn [fresh isRunning]. destruct (isRunning this) eqn:Hrun.
  { apply wp_bind, wp_emit. wp_enter. apply wp_return.
    cbn [logged fresh log isRunning history startTime]. auto. }
  repeat step_more. unfold debate. cbv zeta.
  apply wp_bind, wp_if; intros Htopic; rewrite Htopic.
  2:{ apply wp_throw. wp_enter. apply wp_emit.
      cbn [finish logged log history isRunning startTime messageOr fresh]. auto. }
  apply wp_ret. wp_enter. repeat step.
  2:{ (* the opening request fails *)
      apply wp_emit. unfold debated. cbv zeta. observe.
      cbn [finish log history isRunning startTime requests fresh messageOr] in *.
      cbn [errors emitted transmitted completions app length map firstn snd].
      do 6 (split; [first [reflexivity | lia]|]).
      split. { intros j Hj. inversion Hj. }
      split; [reflexivity|]. split; [reflexivity|].
      right. right. repeat split; auto. }
  match goal with
  | |- wp (loop _ _ ?n ?a ?m) _ ?s0 =>
      apply (wp_mono _ _ _ _ (debate_loop_spec config n a m s0))
  end.
  intros sig s1 (He & Hc & Hl & Ht & new & sent & Hh & Hm & Htr & Hr & Hlen & Hcon
                 & Hsend & Hok & Hreb & Hsig).
  specialize (Hreb (trailing_app _ _ _)).
  observe. cbn [fresh log history requests readings isRunning] in *.
  cbn [errors emitted transmitted completions app length] in *.
  assert (Hcon' : contents 0 (spoken "ai1" (respond env 0) (clock env 1) :: new)).
  { apply (debate_contents_app 0 [spoken "ai1" (respond env 0) (clock env 1)] new);
      [reflexivity | exact Hcon]. }
  assert (Hok' : forall j, j < S (length new) -> success (respond env j) = true).
  { intros [|j] Hj; [assumption|]. specialize (Hok j ltac:(lia)).
    now rewrite Nat.add_1_r in Hok. }
  assert (Hshape : forall s2,
             history s2 = history s1 -> emitted (log s2) = emitted (log s1) ->
             transmitted (log s2) = transmitted (log s1) ->
             requests s2 = requests s1 ->
             history (finish s2) = emitted (log (finish s2))
             /\ isRunning (finish s2) = false
             /\ startTime (finish s2) = None
             /\ length (emitted (log (finish s2))) <= 1 + 2 * Z.to_nat (rounds config - 1)
             /\ contents 0 (emitted (log (finish s2)))
             /\ map sender (emitted (log (finish s2)))
                = firstn (length (emitted (log (finish s2))))
                         ("ai1"%string :: alternate (Z.to_nat (rounds config - 1)))
             /\ (forall j, j < length (emitted (log (finish s2))) ->
                           success (respond env j) = true)
             /\ requests (finish s2) = length (transmitted (log (finish s2)))
             /\ map (fun c => trailing (snd c)) (transmitted (log (finish s2)))
                = firstn (requests (finish s2))
                         (openingInstruction config
                          :: rebuttals (Z.to_nat (rounds config - 1)))).
  { intros s2 E1 E2 E3 E4. cbn [finish log history isRunning startTime requests].
    rewrite E1, E2, E3, E4, Hh, Hm, Htr, Hr.
    cbn [length map firstn sender spoken snd].
    rewrite Nat.add_1_r. cbn [firstn]. rewrite Hsend, Hreb.
    change (trailing (initialAi1Messages env config)) with (openingInstruction config).
    do 3 (split; [reflexivity|]). split; [lia|]. split; [exact Hcon'|].
    split; [reflexivity|]. split; [exact Hok'|]. split; reflexivity. }
  destruct sig as [u| | |e].
  - wp_enter. apply wp_bind, wp_onStatusUpdate. wp_enter. apply wp_emit.
    unfold debated. cbv zeta.
    match goal with
    | |- context [finish ?s2] =>
        destruct (Hshape s2 eq_refl eq_refl eq_refl eq_refl)
          as (S1 & S2 & S3 & S4 & S5 & S6 & S7 & S8 & S9)
    end.
    do 9 (split; [assumption|]). left.
    cbn [finish log logged errors completions emitted requests].
    rewrite He, Hc, Hm, Hr. cbn [length]. repeat split; auto; lia.
  - contradiction.
  - unfold debated. cbv zeta.
    destruct (Hshape s1 eq_refl eq_refl eq_refl eq_refl)
      as (S1 & S2 & S3 & S4 & S5 & S6 & S7 & S8 & S9).
    do 9 (split; [assumption|]). right. left.
    cbn [finish log errors completions emitted requests].
    rewrite He, Hc, Hm, Hr. cbn [length]. destruct Hsig as [Hls Hwhy].
    repeat split; auto; try lia.
    destruct Hwhy as [Hw|[Hw|Hw]]; auto.
    right. exists 0. now destruct (stopDuring env 0).
  - apply wp_emit. unfold debated. cbv zeta.
    match goal with
    | |- context [finish ?s2] =>
        destruct (Hshape s2 eq_refl eq_refl eq_refl eq_refl)
          as (S1 & S2 & S3 & S4 & S5 & S6 & S7 & S8 & S9)
    end.
    do 9 (split; [assumption|]). right. right.
    cbn [finish log logged errors completions emitted requests].
    rewrite He, Hc, Hm, Hr. cbn [length app]. destruct Hsig as (Hls & Hfail & ->).
    rewrite Nat.add_1_r in Hfail. cbn [messageOr].
    rewrite !Nat.add_1_r. repeat split; auto; lia.
Qed.

(** *** The discipline of the time limit in a debate *)

Lemma wp_debate_returnIfOverTime_on (Q : Signal unit -> State -> Prop) s t0 :
  started s = Some t0 -> limit s <> 0%Z ->
  (forall e, (1000 * limit s <=? e)%Z = false ->
             Q (Normal tt) (noted [TimeCheck e] 1 s)) ->
  (forall e, (1000 * limit s <=? e)%Z = true ->
             Q Return
               (running false
                  (noted [OnStatusUpdate (Text "辩论时间已达限制"); TimeCheck e] 1 s))) ->
  wp (returnIfOverTime env) Q s.
Proof.
  intros Hs Hl Hp Hb. apply wp_debate_returnIfOverTime.
  - intros evs k [[H|H]|t1 H1 H2 H3]; [congruence | contradiction |].
    apply Hp. now apply Z.leb_gt.
  - intros evs k [t1 H1 H2 H3]. apply Hb. now apply Z.leb_le.
Qed.

Ltac step_on Hs Hl :=
  first
    [ wp_enter
    | lazymatch goal with
      | |- wp (bind _ _) _ _ => apply wp_bind
      | |- wp returnIfStopped _ _ => apply wp_returnIfStopped; intros ?
      | |- wp (returnIfOverTime _) _ _ =>
          eapply wp_debate_returnIfOverTime_on; [exact Hs | exact Hl | intros ? ? | intros ? ?]
      | |- wp (speakPro _ _ _) _ _ => unfold speakPro; apply wp_speak; intros ?
      | |- wp (speakCon _ _ _) _ _ => unfold speakCon; apply wp_speak; intros ?
      | |- wp (onStatusUpdate _) _ _ => apply wp_onStatusUpdate
      | |- wp (emit _) _ _ => apply wp_emit
      | |- wp (ret _) _ _ => apply wp_ret
      end ].

Definition watchedPost {A} (s : State) (sig : Signal A) (s' : State) : Prop :=
  limit s' = limit s /\ startTime s' = startTime s
  /\ match sig with
     | Normal _ | Throw _ => verdict (limit s) false Passed (log s') = Due
     | Return => verdict (limit s) false Passed (log s') = Over
                 \/ verdict (limit s) false Passed (log s') = Passed
     | Break => False
     end.

Lemma debate_round_watched config a m s t0 :
  started s = Some t0 -> limit s <> 0%Z ->
  verdict (limit s) false Passed (log s) = Due ->
  wp (round env config a m) (watchedPost s) s.
Proof.
  intros Hs Hl Hv. unfold round. cbv zeta. repeat (step_on Hs Hl).
  all: unfold watchedPost;
    cbn [log isRunning history startTime limit requests readings
         logged running ticked asked published noted app] in *.
  all: do 2 (split; [reflexivity|]).
  all: judge; auto.
Qed.

Lemma debate_loop_watched config n : forall a m s t0,
  started s = Some t0 -> limit s <> 0%Z ->
  verdict (limit s) false Passed (log s) = Due ->
  wp (loop env config n a m) (watchedPost s) s.
Proof.
  induction n as [|n IH]; intros a m s t0 Hs Hl Hv.
  - apply wp_ret. now repeat split.
  - cbn [loop]. apply wp_bind.
    apply (wp_mono _ _ _ _ (debate_round_watched config a m s t0 Hs Hl Hv)).
    intros sig s1 (Hl1 & Ht1 & Hv1).
    destruct sig as [[a' m']| | |e]; wp_enter; try (now repeat split).
    cbn [fst snd].
    assert (Hs1 : started s1 = Some t0) by (unfold started in *; now rewrite Ht1).
    rewrite <- Hl1 in Hv1, Hl.
    apply (wp_mono _ _ _ _ (IH a' m' s1 t0 Hs1 Hl Hv1)).
    intros sig s2 (Hl2 & Ht2 & Hv2). rewrite Hl1 in *.
    split; [congruence|]. split; [congruence|]. exact Hv2.
Qed.

Ltac settle :=
  cbn [finish fresh log logged noted asked published running ticked app
       isRunning history startTime limit requests readings] in *;
  judge; discriminate.

Lemma startDebate_watched config this :
  timeLimit config <> 0%Z -> clock env 0 <> 0%Z ->
  verdict (timeLimit config) false Passed (log (run env config this)) <> Bad.
Proof.
  intros Hl Hc.
  change (wp (startDebate env config)
             (fun _ s' => verdict (timeLimit config) false Passed (log s') <> Bad)
             (fresh this)).
  unfold startDebate. apply wp_endCall, wp_bind, wp_get. wp_enter.
  apply wp_if; intros Hrun.
  { apply wp_bind, wp_emit. wp_enter. apply wp_return. discriminate. }
  repeat step_more. unfold debate. cbv zeta.
  apply wp_bind, wp_if; intros Htopic.
  2:{ apply wp_throw. wp_enter. apply wp_emit. settle. }
  apply wp_ret. wp_enter. repeat step.
  2:{ apply wp_emit. settle. }
  match goal with
  | |- wp (loop _ _ ?n ?a ?m) _ ?s0 =>
      assert (Hs : started s0 = Some (clock env 0))
        by (unfold started;
            cbn [startTime fresh readings running ticked logged isRunning asked
                 published noted];
            destruct (Z.eqb_spec (clock env 0) 0); [contradiction | reflexivity]);
      apply (wp_mono _ _ _ _ (debate_loop_watched config n a m s0 _ Hs Hl
                                ltac:(cbn [log logged noted asked published limit app];
                                      judge; reflexivity)))
  end.
  cbn [limit logged noted asked published].
  intros sig s1 (Hl1 & Ht1 & Hv).
  destruct sig as [u| | |e]; wp_enter.
  - apply wp_bind, wp_onStatusUpdate. wp_enter. apply wp_emit.
    settle.
  - contradiction.
  - destruct Hv as [Hv|Hv]; settle.
  - apply wp_emit. settle.
Qed.


(** *** The loop inside a call *)

Definition afterOpening (config : ChatConfig) : list Message :=
  initialAi2Messages env config
  ++ [said assistant (contentOrEmpty (respond env 0)); said user rebutPro].

(** A call of [startDebate] that gets past its guards and whose opening
    request succeeds runs the loop from a state [s0] in which the opening
    turn is the only one, and adds no turn and no request after it. *)
Definition framed (config : ChatConfig) (s' : State) : Prop :=
  exists s0 sig s1 tail,
    emitted (log s0) = [spoken "ai1" (respond env 0) (clock env 1)]
    /\ transmitted (log s0) = [(api1 config, initialAi1Messages env config)]
    /\ pace (log s0) = Answered 1
    /\ requests s0 = 1
    /\ isRunning s0 = negb (stopDuring env 0)
    /\ limit s0 = timeLimit config /\ startTime s0 = Some (clock env 0)
    /\ loop env config (Z.to_nat (rounds config - 1))
            (initialAi1Messages env config) (afterOpening config) s0
       = (sig, s1)
    /\ aside tail
    /\ log s' = tail ++ log s1.

(** The same call when the opening request fails. *)
Definition refused (config : ChatConfig) (s' : State) : Prop :=
  exists pre,
    silent pre
    /\ log s'
       = OnError (proFailed ++ errorText (respond env 0))%string
         :: Called (api1 config) (model1 config) (initialAi1Messages env config)
                   (temperature config)
         :: pre.

Lemma startDebate_frame config this :
  isRunning this = false -> Js.truthy (Js.trim (topic config)) = true ->
  if success (respond env 0)
  then framed config (run env config this)
  else refused config (run env config this).
Proof.
  intros Hrun Htopic.
  change (wp (startDebate env config)
             (fun _ s' => if success (respond env 0)
                          then framed config s' else refused config s')
             (fresh this)).
  unfold startDebate. apply wp_endCall, wp_bind, wp_get. wp_enter.
  cbn [fresh isRunning]. rewrite Hrun. repeat step_more.
  unfold debate. cbv zeta. rewrite Htopic. repeat step_more.
  2:{ cbn [requests fresh running ticked logged noted] in *.
      match goal with H : success _ = false |- _ => rewrite H end.
      apply wp_emit. eexists. split; [|reflexivity]. reflexivity. }
  cbn [requests fresh running ticked logged noted] in *.
  match goal with H : success _ = true |- _ => rewrite H end.
  apply (wp_mono _ _ _ _ (wp_run _ _)); intros sig s1 Hloop.
  destruct sig as [u| | |e];
    repeat first [step_more | progress cbv beta iota].
  all: match type of Hloop with
       | loop _ _ _ _ _ ?s0 = (?sig, _) => exists s0, sig, s1
       end.
  all: cbn [log isRunning history startTime limit requests readings
            logged running ticked finish fresh noted asked published
            emitted transmitted pace pace1 app andb].
  all: first [ exists []; solve [repeat split; try reflexivity; exact Hloop]
             | eexists [_]; solve [repeat split; try reflexivity; exact Hloop]
             | eexists [_; _]; solve [repeat split; try reflexivity; exact Hloop] ].
Qed.

Lemma debate_guards config this :
  (isRunning this = false /\ Js.truthy (Js.trim (topic config)) = true)
  \/ (isRunning this = true \/ Js.truthy (Js.trim (topic config)) = false).
Proof.
  destruct (isRunning this); [right; now left|].
  destruct (Js.truthy (Js.trim (topic config))); [left; now split | right; now right].
Qed.

(** The log of a call that did not get past a guard: one error. *)
Lemma startDebate_guarded config this :
  isRunning this = true \/ Js.truthy (Js.trim (topic config)) = false ->
  exists message, log (run env config this) = [OnError message].
Proof.
  intros H. pose proof (startDebate_spec config this) as Hspec.
  unfold startDebatePost in Hspec.
  destruct (isRunning this); [destruct Hspec as (-> & _); eauto|].
  destruct H as [H|H]; [discriminate|]. rewrite H in Hspec.
  destruct Hspec as (-> & _); eauto.
Qed.

(** *** Stopping a debate *)

Definition stopPost (s : State) (sig : Signal (list Message * list Message))
           (s' : State) : Prop :=
  exists new,
    emitted (log s') = emitted (log s) ++ new
    /\ match sig with
       | Normal _ =>
           length new = 2 /\ requests s' = S (S (requests s))
           /\ isRunning s = true
           /\ stopDuring env (requests s) = false
           /\ isRunning s' = negb (stopDuring env (S (requests s)))
       | Return | Throw _ =>
           length new <= 1 /\ (length new = 1 -> isRunning s = true)
       | Break => False
       end.

Lemma debate_round_stops config a m s :
  wp (round env config a m) (stopPost s) s.
Proof.
  unfold round. cbv zeta. repeat step.
  all: unfold stopPost; quieten; observe.
  all: rewrite <- ?app_assoc; cbn [app].
  all: first [ eexists; split; [reflexivity |]
             | exists []; split; [now rewrite app_nil_r |] ].
  all: cbn [length]; booleans; try (split; [lia | intros; first [lia | reflexivity]]).
Qed.

Definition stopLoopPost (s : State) (sig : Signal unit) (s' : State) : Prop :=
  exists new,
    emitted (log s') = emitted (log s) ++ new
    /\ (isRunning s = false -> new = [])
    /\ forall j, stopDuring env j = true -> requests s <= j ->
                 length new <= S j - requests s.

Lemma debate_loop_stops config n : forall a m s,
  wp (loop env config n a m) (stopLoopPost s) s.
Proof.
  induction n as [|n IH]; intros a m s.
  - apply wp_ret. exists []. split; [now rewrite app_nil_r|].
    split; [reflexivity|]. intros; cbn [length]; lia.
  - cbn [loop]. apply wp_bind.
    apply (wp_mono _ _ _ _ (debate_round_stops config a m s)).
    intros sig s1 (new & Hm & Hsig).
    assert (Hshort : length new <= 1 /\ (length new = 1 -> isRunning s = true) ->
              stopLoopPost s (match sig with Normal _ => Normal tt | Break => Break
                                        | Return => Return | Throw e => Throw e end) s1).
    { intros [Hlen Hwhy]. exists new. split; [exact Hm|]. split.
      - intros Hoff. destruct new as [|x [|y new]]; [reflexivity | | cbn [length] in Hlen; lia].
        rewrite Hwhy in Hoff by reflexivity. discriminate.
      - intros j Hj Hle. lia. }
    destruct sig as [[a' m']| | |e]; wp_enter;
      [| contradiction | exact (Hshort Hsig) | exact (Hshort Hsig)].
    destruct Hsig as (Hlen & Hr & Hon & Hs0 & Hrun1). cbn [fst snd].
    apply (wp_mono _ _ _ _ (IH a' m' s1)).
    intros sig s2 (new2 & Hm2 & Hoff & Hstop). exists (new ++ new2).
    split; [now rewrite Hm2, Hm, app_assoc|]. split; [congruence|].
    intros j Hj Hle. rewrite length_app, Hlen.
    assert (j <> requests s) by congruence.
    destruct (Nat.eq_dec j (S (requests s))) as [->|Hne].
    + rewrite Hj in Hrun1. rewrite (Hoff Hrun1). cbn [length]. lia.
    + specialize (Hstop j Hj). rewrite Hr in Hstop. lia.
Qed.

Lemma stop_cuts_debate config this j :
  stopDuring env j = true ->
  length (emitted (log (run env config this))) <= S j.
Proof.
  intros Hj. destruct (debate_guards config this) as [[Hrun Htopic]|Hg].
  2:{ destruct (startDebate_guarded config this Hg) as [message ->]. cbn. lia. }
  pose proof (startDebate_frame config this Hrun Htopic) as Hf.
  destruct (success (respond env 0)).
  2:{ destruct Hf as (pre & Hsil & ->). cbn [emitted].
      rewrite (emitted_quiet _ Hsil). cbn. lia. }
  destruct Hf as (s0 & sig & s1 & tail & Hm0 & _ & _ & Hreq & Hrun0 & _ & _
                  & Hloop & Htail & Hlog).
  pose proof (debate_loop_stops config (Z.to_nat (rounds config - 1))
                (initialAi1Messages env config) (afterOpening config) s0) as Hw.
  unfold wp in Hw. rewrite Hloop in Hw. cbn [fst snd] in Hw.
  destruct Hw as (new & Hnew & Hoff & Hstop).
  rewrite Hlog, (emitted_aside _ _ Htail), Hnew, Hm0. cbn [app length].
  destruct j as [|j].
  - rewrite Hj in Hrun0. rewrite (Hoff Hrun0). cbn [length]. lia.
  - specialize (Hstop (S j) Hj). rewrite Hreq in Hstop. lia.
Qed.

(** A stop during the opening request does not withhold the opening turn. *)
Lemma stop_keeps_opening config this :
  isRunning this = false -> Js.truthy (Js.trim (topic config)) = true ->
  stopDuring env 0 = true -> success (respond env 0) = true ->
  map d_content (emitted (log (run env config this)))
  = [contentOrEmpty (respond env 0)].
Proof.
  intros Hrun Htopic Hstop Hok.
  pose proof (startDebate_frame config this Hrun Htopic) as Hf. rewrite Hok in Hf.
  destruct Hf as (s0 & sig & s1 & tail & Hm0 & _ & _ & Hreq & Hrun0 & _ & _
                  & Hloop & Htail & Hlog).
  pose proof (debate_loop_stops config (Z.to_nat (rounds config - 1))
                (initialAi1Messages env config) (afterOpening config) s0) as Hw.
  unfold wp in Hw. rewrite Hloop in Hw. cbn [fst snd] in Hw.
  destruct Hw as (new & Hnew & Hoff & _).
  rewrite Hstop in Hrun0. rewrite (Hoff Hrun0) in Hnew.
  rewrite Hlog, (emitted_aside _ _ Htail), Hnew, Hm0. reflexivity.
Qed.

(** *** Requests and turns of a debate alternate *)

Definition pacedPost {A} (q : nat) (sig : Signal A) (s' : State) : Prop :=
  match sig with
  | Normal _ => pace (log s') = Answered (S (S q))
  | Break => False
  | _ => pace (log s') <> OutOfStep
  end.

Lemma debate_round_paced config a m s q :
  pace (log s) = Answered q ->
  wp (round env config a m) (pacedPost q) s.
Proof.
  intros Hq. unfold round. cbv zeta. repeat step.
  all: unfold pacedPost; quieten.
  all: cbn [log isRunning history startTime limit requests readings
            logged running ticked asked published noted] in *.
  all: in_step; try reflexivity; discriminate.
Qed.

Lemma debate_loop_paced config n : forall a m s q,
  pace (log s) = Answered q ->
  wp (loop env config n a m) (fun _ s' => pace (log s') <> OutOfStep) s.
Proof.
  induction n as [|n IH]; intros a m s q Hq.
  - apply wp_ret. rewrite Hq. discriminate.
  - cbn [loop]. apply wp_bind.
    apply (wp_mono _ _ _ _ (debate_round_paced config a m s q Hq)).
    intros sig s1 H1. destruct sig as [[a' m']| | |e]; wp_enter;
      [| contradiction | exact H1 | exact H1].
    cbn [fst snd]. exact (IH _ _ s1 _ H1).
Qed.

Lemma debate_in_step config this :
  pace (log (run env config this)) <> OutOfStep.
Proof.
  destruct (debate_guards config this) as [[Hrun Htopic]|Hg].
  2:{ destruct (startDebate_guarded config this Hg) as [message ->]. discriminate. }
  pose proof (startDebate_frame config this Hrun Htopic) as Hf.
  destruct (success (respond env 0)).
  2:{ destruct Hf as (pre & Hsil & ->). cbn [pace].
      rewrite (pace_quiet _ Hsil). discriminate. }
  destruct Hf as (s0 & sig & s1 & tail & _ & _ & Hp0 & _ & _ & _ & _
                  & Hloop & Htail & Hlog).
  pose proof (debate_loop_paced config (Z.to_nat (rounds config - 1))
                (initialAi1Messages env config) (afterOpening config) s0 1 Hp0) as Hw.
  unfold wp in Hw. rewrite Hloop in Hw. cbn [fst snd] in Hw.
  now rewrite Hlog, (pace_aside _ _ Htail).
Qed.

(** *** Every request of a debate *)

(** The text of the reply to request [j]. *)
Definition text (j : nat) : string := contentOrEmpty (respond env j).

(** What AI 1 and AI 2 have been sent behind their first two entries
    after [k] utterances of the other side: each utterance, and the
    instruction to rebut it. *)
Definition heard1 (k : nat) : list Message :=
  flat_map (fun j => [said assistant (text (2 * j + 1)); said user rebutCon])
           (seq 0 k).

Definition heard2 (k : nat) : list Message :=
  flat_map (fun j => [said assistant (text (2 * j)); said user rebutPro])
           (seq 0 k).

(** Request number [i] of a run: to whom it goes, and with what. *)
Definition expectedCall (config : ChatConfig) (i : nat)
  : string * string * list Message :=
  if Nat.even i
  then (api1 config, model1 config,
        initialAi1Messages env config ++ heard1 (Nat.div2 i))
  else (api2 config, model2 config,
        initialAi2Messages env config ++ heard2 (S (Nat.div2 i))).

Lemma heard1_S k :
  heard1 (S k) = heard1 k ++ [said assistant (text (2 * k + 1)); said user rebutCon].
Proof.
  unfold heard1. rewrite seq_S, flat_map_app. cbn [flat_map Nat.add].
  now rewrite app_nil_r.
Qed.

Lemma heard2_S k :
  heard2 (S k) = heard2 k ++ [said assistant (text (2 * k)); said user rebutPro].
Proof.
  unfold heard2. rewrite seq_S, flat_map_app. cbn [flat_map Nat.add].
  now rewrite app_nil_r.
Qed.

Definition roundCalls (config : ChatConfig) (a m : list Message) (s : State)
  : list (string * string * list Message) :=
  [(api2 config, model2 config, m); (api1 config, model1 config, rebutted a s)].

Definition callsPost (config : ChatConfig) (a m : list Message) (s : State)
           (sig : Signal (list Message * list Message)) (s' : State) : Prop :=
  exists k,
    calls (log s') = calls (log s) ++ firstn k (roundCalls config a m s)
    /\ requests s' = k + requests s
    /\ k <= 2
    /\ match sig with
       | Normal (a', m') =>
           k = 2 /\ a' = rebutted a s
           /\ m' = m ++ [said assistant (contentOrEmpty (reply1 s));
                         said user rebutPro]
       | _ => True
       end.

Ltac observe_calls :=
  cbn [log isRunning history startTime limit requests readings
       logged running ticked asked published noted finish fresh] in *;
  repeat (progress
            (rewrite ?calls_silent in * by first [assumption | reflexivity];
             cbn [calls app] in * )).

Lemma debate_round_calls config a m s :
  wp (round env config a m) (callsPost config a m s) s.
Proof.
  unfold round. cbv zeta. repeat step.
  all: unfold callsPost, roundCalls, rebutted, reply0, reply1; quieten;
    observe_calls.
  all: rewrite <- ?app_assoc; cbn [app].
  all: first [ exists 0; split; [symmetry; apply app_nil_r | now auto]
             | exists 1; split; [reflexivity | now auto]
             | exists 2; split; [reflexivity | now auto] ].
Qed.

Lemma roundCalls_expected config k s i :
  requests s = 2 * k + 1 -> i < 2 ->
  nth_error (roundCalls config (initialAi1Messages env config ++ heard1 k)
                        (initialAi2Messages env config ++ heard2 (S k)) s) i
  = Some (expectedCall config (2 * k + 1 + i)).
Proof.
  intros Hq Hi. unfold roundCalls, rebutted, reply0. rewrite Hq.
  unfold expectedCall.
  destruct i as [|[|i]]; [| |lia].
  - rewrite Nat.add_0_r, (ChatFacts.even_double_plus k 1),
      (ChatFacts.div2_double_plus k 1) by lia. reflexivity.
  - replace (2 * k + 1 + 1) with (2 * S k + 0) by lia.
    rewrite (ChatFacts.even_double_plus (S k) 0),
      (ChatFacts.div2_double_plus (S k) 0) by lia.
    cbn [nth_error Nat.even]. rewrite heard1_S, app_assoc. reflexivity.
Qed.

Definition callsLoopPost (config : ChatConfig) (k : nat) (s : State)
           (sig : Signal unit) (s' : State) : Prop :=
  exists sent,
    calls (log s') = calls (log s) ++ sent
    /\ requests s' = length sent + requests s
    /\ forall i, i < length sent ->
                 nth_error sent i = Some (expectedCall config (2 * k + 1 + i)).

Lemma debate_loop_calls config n : forall k s,
  requests s = 2 * k + 1 ->
  wp (loop env config n (initialAi1Messages env config ++ heard1 k)
           (initialAi2Messages env config ++ heard2 (S k)))
     (callsLoopPost config k s) s.
Proof.
  induction n as [|n IH]; intros k s Hq.
  - apply wp_ret. exists []. split; [now rewrite app_nil_r|]. split; [reflexivity|].
    intros i Hi. inversion Hi.
  - cbn [loop]. apply wp_bind.
    apply (wp_mono _ _ _ _
             (debate_round_calls config (initialAi1Messages env config ++ heard1 k)
                                 (initialAi2Messages env config ++ heard2 (S k)) s)).
    intros sig s1 (m & Hc & Hr & Hm & Hsig).
    set (these := roundCalls config (initialAi1Messages env config ++ heard1 k)
                             (initialAi2Messages env config ++ heard2 (S k)) s) in *.
    assert (Hcount : length (firstn m these) = m)
      by (rewrite length_firstn; cbn [these roundCalls length]; lia).
    assert (Hpart : forall i, i < length (firstn m these) ->
              nth_error (firstn m these) i
              = Some (expectedCall config (2 * k + 1 + i))).
    { intros i Hi. rewrite Hcount in Hi. rewrite nth_error_firstn.
      replace (i <? m)%nat with true by (symmetry; apply Nat.ltb_lt; lia).
      apply roundCalls_expected; [exact Hq | lia]. }
    destruct sig as [[a' m']| | |e]; wp_enter;
      try (eexists; split; [exact Hc|]; split; [now rewrite Hcount | exact Hpart]).
    destruct Hsig as (-> & -> & ->). cbn [fst snd].
    assert (Hq1 : requests s1 = 2 * S k + 1) by lia.
    specialize (IH (S k) s1 Hq1).
    rewrite heard1_S, (heard2_S (S k)), !app_assoc in IH.
    unfold rebutted, reply0, reply1, text.
    unfold text in IH. rewrite Hq.
    replace (S (2 * k + 1)) with (2 * S k) by lia. rewrite <- !app_assoc.
    rewrite <- !app_assoc in IH.
    apply (wp_mono _ _ _ _ IH).
    intros sig s2 (sent2 & Hc2 & Hr2 & Hexp).
    eexists. split; [rewrite Hc2, Hc, <- app_assoc; reflexivity|].
    split; [rewrite length_app, Hcount; lia|].
    intros i Hi. rewrite length_app, Hcount in Hi.
    destruct (Nat.lt_ge_cases i 2) as [Hlt|Hge].
    + rewrite nth_error_app1 by (rewrite Hcount; exact Hlt).
      apply Hpart. now rewrite Hcount.
    + rewrite nth_error_app2 by (rewrite Hcount; exact Hge). rewrite Hcount.
      rewrite Hexp by lia. f_equal. f_equal. lia.
Qed.

(** *** The numbers a debate reports are the clock's *)

Lemma wp_debate_returnIfOverTime_at (Q : Signal unit -> State -> Prop) s t0 :
  started s = Some t0 -> limit s <> 0%Z ->
  (let e := (clock env (readings s) - t0)%Z in
   (1000 * limit s <=? e)%Z = false ->
   Q (Normal tt) (noted [TimeCheck e] 1 s)) ->
  (let e := (clock env (readings s) - t0)%Z in
   (1000 * limit s <=? e)%Z = true ->
   Q Return
     (running false
        (noted [OnStatusUpdate (Text "辩论时间已达限制"); TimeCheck e] 1 s))) ->
  wp (returnIfOverTime env) Q s.
Proof.
  intros Hs Hl Hp Hb. apply wp_debate_returnIfOverTime.
  - intros evs k [[H|H]|t1 H1 H2 H3]; [congruence | contradiction |].
    assert (t1 = t0) by congruence. subst t1. apply Hp. now apply Z.leb_gt.
  - intros evs k [t1 H1 H2 H3].
    assert (t1 = t0) by congruence. subst t1. apply Hb. now apply Z.leb_le.
Qed.

Ltac step_at Hs Hl :=
  first
    [ wp_enter
    | lazymatch goal with
      | |- wp (bind _ _) _ _ => apply wp_bind
      | |- wp returnIfStopped _ _ => apply wp_returnIfStopped; intros ?
      | |- wp (returnIfOverTime _) _ _ =>
          eapply wp_debate_returnIfOverTime_at;
          [exact Hs | exact Hl | cbv zeta; intros ? | cbv zeta; intros ?]
      | |- wp (speakPro _ _ _) _ _ => unfold speakPro; apply wp_speak; intros ?
      | |- wp (speakCon _ _ _) _ _ => unfold speakCon; apply wp_speak; intros ?
      | |- wp (onStatusUpdate _) _ _ => apply wp_onStatusUpdate
      | |- wp (emit _) _ _ => apply wp_emit
      | |- wp (ret _) _ _ => apply wp_ret
      end ].

Definition clockedPost {A} (s : State) (sig : Signal A) (s' : State) : Prop :=
  limit s' = limit s /\ startTime s' = startTime s
  /\ onTime env (limit s) (log s') = Some (readings s').

Lemma debate_round_clocked config a m s :
  started s = Some (clock env 0) -> limit s <> 0%Z ->
  onTime env (limit s) (log s) = Some (readings s) ->
  wp (round env config a m) (clockedPost s) s.
Proof.
  intros Hs Hl Hv. unfold round. cbv zeta. repeat (step_at Hs Hl).
  all: unfold clockedPost;
    cbn [log isRunning history startTime limit requests readings
         logged running ticked asked published noted spoken app] in *.
  all: do 2 (split; [reflexivity|]).
  all: clockwork; reflexivity.
Qed.

Lemma debate_loop_clocked config n : forall a m s,
  started s = Some (clock env 0) -> limit s <> 0%Z ->
  onTime env (limit s) (log s) = Some (readings s) ->
  wp (loop env config n a m) (clockedPost s) s.
Proof.
  induction n as [|n IH]; intros a m s Hs Hl Hv.
  - apply wp_ret. now repeat split.
  - cbn [loop]. apply wp_bind.
    apply (wp_mono _ _ _ _ (debate_round_clocked config a m s Hs Hl Hv)).
    intros sig s1 (Hl1 & Ht1 & Hv1).
    destruct sig as [[a' m']| | |e]; wp_enter; try (now repeat split).
    cbn [fst snd].
    assert (Hs1 : started s1 = Some (clock env 0))
      by (unfold started in *; now rewrite Ht1).
    rewrite <- Hl1 in Hv1, Hl.
    apply (wp_mono _ _ _ _ (IH a' m' s1 Hs1 Hl Hv1)).
    intros sig s2 (Hl2 & Ht2 & Hv2). rewrite Hl1 in *.
    split; [congruence|]. split; [congruence|]. exact Hv2.
Qed.

(** *** A call from its start to its end *)

Definition ending (sig : Signal unit) : list Event :=
  match sig with
  | Normal _ => [OnComplete; OnStatusUpdate (Text "辩论完成")]
  | Throw e => [OnError (messageOr "未知错误" e)]
  | _ => []
  end.

(** A call of [startDebate] that gets past its guards and whose opening
    request succeeds: the opening request and turn, the loop, the end. *)
Definition coursed (config : ChatConfig) (s' : State) : Prop :=
  exists s0 sig s1,
    calls (log s0)
    = [(api1 config, model1 config, initialAi1Messages env config)]
    /\ requests s0 = 1 /\ readings s0 = 2
    /\ limit s0 = timeLimit config /\ startTime s0 = Some (clock env 0)
    /\ (forall lim, onTime env lim (log s0) = Some 2)
    /\ loop env config (Z.to_nat (rounds config - 1))
            (initialAi1Messages env config) (afterOpening config) s0
       = (sig, s1)
    /\ log s' = ending sig ++ log s1.

(** The same call when the opening request fails. *)
Definition declined (config : ChatConfig) (s' : State) : Prop :=
  exists pre,
    notes pre
    /\ log s'
       = OnError (proFailed ++ errorText (respond env 0))%string
         :: Called (api1 config) (model1 config) (initialAi1Messages env config)
                   (temperature config)
         :: pre.

Lemma startDebate_course config this :
  isRunning this = false -> Js.truthy (Js.trim (topic config)) = true ->
  if success (respond env 0)
  then coursed config (run env config this)
  else declined config (run env config this).
Proof.
  intros Hrun Htopic.
  change (wp (startDebate env config)
             (fun _ s' => if success (respond env 0)
                          then coursed config s' else declined config s')
             (fresh this)).
  unfold startDebate. apply wp_endCall, wp_bind, wp_get. wp_enter.
  cbn [fresh isRunning]. rewrite Hrun. repeat step_more.
  unfold debate. cbv zeta. rewrite Htopic. repeat step_more.
  2:{ cbn [requests fresh running ticked logged noted] in *.
      match goal with H : success _ = false |- _ => rewrite H end.
      apply wp_emit. eexists. split; [|reflexivity]. reflexivity. }
  cbn [requests fresh running ticked logged noted] in *.
  match goal with H : success _ = true |- _ => rewrite H end.
  apply (wp_mono _ _ _ _ (wp_run _ _)); intros sig s1 Hloop.
  destruct sig as [u| | |e];
    repeat first [step_more | progress cbv beta iota].
  all: match type of Hloop with
       | loop _ _ _ _ _ ?s0 = (?sig, _) => exists s0, sig, s1
       end.
  all: cbn [log isRunning history startTime limit requests readings
            logged running ticked finish fresh noted asked published
            calls app ending Nat.add].
  all: repeat split; try reflexivity; try exact Hloop.
  all: intros lim; cbn [spoken]; clockwork; reflexivity.
Qed.

(** Every request of a debate is the one [expectedCall] gives. *)
Lemma debate_calls config this i x :
  nth_error (calls (log (run env config this))) i = Some x ->
  x = expectedCall config i.
Proof.
  intros Hx. destruct (debate_guards config this) as [[Hrun Htopic]|Hg].
  2:{ destruct (startDebate_guarded config this Hg) as [message Hlog].
      rewrite Hlog in Hx. destruct i; discriminate. }
  pose proof (startDebate_course config this Hrun Htopic) as Hf.
  assert (H0 : (api1 config, model1 config, initialAi1Messages env config)
               = expectedCall config 0)
    by (unfold expectedCall; cbn [Nat.even Nat.div2 heard1 seq flat_map];
        now rewrite app_nil_r).
  destruct (success (respond env 0)).
  2:{ destruct Hf as (pre & Hnotes & Hlog). rewrite Hlog in Hx.
      cbn [calls] in Hx.
      assert (Hpre : calls pre = [])
        by (rewrite <- (app_nil_r pre);
            now rewrite (calls_silent _ _ (notes_silent _ Hnotes))).
      rewrite Hpre in Hx. cbn [app] in Hx.
      destruct i as [|i]; [|destruct i; discriminate].
      inversion Hx. exact H0. }
  destruct Hf as (s0 & sig & s1 & Hc0 & Hreq & _ & _ & _ & _ & Hloop & Hlog).
  pose proof (debate_loop_calls config (Z.to_nat (rounds config - 1)) 0 s0 Hreq)
    as Hw.
  change (heard1 0) with (@nil Message) in Hw. rewrite app_nil_r in Hw.
  change (initialAi2Messages env config ++ heard2 1) with (afterOpening config) in Hw.
  unfold wp in Hw. rewrite Hloop in Hw. cbn [fst snd] in Hw.
  destruct Hw as (sent & Hsent & _ & Hexp).
  assert (Haside : aside (ending sig)) by (destruct sig; reflexivity).
  rewrite Hlog, (calls_aside _ _ Haside), Hsent, Hc0 in Hx.
  destruct i as [|i]; [inversion Hx; exact H0|].
  cbn [app nth_error] in Hx.
  assert (Hi : i < length sent) by (apply nth_error_Some; congruence).
  rewrite (Hexp i Hi) in Hx. inversion Hx. f_equal.
Qed.

(** With a limit, the numbers a debate reports are the clock's. *)
Lemma debate_on_time config this :
  timeLimit config <> 0%Z -> clock env 0 <> 0%Z ->
  onTime env (timeLimit config) (log (run env config this)) <> None.
Proof.
  intros Hl Hc. destruct (debate_guards config this) as [[Hrun Htopic]|Hg].
  2:{ destruct (startDebate_guarded config this Hg) as [message ->]. discriminate. }
  pose proof (startDebate_course config this Hrun Htopic) as Hf.
  destruct (success (respond env 0)).
  2:{ destruct Hf as (pre & Hnotes & ->). cbn [onTime tick].
      rewrite (onTime_quiet _ _ _ Hnotes). discriminate. }
  destruct Hf as (s0 & sig & s1 & _ & _ & Hread & Hlim & Hst & Hv0 & Hloop & Hlog).
  assert (Hs : started s0 = Some (clock env 0)).
  { unfold started. rewrite Hst.
    destruct (Z.eqb_spec (clock env 0) 0); [contradiction | reflexivity]. }
  rewrite <- Hlim in Hl.
  assert (Hv : onTime env (limit s0) (log s0) = Some (readings s0))
    by (rewrite Hread; apply Hv0).
  pose proof (debate_loop_clocked config (Z.to_nat (rounds config - 1))
                (initialAi1Messages env config) (afterOpening config) s0 Hs Hl Hv)
    as Hw.
  unfold wp in Hw. rewrite Hloop in Hw. cbn [fst snd] in Hw.
  destruct Hw as (_ & _ & Hv1). rewrite Hlim in Hv1.
  rewrite Hlog. destruct sig as [u| | |e]; cbn [ending]; clockwork; discriminate.
Qed.

(** The list of the opening request ends with the instruction to open;
    the list of every later request ends with the text of the turn
    before it and the instruction to rebut the other side. *)
Lemma expectedCall_opening config :
  expectedCall config 0
  = (api1 config, model1 config,
     [said system (commonPrompt env config ++ Js.NL
                   ++ getItemOr env "debateAI1SystemPrompt" "你是正方，支持这个观点")%string]
     ++ [said user ("请开始你的辩论，支持这个观点：" ++ topic config)%string]).
Proof.
  unfold expectedCall. cbn [Nat.even Nat.div2 heard1 seq flat_map].
  now rewrite app_nil_r.
Qed.

Lemma expectedCall_later config i :
  1 <= i ->
  exists before,
    expectedCall config i
    = (if Nat.even i then api1 config else api2 config,
       if Nat.even i then model1 config else model2 config,
       before ++ [said assistant (text (i - 1));
                  said user (if Nat.even i then "请针对反方的观点进行反驳"
                             else "请针对正方的观点进行反驳")%string]).
Proof.
  intros Hi. unfold expectedCall.
  pose proof (Nat.div2_odd i) as Hd. rewrite <- Nat.negb_even in Hd.
  destruct (Nat.even i); cbn [negb Nat.b2n] in Hd.
  - destruct (Nat.div2 i) as [|k] eqn:Ek; [lia|].
    exists (initialAi1Messages env config ++ heard1 k).
    rewrite heard1_S, app_assoc. do 4 f_equal. f_equal. lia.
  - exists (initialAi2Messages env config ++ heard2 (Nat.div2 i)).
    rewrite heard2_S, app_assoc. do 4 f_equal. f_equal. lia.
Qed.

End Steps.
End DebateFacts.

(* ===================================================================== *)
(** ** Runs of the two orchestrators                                      *)
(* ===================================================================== *)

(** *** Surroundings and settings used as examples *)

Module Demo.

(** Replies read from a list; the empty Success once it is used up. *)
Definition scripted (replies : list AIResponse) : nat -> AIResponse :=
  fun j => nth j replies (succeeded EmptyString).

(** No stop, no storage, and the given readings of the clock. *)
Definition surroundings (respond : nat -> AIResponse) (clock : nat -> Z) : Env :=
  {| respond := respond; stopDuring := fun _ => false; clock := clock;
     localStorage := fun _ => None |}.

Definition frozen : nat -> Z := fun _ => 1000%Z.

Definition session (n limit : Z) : ChatConfig :=
  {| topic := "T"; model1 := "m1"; api1 := "ollama";
     model2 := "m2"; api2 := "openai";
     rounds := n; timeLimit := limit; temperature := (8 # 10)%Q |}.

Definition allFail : Env := surroundings (fun _ => failed "boom") frozen.

Definition fourReplies : Env :=
  surroundings (scripted [succeeded "a1"; succeeded "b1";
                          succeeded "a2"; succeeded "b2"]) frozen.

Definition secondFails : Env :=
  surroundings (scripted [succeeded "A"; failed "boom"]) frozen.

Definition blankSecond : Env :=
  surroundings (scripted [succeeded "a1"; succeeded "   "]) frozen.

(** The clock of a debate whose second reply comes eight seconds after
    the start. *)
Definition lateClock : Env :=
  surroundings (scripted [succeeded "A"; succeeded "B"; succeeded "C"])
               (fun n => match n with
                         | 0 | 1 => 1000%Z
                         | 2 => 1500%Z
                         | _ => 9000%Z
                         end).

Definition stoppedAtOnce : Env :=
  {| respond := scripted [succeeded "A"; succeeded "B"];
     stopDuring := fun j => Nat.eqb j 0; clock := frozen;
     localStorage := fun _ => None |}.


Definition busy : State :=
  {| isRunning := true; history := []; startTime := Some 5%Z; limit := 0;
     log := []; requests := 0; readings := 0 |}.

Definition blankSession : ChatConfig :=
  {| topic := "   "; model1 := "m1"; api1 := "ollama";
     model2 := "m2"; api2 := "openai";
     rounds := 2; timeLimit := 0; temperature := (8 # 10)%Q |}.

(** An idle service that still holds the turn of an earlier run. *)
Definition used : State :=
  {| isRunning := false;
     history := [{| sender := "ai1"; d_content := "old"; timestamp := 1 |}];
     startTime := None; limit := 0; log := []; requests := 0; readings := 0 |}.

End Demo.

(** What a trace shows once the status lines are left out. *)
Inductive Step : Type :=
| Requested
| Checked (elapsedMs : Z)
| Emitted (text : string) (timestamp : Z)
| Failed (message : string)
| Completed.

Fixpoint outline (tr : list Event) : list Step :=
  match tr with
  | [] => []
  | Called _ _ _ _ :: rest => Requested :: outline rest
  | TimeCheck e :: rest => Checked e :: outline rest
  | OnMessage m :: rest => Emitted (d_content m) (timestamp m) :: outline rest
  | OnError m :: rest => Failed m :: outline rest
  | OnComplete :: rest => Completed :: outline rest
  | OnStatusUpdate _ :: rest => outline rest
  end.

Section Runs.

Variable env : Env.

(** *** Failures *)

Lemma recorded_failed r : success r = false -> ChatService.recorded r = ChatService.fallback.
Proof.
  intros H. unfold ChatService.recorded, ChatService.trimmedReply.
  rewrite H. now destruct (r_content r).
Qed.

Lemma chat_contents_nth turns j m :
  ChatFacts.contents env 0 turns -> nth_error turns j = Some m ->
  d_content m = ChatService.recorded (respond env j).
Proof.
  unfold ChatFacts.contents. intros H Hj.
  pose proof (map_nth_error d_content j turns Hj) as Hm.
  rewrite H, nth_error_map, nth_error_seq in Hm.
  assert (Hlt : j < length turns) by (apply nth_error_Some; congruence).
  apply Nat.ltb_lt in Hlt. rewrite Hlt in Hm. cbn in Hm. congruence.
Qed.

Lemma debate_contents_nth turns j m :
  DebateFacts.contents env 0 turns -> nth_error turns j = Some m ->
  d_content m = DebateService.contentOrEmpty (respond env j).
Proof.
  unfold DebateFacts.contents. intros H Hj.
  pose proof (map_nth_error d_content j turns Hj) as Hm.
  rewrite H, nth_error_map, nth_error_seq in Hm.
  assert (Hlt : j < length turns) by (apply nth_error_Some; congruence).
  apply Nat.ltb_lt in Hlt. rewrite Hlt in Hm. cbn in Hm. congruence.
Qed.

(** The two guards passed: what [startChat] and [startDebate] leave. *)
Lemma chat_discussed config this :
  isRunning this = false -> Js.truthy (Js.trim (topic config)) = true ->
  ChatFacts.discussed env config (ChatService.run env config this).
Proof.
  intros Hrun Htopic. pose proof (ChatFacts.startChat_spec env config this) as H.
  unfold ChatFacts.startChatPost in H. now rewrite Hrun, Htopic in H.
Qed.

Lemma debate_debated config this :
  isRunning this = false -> Js.truthy (Js.trim (topic config)) = true ->
  DebateFacts.debated env config (DebateService.run env config this).
Proof.
  intros Hrun Htopic. pose proof (DebateFacts.startDebate_spec env config this) as H.
  unfold DebateFacts.startDebatePost in H. now rewrite Hrun, Htopic in H.
Qed.

(** In a debate every request but the last one made has succeeded. *)
Lemma debate_failure_is_last config this j :
  isRunning this = false -> Js.truthy (Js.trim (topic config)) = true ->
  j < requests (DebateService.run env config this) ->
  success (respond env j) = false ->
  j = length (emitted (log (DebateService.run env config this)))
  /\ errors (log (DebateService.run env config this))
     = [(DebateFacts.failureLabel j
         ++ DebateService.errorText (respond env j))%string]
  /\ completions (log (DebateService.run env config this)) = 0.
Proof.
  intros Hrun Htopic Hj Hfail.
  pose proof (debate_debated config this Hrun Htopic) as H.
  unfold DebateFacts.debated in H. cbv zeta in H.
  destruct H as (_ & _ & _ & _ & _ & _ & Hok & _ & _ & Hend).
  assert (Hge : length (emitted (log (DebateService.run env config this))) <= j).
  { apply Nat.nlt_ge. intros Hlt. specialize (Hok j Hlt). congruence. }
  destruct Hend as [(_ & _ & Hl & Hr)|[(_ & _ & Hr & _)|(Hc & Hr & _ & He)]];
    try lia.
  assert (j = length (emitted (log (DebateService.run env config this)))) by lia.
  subst j. auto.
Qed.

(** C2 (as the code has it).  In a debate a Failure ends the run: if any
    request made has failed, it is the last one, [onError] is called once
    with the label of the side that was to speak ([proFailed] for the entries
    at even positions, [conFailed] at odd ones) followed by the error text,
    [onComplete] is not called, and the turns emitted before it stay in the
    history.  In a discussion a Failure ends nothing: no error is reported,
    the turn of a failed request carries the fallback text and stays in
    the history, and the run goes on as after any other reply: while no
    reading of the clock is past the limit, every request during which
    the run is not stopped is followed by its turn, and that turn by the
    next request until all rounds are done; it ends in one of the three
    ways of [ended]: all rounds done, a stop, or the time limit. *)
Theorem failure_policy config this :
  isRunning this = false -> Js.truthy (Js.trim (topic config)) = true ->
  (forall j,
      j < requests (DebateService.run env config this) ->
      success (respond env j) = false ->
      errors (log (DebateService.run env config this))
      = [(DebateFacts.failureLabel j
          ++ DebateService.errorText (respond env j))%string]
      /\ completions (log (DebateService.run env config this)) = 0
      /\ length (emitted (log (DebateService.run env config this))) = j
      /\ history (DebateService.run env config this)
         = emitted (log (DebateService.run env config this)))
  /\ errors (log (ChatService.run env config this)) = []
  /\ history (ChatService.run env config this)
     = emitted (log (ChatService.run env config this))
  /\ (forall j m,
         nth_error (emitted (log (ChatService.run env config this))) j = Some m ->
         success (respond env j) = false ->
         d_content m = "我对此主题没有特别的见解。"%string)
  /\ (ChatFacts.inTime env config ->
      forall j,
        j < length (transmitted (log (ChatService.run env config this))) ->
        stopDuring env j = false ->
        j < length (emitted (log (ChatService.run env config this)))
        /\ (S j < 2 * Z.to_nat (rounds config) ->
            S j < length (transmitted (log (ChatService.run env config this)))))
  /\ ChatFacts.ended env config (ChatService.run env config this).
Proof.
  intros Hrun Htopic. split.
  - intros j Hj Hfail.
    destruct (debate_failure_is_last config this j Hrun Htopic Hj Hfail)
      as (Hlen & He & Hc).
    pose proof (debate_debated config this Hrun Htopic) as H.
    unfold DebateFacts.debated in H. cbv zeta in H. destruct H as (Hh & _).
    auto.
  - pose proof (chat_discussed config this Hrun Htopic) as H.
    destruct H as (He & Hh & _ & _ & _ & Hcon & _).
    split; [exact He|]. split; [exact Hh|]. split.
    + intros j m Hm Hfail.
      rewrite (chat_contents_nth _ _ _ Hcon Hm). now apply recorded_failed.
    + split; [|now apply ChatFacts.discussion_ends].
      intros Htime j Hj Hstop.
      rewrite <- (ChatFacts.discussion_requests env config this) in *.
      now apply ChatFacts.discussion_goes_on.
Qed.

End Runs.

(** The theorem at a debate whose second request fails, and at the
    discussion of two rounds with the same replies: the second turn is
    there, with the fallback text, and the third request follows. *)
Lemma failure_policy_witness :
  (errors (log (DebateService.run Demo.secondFails (Demo.session 2 0) created))
   = [(DebateService.conFailed ++ "boom")%string]
   /\ completions (log (DebateService.run Demo.secondFails (Demo.session 2 0) created)) = 0
   /\ length (emitted (log (DebateService.run Demo.secondFails (Demo.session 2 0) created))) = 1
   /\ history (DebateService.run Demo.secondFails (Demo.session 2 0) created)
      = emitted (log (DebateService.run Demo.secondFails (Demo.session 2 0) created)))
  /\ errors (log (ChatService.run Demo.secondFails (Demo.session 2 0) created)) = []
  /\ (exists m,
        nth_error (emitted (log (ChatService.run Demo.secondFails (Demo.session 2 0)
                                                 created))) 1 = Some m
        /\ d_content m = "我对此主题没有特别的见解。"%string)
  /\ (1 < length (emitted (log (ChatService.run Demo.secondFails (Demo.session 2 0)
                                                created)))
      /\ (2 < 2 * Z.to_nat 2 ->
          2 < length (transmitted (log (ChatService.run Demo.secondFails
                                          (Demo.session 2 0) created))))).
Proof.
  destruct (failure_policy Demo.secondFails (Demo.session 2 0) created
              eq_refl eq_refl) as (Hd & He & _ & Hc & Hon & _).
  split; [apply (Hd 1); [vm_compute; lia | reflexivity]|].
  split; [exact He|]. split.
  - eexists. split; [vm_compute; reflexivity|].
    apply (Hc 1); [vm_compute; reflexivity | reflexivity].
  - apply (Hon (or_introl eq_refl) 1); [vm_compute; lia | reflexivity].
Defined.

(** C2, counterexample.  A discussion of one round in which both requests
    fail with 'boom': nothing is reported to [onError], both turns are
    emitted with the fallback text, and the run completes. *)
Lemma discussion_survives_failure :
  let s := ChatService.run Demo.allFail (Demo.session 1 0) created in
  success (respond Demo.allFail 0) = false
  /\ errors (log s) = []
  /\ map d_content (emitted (log s)) = [ChatService.fallback; ChatService.fallback]
  /\ length (transmitted (log s)) = 2
  /\ completions (log s) = 1.
Proof. vm_compute. repeat split. Qed.

(** *** The time limit *)

Section TimeLimit.

Variable env : Env.

Lemma chat_check_off show s :
  limit s = 0%Z -> ChatService.checkTimeLimit env show s = (Normal true, s).
Proof.
  intros H. unfold ChatService.checkTimeLimit, bind, get, ret.
  destruct (started s); [now rewrite H | reflexivity].
Qed.

Lemma debate_check_off s :
  limit s = 0%Z -> DebateService.checkTimeLimit env s = (Normal true, s).
Proof.
  intros H. unfold DebateService.checkTimeLimit, bind, get, ret.
  destruct (started s); [now rewrite H | reflexivity].
Qed.

(** In a debate every request but a failed one is followed by its turn. *)
Lemma debate_arrived_emitted config this j :
  j < length (transmitted (log (DebateService.run env config this))) ->
  success (respond env j) = true ->
  j < length (emitted (log (DebateService.run env config this))).
Proof.
  intros Hj Hok.
  destruct (DebateFacts.debate_guards config this) as [[Hrun Htopic]|Hg].
  2:{ destruct (DebateFacts.startDebate_guarded env config this Hg) as [message Hlog].
      rewrite Hlog in Hj. cbn in Hj. lia. }
  pose proof (debate_debated env config this Hrun Htopic) as H.
  unfold DebateFacts.debated in H. cbv zeta in H.
  destruct H as (_ & _ & _ & _ & _ & _ & _ & Hreq & _ & Hend).
  rewrite <- Hreq in Hj.
  destruct Hend as [(_ & _ & Hl & Hr)|[(_ & _ & Hr & _)|(_ & Hr & Hf & _)]];
    try lia.
  assert (j <> length (emitted (log (DebateService.run env config this))))
    by congruence.
  lia.
Qed.

(** C4 (as the code has it).  With a limit of 0 both [checkTimeLimit]
    return [true] at once, without reading the clock.  With a limit other
    than 0, every elapsed time that a run compares with the limit is the
    difference between a reading of the clock and the reading taken at
    the start, and so are the time stamps and the totals it reports
    ([onTime]).  The log of a discussion satisfies the monitor that wants
    a comparison that found time left before every request and before
    every turn, and nothing but status lines after a comparison that
    found the limit reached; the log of a debate satisfies the weaker
    monitor that starts as if a comparison had been made before the
    opening request and that lets a turn follow its request without a
    comparison; and a debate emits the turn of every request that was
    answered with a Success. *)
Theorem time_limit_discipline config this :
  timeLimit config <> 0%Z -> clock env 0 <> 0%Z ->
  (forall show s, limit s = 0%Z ->
      ChatService.checkTimeLimit env show s = (Normal true, s)
      /\ DebateService.checkTimeLimit env s = (Normal true, s))
  /\ verdict (timeLimit config) true Due (log (ChatService.run env config this)) <> Bad
  /\ onTime env (timeLimit config) (log (ChatService.run env config this)) <> None
  /\ verdict (timeLimit config) false Passed (log (DebateService.run env config this))
     <> Bad
  /\ onTime env (timeLimit config) (log (DebateService.run env config this)) <> None
  /\ (forall j,
         j < length (transmitted (log (DebateService.run env config this))) ->
         success (respond env j) = true ->
         j < length (emitted (log (DebateService.run env config this)))).
Proof.
  intros Hl Hc. split.
  - intros show s H. split; [now apply chat_check_off | now apply debate_check_off].
  - split; [now apply ChatFacts.startChat_watched|].
    split; [now apply ChatFacts.discussion_on_time|].
    split; [now apply DebateFacts.startDebate_watched|].
    split; [now apply DebateFacts.debate_on_time|].
    intros j. apply debate_arrived_emitted.
Qed.

End TimeLimit.

(** The theorem at a run of each kind with a limit of one second, started
    at 1000 ms, in which the clock reads 9000 ms from its fourth reading
    on: the discussion ends at the comparison behind its first turn, the
    debate at the comparison behind its second turn. *)
Lemma time_limit_discipline_witness :
  (verdict 1 true Due (log (ChatService.run Demo.lateClock (Demo.session 2 1) created))
   <> Bad
   /\ onTime Demo.lateClock 1
             (log (ChatService.run Demo.lateClock (Demo.session 2 1) created))
      <> None
   /\ verdict 1 false Passed
              (log (DebateService.run Demo.lateClock (Demo.session 2 1) created))
      <> Bad
   /\ onTime Demo.lateClock 1
             (log (DebateService.run Demo.lateClock (Demo.session 2 1) created))
      <> None
   /\ 1 < length (emitted (log (DebateService.run Demo.lateClock (Demo.session 2 1)
                                                  created))))
  /\ outline (trace (ChatService.run Demo.lateClock (Demo.session 2 1) created))
     = [Checked 0; Requested; Checked 500; Emitted "A" 9000; Checked 8000]
  /\ outline (trace (DebateService.run Demo.lateClock (Demo.session 2 1) created))
     = [Requested; Emitted "A" 1000; Checked 500; Requested; Emitted "B" 9000;
        Checked 8000].
Proof.
  split; [|split; vm_compute; reflexivity].
  destruct (time_limit_discipline Demo.lateClock (Demo.session 2 1) created)
    as (_ & H1 & H2 & H3 & H4 & H5); [discriminate | discriminate |].
  split; [exact H1|]. split; [exact H2|]. split; [exact H3|]. split; [exact H4|].
  apply (H5 1); [vm_compute; lia | reflexivity].
Defined.

(** C4, counterexample.  A debate of two rounds with a limit of one
    second, started at 1000 ms, whose second reply is there at 9000 ms:
    the opening request is made before any comparison, and the second
    turn is emitted eight seconds after the start; only the comparison
    after it ends the run.  The monitor of the discussion rejects this
    log. *)
Lemma debate_opening_unchecked :
  let s := DebateService.run Demo.lateClock (Demo.session 2 1) created in
  outline (trace s)
  = [Requested; Emitted "A" 1000; Checked 500; Requested; Emitted "B" 9000;
     Checked 8000]
  /\ verdict 1 true Due (log s) = Bad
  /\ verdict 1 false Due (log s) = Bad
  /\ verdict 1 true Passed (log s) = Bad.
Proof. vm_compute. repeat split. Qed.

(** *** Turns: fallback, bounds, order *)

Section Turns.

Variable env : Env.

(** A reply without text, or whose text is empty or only white space. *)
Definition blankReply (r : AIResponse) : Prop :=
  match r_content r with
  | Some c => Js.trim c = EmptyString
  | None => True
  end.

Lemma recorded_blank r : blankReply r -> ChatService.recorded r = ChatService.fallback.
Proof.
  unfold blankReply, ChatService.recorded, ChatService.trimmedReply.
  destruct (r_content r) as [c|]; [|reflexivity].
  intros H. destruct (success r && Js.truthy c)%bool; [now rewrite H | reflexivity].
Qed.

(** C5.  In a discussion that got past its guards, the turn emitted for a
    request whose reply is blank carries the fallback text
    '我对此主题没有特别的见解。', and so does the entry of the history; and
    the run goes on as after any other reply: while no reading of the
    clock is past the limit, every request during which the run is not
    stopped is followed by its turn, and that turn by the next request
    until all rounds are done.  In particular, with no time limit and no
    stop the run emits all its turns, two for each round, and completes,
    whatever the replies are; and every run ends in one of the three ways
    of [ended]: all rounds done, a stop, or the time limit. *)
Theorem empty_reply_fallback config this :
  isRunning this = false -> Js.truthy (Js.trim (topic config)) = true ->
  (forall j m,
      nth_error (emitted (log (ChatService.run env config this))) j = Some m ->
      blankReply (respond env j) ->
      d_content m = "我对此主题没有特别的见解。"%string
      /\ nth_error (history (ChatService.run env config this)) j = Some m)
  /\ (ChatFacts.inTime env config ->
      forall j,
        j < length (transmitted (log (ChatService.run env config this))) ->
        stopDuring env j = false ->
        j < length (emitted (log (ChatService.run env config this)))
        /\ (S j < 2 * Z.to_nat (rounds config) ->
            S j < length (transmitted (log (ChatService.run env config this)))))
  /\ (timeLimit config = 0%Z -> (forall j, stopDuring env j = false) ->
      length (emitted (log (ChatService.run env config this)))
      = 2 * Z.to_nat (rounds config)
      /\ completions (log (ChatService.run env config this)) = 1
      /\ errors (log (ChatService.run env config this)) = [])
  /\ ChatFacts.ended env config (ChatService.run env config this).
Proof.
  intros Hrun Htopic.
  destruct (chat_discussed env config this Hrun Htopic)
    as (He & Hh & _ & _ & _ & Hcon & _ & Hfull).
  split; [|split; [|split; [|now apply ChatFacts.discussion_ends]]].
  - intros j m Hm Hb. split; [|now rewrite Hh].
    rewrite (chat_contents_nth env _ _ _ Hcon Hm).
    now rewrite (recorded_blank _ Hb).
  - intros Htime j Hj Hstop.
    rewrite <- (ChatFacts.discussion_requests env config this) in *.
    now apply ChatFacts.discussion_goes_on.
  - intros Hl Hs. destruct (Hfull Hl Hs). auto.
Qed.

Lemma chat_turns_bounded config this :
  length (emitted (log (ChatService.run env config this)))
  <= 2 * Z.to_nat (rounds config).
Proof.
  pose proof (ChatFacts.startChat_spec env config this) as H.
  unfold ChatFacts.startChatPost in H.
  destruct (isRunning this); [destruct H as (-> & _); cbn; lia|].
  destruct (Js.truthy (Js.trim (topic config))).
  - now destruct H as (_ & _ & _ & _ & Hlen & _).
  - destruct H as (-> & _); cbn; lia.
Qed.

Lemma debate_turns_bounded config this :
  length (emitted (log (DebateService.run env config this)))
  <= 1 + 2 * Z.to_nat (rounds config - 1).
Proof.
  pose proof (DebateFacts.startDebate_spec env config this) as H.
  unfold DebateFacts.startDebatePost in H.
  destruct (isRunning this); [destruct H as (-> & _); cbn; lia|].
  destruct (Js.truthy (Js.trim (topic config))).
  - unfold DebateFacts.debated in H. cbv zeta in H.
    now destruct H as (_ & _ & _ & Hlen & _).
  - destruct H as (-> & _); cbn; lia.
Qed.

(** C6.  For a number of rounds of at least 1, whatever the object is
    called on, the topic, the replies, the stops and the clock, a call of
    [startChat] emits at most [2 * rounds] turns and a call of
    [startDebate] at most [1 + 2 * (rounds - 1)]. *)
Theorem turns_bounded config this :
  (1 <= rounds config)%Z ->
  (Z.of_nat (length (emitted (log (ChatService.run env config this))))
   <= 2 * rounds config)%Z
  /\ (Z.of_nat (length (emitted (log (DebateService.run env config this))))
      <= 1 + 2 * (rounds config - 1))%Z.
Proof.
  intros H.
  pose proof (chat_turns_bounded config this) as Hc.
  pose proof (debate_turns_bounded config this) as Hd.
  split; lia.
Qed.

Lemma length_alternate n : length (DebateFacts.alternate n) = 2 * n.
Proof. induction n as [|n IH]; [reflexivity|]. cbn [DebateFacts.alternate length]. lia. Qed.

Lemma length_rebuttals n : length (DebateFacts.rebuttals n) = 2 * n.
Proof. induction n as [|n IH]; [reflexivity|]. cbn [DebateFacts.rebuttals length]. lia. Qed.

(** C7.  In a debate that got past its guards, with every reply a Success,
    no time limit and no stop: AI 1 speaks the opening turn and then,
    [rounds - 1] times, AI 2 speaks and AI 1 speaks, which makes
    [1 + 2 * (rounds - 1)] turns and as many requests.  The opening request
    goes to the API and the model of AI 1, and its list ends with the
    instruction to open the debate for the topic.  Request [i] after it
    goes to AI 2 for odd [i] and to AI 1 for even [i], and its list ends
    with the text of the turn just before it, followed by the instruction
    to rebut the other side: '请针对正方的观点进行反驳' for AI 2,
    '请针对反方的观点进行反驳' for AI 1.  The run completes without error. *)
Theorem debate_order config this :
  isRunning this = false -> Js.truthy (Js.trim (topic config)) = true ->
  timeLimit config = 0%Z ->
  (forall j, stopDuring env j = false) ->
  (forall j, success (respond env j) = true) ->
  let n := Z.to_nat (rounds config - 1) in
  let s := DebateService.run env config this in
  map sender (emitted (log s)) = "ai1"%string :: DebateFacts.alternate n
  /\ length (emitted (log s)) = 1 + 2 * n
  /\ length (calls (log s)) = 1 + 2 * n
  /\ (exists before,
        nth_error (calls (log s)) 0
        = Some (api1 config, model1 config,
                before ++ [{| role := user;
                              content := ("请开始你的辩论，支持这个观点："
                                          ++ topic config)%string |}]))
  /\ (forall i, 1 <= i <= 2 * n ->
        exists before turn,
          nth_error (emitted (log s)) (i - 1) = Some turn
          /\ nth_error (calls (log s)) i
             = Some (if Nat.even i then api1 config else api2 config,
                     if Nat.even i then model1 config else model2 config,
                     before
                     ++ [{| role := assistant; content := d_content turn |};
                         {| role := user;
                            content := (if Nat.even i
                                        then "请针对反方的观点进行反驳"
                                        else "请针对正方的观点进行反驳")%string |}]))
  /\ completions (log s) = 1
  /\ errors (log s) = [].
Proof.
  intros Hrun Htopic Hl Hs Hok. cbv zeta.
  pose proof (debate_debated env config this Hrun Htopic) as H.
  unfold DebateFacts.debated in H. cbv zeta in H.
  destruct H as (_ & _ & _ & _ & Hcon & Hsend & _ & Hreq & _ & Hend).
  assert (Hcalls : length (calls (log (DebateService.run env config this)))
                   = requests (DebateService.run env config this))
    by (rewrite Hreq, calls_transmitted; now rewrite length_map).
  destruct Hend as [(He & Hc & Hlen & Hr)|[(_ & _ & _ & [Hw|[j Hw]])|(_ & _ & Hf & _)]].
  2: contradiction.
  2: { rewrite Hs in Hw. discriminate. }
  2: { rewrite Hok in Hf. discriminate. }
  rewrite Hlen in Hsend.
  rewrite firstn_all2 in Hsend by (cbn [length]; rewrite length_alternate; lia).
  assert (Hnth : forall i, i <= 2 * Z.to_nat (rounds config - 1) ->
            nth_error (calls (log (DebateService.run env config this))) i
            = Some (DebateFacts.expectedCall env config i)).
  { intros i Hi.
    destruct (nth_error (calls (log (DebateService.run env config this))) i)
      as [x|] eqn:Ex.
    - now rewrite (DebateFacts.debate_calls env config this i x Ex).
    - apply nth_error_None in Ex. lia. }
  split; [exact Hsend|]. split; [exact Hlen|]. split; [lia|]. split.
  - eexists. rewrite (Hnth 0) by lia.
    now rewrite DebateFacts.expectedCall_opening.
  - split; [|now split].
    intros i Hi.
    destruct (DebateFacts.expectedCall_later env config i) as [before Hshape];
      [lia|].
    destruct (nth_error (emitted (log (DebateService.run env config this))) (i - 1))
      as [turn|] eqn:Et.
    2:{ apply nth_error_None in Et. lia. }
    exists before, turn. split; [reflexivity|].
    rewrite (Hnth i) by lia. rewrite Hshape.
    rewrite (debate_contents_nth env _ _ _ Hcon Et).
    reflexivity.
Qed.

End Turns.

(** The theorem at a discussion of two rounds whose second reply is three
    spaces: the second turn carries the fallback text, and the third
    request follows it. *)
Lemma empty_reply_fallback_witness :
  (exists m,
      nth_error (emitted (log (ChatService.run Demo.blankSecond (Demo.session 2 0)
                                               created))) 1 = Some m
      /\ d_content m = "我对此主题没有特别的见解。"%string
      /\ nth_error (history (ChatService.run Demo.blankSecond (Demo.session 2 0)
                                             created)) 1 = Some m)
  /\ (1 < length (emitted (log (ChatService.run Demo.blankSecond (Demo.session 2 0)
                                                created)))
      /\ (2 < 2 * Z.to_nat 2 ->
          2 < length (transmitted (log (ChatService.run Demo.blankSecond
                                          (Demo.session 2 0) created)))))
  /\ length (emitted (log (ChatService.run Demo.blankSecond (Demo.session 2 0)
                                           created))) = 2 * Z.to_nat 2
  /\ completions (log (ChatService.run Demo.blankSecond (Demo.session 2 0) created))
     = 1
  /\ errors (log (ChatService.run Demo.blankSecond (Demo.session 2 0) created)) = [].
Proof.
  destruct (empty_reply_fallback Demo.blankSecond (Demo.session 2 0) created
              eq_refl eq_refl) as (Hturn & Hon & Hgo & _).
  split; [|split].
  - eexists. split; [vm_compute; reflexivity|].
    apply (Hturn 1); [vm_compute; reflexivity | reflexivity].
  - apply (Hon (or_introl eq_refl) 1); [vm_compute; lia | reflexivity].
  - apply Hgo; [reflexivity | intros j; reflexivity].
Defined.

(** The theorem at three rounds. *)
Lemma turns_bounded_witness :
  (Z.of_nat (length (emitted (log (ChatService.run Demo.fourReplies
                                     (Demo.session 3 0) created)))) <= 2 * 3)%Z
  /\ (Z.of_nat (length (emitted (log (DebateService.run Demo.fourReplies
                                        (Demo.session 3 0) created))))
      <= 1 + 2 * (3 - 1))%Z.
Proof.
  apply (turns_bounded Demo.fourReplies (Demo.session 3 0) created).
  cbn [rounds Demo.session]. lia.
Defined.

(** The theorem at a debate of two rounds with the replies a1, b1, a2:
    the second request goes to AI 2 and ends with a1 and the instruction
    to rebut the pro side, the third goes to AI 1 and ends with b1 and the
    instruction to rebut the con side. *)
Lemma debate_order_witness :
  map sender (emitted (log (DebateService.run Demo.fourReplies (Demo.session 2 0)
                                              created)))
  = ["ai1"; "ai2"; "ai1"]%string
  /\ length (calls (log (DebateService.run Demo.fourReplies (Demo.session 2 0)
                                           created))) = 3
  /\ (exists before turn,
        nth_error (emitted (log (DebateService.run Demo.fourReplies (Demo.session 2 0)
                                                   created))) (1 - 1) = Some turn
        /\ nth_error (calls (log (DebateService.run Demo.fourReplies (Demo.session 2 0)
                                                    created))) 1
           = Some ("openai"%string, "m2"%string,
                   before
                   ++ [{| role := assistant; content := d_content turn |};
                       {| role := user;
                          content := "请针对正方的观点进行反驳"%string |}]))
  /\ (exists before turn,
        nth_error (emitted (log (DebateService.run Demo.fourReplies (Demo.session 2 0)
                                                   created))) (2 - 1) = Some turn
        /\ nth_error (calls (log (DebateService.run Demo.fourReplies (Demo.session 2 0)
                                                    created))) 2
           = Some ("ollama"%string, "m1"%string,
                   before
                   ++ [{| role := assistant; content := d_content turn |};
                       {| role := user;
                          content := "请针对反方的观点进行反驳"%string |}]))
  /\ completions (log (DebateService.run Demo.fourReplies (Demo.session 2 0)
                                         created)) = 1.
Proof.
  destruct (debate_order Demo.fourReplies (Demo.session 2 0) created)
    as (Hsend & _ & Hcalls & _ & Hlater & Hc & _); try reflexivity.
  { intros j. unfold Demo.fourReplies, Demo.surroundings, Demo.scripted.
    cbn [respond]. destruct j as [|[|[|[|[|j]]]]]; reflexivity. }
  split; [exact Hsend|]. split; [exact Hcalls|].
  split; [apply (Hlater 1); cbn; lia|].
  split; [apply (Hlater 2); cbn; lia | exact Hc].
Defined.

(** *** The message lists of a discussion *)

Section Histories.

Variable env : Env.

Lemma chat_request_after_turns config this newer api model messages temp older :
  log (ChatService.run env config this)
  = newer ++ Called api model messages temp :: older ->
  length (emitted older) = length (transmitted older).
Proof.
  intros H. apply (pace_at_request newer api model messages temp older).
  rewrite <- H. apply ChatFacts.discussion_in_step.
Qed.

(** C8 (what the code does instead).  In a discussion a request is made
    only when every earlier request has been followed by its turn, so
    that request number [i] (from 0) comes after [i] turns.  From the
    second pass on ([2 <= i]), the list sent to AI 1 (even [i]) has
    [1 + i] entries, and the list sent to AI 2 (odd [i]) has [i] entries:
    one less than the system entry and one entry for each turn. *)
Theorem ai2_list_one_short config this i api messages :
  nth_error (transmitted (log (ChatService.run env config this))) i
  = Some (api, messages) ->
  2 <= i ->
  length messages = (if Nat.even i then 1 + i else i)
  /\ forall newer api' model messages' temp older,
       log (ChatService.run env config this)
       = newer ++ Called api' model messages' temp :: older ->
       length (emitted older) = length (transmitted older).
Proof.
  intros Hi Hge. split.
  - rewrite <- (ChatFacts.length_expected env config i Hge).
    now rewrite <- (ChatFacts.discussion_lists env config this i _ Hi).
  - intros newer api' model messages' temp older.
    apply chat_request_after_turns.
Qed.



End Histories.

(** The theorem at the fourth request of a discussion of two rounds with
    the replies a1, b1, a2, b2: three turns have been emitted, and AI 2 is
    sent three entries. *)
Lemma ai2_list_one_short_witness :
  length [ChatFacts.said system ChatService.defaultCommonPrompt;
          ChatFacts.said user "a1"; ChatFacts.said assistant "b1"]
  = (if Nat.even 3 then 1 + 3 else 3).
Proof.
  apply (ai2_list_one_short Demo.fourReplies (Demo.session 2 0) created 3 "openai"
           [ChatFacts.said system ChatService.defaultCommonPrompt;
            ChatFacts.said user "a1"; ChatFacts.said assistant "b1"]).
  - vm_compute. reflexivity.
  - lia.
Defined.



(** *** Starting, ending and stopping *)

Section Calls.

Variable env : Env.

(** X11.  A call of [startChat] or [startDebate] on a service that is
    running does nothing but report the error: the run in progress keeps
    its flag, its history and its start time, and no request is made. *)
Theorem start_refused_while_running config this :
  isRunning this = true ->
  (log (ChatService.run env config this) = [OnError "对话已经在运行中"]
   /\ isRunning (ChatService.run env config this) = true
   /\ history (ChatService.run env config this) = history this
   /\ startTime (ChatService.run env config this) = startTime this)
  /\ (log (DebateService.run env config this) = [OnError "辩论已经在进行中"]
      /\ isRunning (DebateService.run env config this) = true
      /\ history (DebateService.run env config this) = history this
      /\ startTime (DebateService.run env config this) = startTime this).
Proof.
  intros Hrun.
  pose proof (ChatFacts.startChat_spec env config this) as Hc.
  pose proof (DebateFacts.startDebate_spec env config this) as Hd.
  unfold ChatFacts.startChatPost in Hc. unfold DebateFacts.startDebatePost in Hd.
  rewrite Hrun in Hc, Hd. now split.
Qed.

(** X12.  A topic that is empty or only white space is refused with an
    error and without a request; the call has by then emptied the history
    of the service, and it leaves the service idle. *)
Theorem blank_topic_refused config this :
  isRunning this = false -> Js.truthy (Js.trim (topic config)) = false ->
  (log (ChatService.run env config this) = [OnError "请输入讨论主题"]
   /\ isRunning (ChatService.run env config this) = false
   /\ history (ChatService.run env config this) = []
   /\ startTime (ChatService.run env config this) = None)
  /\ (log (DebateService.run env config this) = [OnError "请输入辩论主题"]
      /\ isRunning (DebateService.run env config this) = false
      /\ history (DebateService.run env config this) = []
      /\ startTime (DebateService.run env config this) = None).
Proof.
  intros Hrun Htopic.
  pose proof (ChatFacts.startChat_spec env config this) as Hc.
  pose proof (DebateFacts.startDebate_spec env config this) as Hd.
  unfold ChatFacts.startChatPost in Hc. unfold DebateFacts.startDebatePost in Hd.
  rewrite Hrun, Htopic in Hc, Hd. now split.
Qed.

(** X13.  However a call on an idle service ends (rounds done, time
    limit, stop, error), it leaves the service idle, with no start time,
    and with a history that holds exactly the turns it has emitted. *)
Theorem run_leaves_service_idle config this :
  isRunning this = false ->
  (isRunning (ChatService.run env config this) = false
   /\ startTime (ChatService.run env config this) = None
   /\ history (ChatService.run env config this)
      = emitted (log (ChatService.run env config this)))
  /\ (isRunning (DebateService.run env config this) = false
      /\ startTime (DebateService.run env config this) = None
      /\ history (DebateService.run env config this)
         = emitted (log (DebateService.run env config this))).
Proof.
  intros Hrun.
  pose proof (ChatFacts.startChat_spec env config this) as Hc.
  pose proof (DebateFacts.startDebate_spec env config this) as Hd.
  unfold ChatFacts.startChatPost in Hc. unfold DebateFacts.startDebatePost in Hd.
  rewrite Hrun in Hc, Hd.
  destruct (Js.truthy (Js.trim (topic config))).
  - destruct Hc as (_ & Hh & Hr & Ht & _).
    unfold DebateFacts.debated in Hd. cbv zeta in Hd.
    destruct Hd as (Hh' & Hr' & Ht' & _). auto.
  - destruct Hc as (Hl & Hr & Hh & Ht). destruct Hd as (Hl' & Hr' & Hh' & Ht').
    rewrite Hl, Hl', Hh, Hh'. auto.
Qed.

(** X14.  Without a time limit a discussion that got past its guards
    always ends with one call of [onComplete] and none of [onError], also
    when it is stopped and when requests fail. *)
Theorem discussion_always_completes config this :
  isRunning this = false -> Js.truthy (Js.trim (topic config)) = true ->
  timeLimit config = 0%Z ->
  completions (log (ChatService.run env config this)) = 1
  /\ errors (log (ChatService.run env config this)) = [].
Proof.
  intros Hrun Htopic Hl.
  destruct (chat_discussed env config this Hrun Htopic)
    as (He & _ & _ & _ & _ & _ & [Hc|[_ Hc]] & _); [auto | contradiction].
Qed.

(** X15.  A pass of the loop of a discussion that runs to its end has
    emitted two turns, by AI 1 and by AI 2, and has added their texts to
    both local lists: to AI 1's as [assistant] then [user], to AI 2's as
    [user] then [assistant], and two requests have been made. *)
Theorem discussion_round_roles config p r a h s :
  match ChatService.round env config p r a h s with
  | (Normal (a', h'), s') =>
      let c1 := ChatService.recorded (respond env (requests s)) in
      let c2 := ChatService.recorded (respond env (S (requests s))) in
      a' = a ++ [ChatFacts.said assistant c1; ChatFacts.said user c2]
      /\ h' = h ++ [ChatFacts.said user c1; ChatFacts.said assistant c2]
      /\ map d_content (emitted (log s')) = map d_content (emitted (log s)) ++ [c1; c2]
      /\ requests s' = S (S (requests s))
  | _ => True
  end.
Proof.
  pose proof (ChatFacts.chat_round_spec env config p r a h s) as H.
  unfold wp in H.
  destruct (ChatService.round env config p r a h s) as [[[a' h']| | |e] s'];
    try exact I.
  cbn [fst snd] in H.
  destruct H as (_ & _ & _ & _ & new & _ & Hm & t1 & t2 & -> & Hr & _ & Ha & Hh).
  cbv zeta. rewrite Hm, map_app. auto.
Qed.

(** X16.  Every message list a discussion sends is fixed by the number
    of its request and the texts recorded so far: [expected]. *)
Theorem every_list_sent config this i x :
  nth_error (transmitted (log (ChatService.run env config this))) i = Some x ->
  x = ChatFacts.expected env config i.
Proof. apply ChatFacts.discussion_lists. Qed.

(** X17.  In a discussion the reply to a request during which the run was
    stopped is dropped: if request number [j] was stopped, at most [j]
    turns are emitted. *)
Theorem stop_discards_awaited_reply config this j :
  stopDuring env j = true ->
  length (emitted (log (ChatService.run env config this))) <= j.
Proof. apply ChatFacts.stop_cuts_discussion. Qed.

(** X18.  In both services requests and turns alternate: a request is
    made only when every earlier one has been followed by its turn, and a
    turn is emitted only for a request that waits for one. *)
Theorem requests_and_turns_alternate config this :
  pace (log (ChatService.run env config this)) <> OutOfStep
  /\ pace (log (DebateService.run env config this)) <> OutOfStep.
Proof.
  split; [apply ChatFacts.discussion_in_step | apply DebateFacts.debate_in_step].
Qed.

(** X19.  A debate that got past its guards ends in one of three ways and
    never in two: [onComplete] is called at most once and only when all
    [1 + 2 * (rounds - 1)] turns are there and no error was reported;
    [onError] is called at most once, and then the last request made has
    no turn. *)
Theorem debate_endings config this :
  isRunning this = false -> Js.truthy (Js.trim (topic config)) = true ->
  let s := DebateService.run env config this in
  completions (log s) <= 1
  /\ length (errors (log s)) <= 1
  /\ (completions (log s) = 1 ->
      errors (log s) = []
      /\ length (emitted (log s)) = 1 + 2 * Z.to_nat (rounds config - 1))
  /\ (errors (log s) <> [] ->
      completions (log s) = 0 /\ requests s = S (length (emitted (log s)))).
Proof.
  intros Hrun Htopic. cbv zeta.
  pose proof (debate_debated env config this Hrun Htopic) as H.
  unfold DebateFacts.debated in H. cbv zeta in H.
  destruct H as (_ & _ & _ & _ & _ & _ & _ & _ & _ & Hend).
  destruct Hend as [(He & Hc & Hlen & Hr)|[(He & Hc & Hr & _)|(Hc & Hr & _ & He)]];
    rewrite ?He, ?Hc; cbn [length]; repeat split; auto; try lia;
    try discriminate; try congruence.
Qed.

(** X20.  The turns of a debate carry the replies as they came: turn
    number [j] has the content of the reply to request [j], which was a
    Success; nothing is trimmed and no fallback is put in, so that an
    empty reply gives an empty turn. *)
Theorem debate_turns_verbatim config this j m :
  isRunning this = false -> Js.truthy (Js.trim (topic config)) = true ->
  nth_error (emitted (log (DebateService.run env config this))) j = Some m ->
  d_content m = DebateService.contentOrEmpty (respond env j)
  /\ success (respond env j) = true.
Proof.
  intros Hrun Htopic Hm.
  pose proof (debate_debated env config this Hrun Htopic) as H.
  unfold DebateFacts.debated in H. cbv zeta in H.
  destruct H as (_ & _ & _ & _ & Hcon & _ & Hok & _).
  split; [exact (debate_contents_nth env _ _ _ Hcon Hm)|].
  apply Hok. apply nth_error_Some. congruence.
Qed.

(** X21.  A debate notices a stop only before its next request: if
    request number [j] was stopped, at most [j + 1] turns are emitted; and
    the reply that came in during the stop is emitted, as the opening turn
    is when the run is stopped during the opening request. *)
Theorem stop_ends_debate_late config this :
  (forall j, stopDuring env j = true ->
             length (emitted (log (DebateService.run env config this))) <= S j)
  /\ (isRunning this = false -> Js.truthy (Js.trim (topic config)) = true ->
      stopDuring env 0 = true -> success (respond env 0) = true ->
      map d_content (emitted (log (DebateService.run env config this)))
      = [DebateService.contentOrEmpty (respond env 0)]).
Proof.
  split.
  - intros j. apply DebateFacts.stop_cuts_debate.
  - apply DebateFacts.stop_keeps_opening.
Qed.

End Calls.

Lemma start_refused_while_running_witness :
  log (ChatService.run Demo.fourReplies (Demo.session 2 0) Demo.busy)
  = [OnError "对话已经在运行中"]
  /\ startTime (DebateService.run Demo.fourReplies (Demo.session 2 0) Demo.busy)
     = Some 5%Z.
Proof.
  destruct (start_refused_while_running Demo.fourReplies (Demo.session 2 0)
              Demo.busy eq_refl) as [(Hl & _) (_ & _ & _ & Ht)].
  split; [exact Hl | exact Ht].
Defined.

Lemma blank_topic_refused_witness :
  log (ChatService.run Demo.fourReplies Demo.blankSession Demo.used)
  = [OnError "请输入讨论主题"]
  /\ history (DebateService.run Demo.fourReplies Demo.blankSession Demo.used) = [].
Proof.
  destruct (blank_topic_refused Demo.fourReplies Demo.blankSession Demo.used
              eq_refl eq_refl) as [(Hl & _) (_ & _ & Hh & _)].
  split; [exact Hl | exact Hh].
Defined.

Lemma run_leaves_service_idle_witness :
  isRunning (ChatService.run Demo.lateClock (Demo.session 2 1) Demo.used) = false
  /\ history (DebateService.run Demo.lateClock (Demo.session 2 1) Demo.used)
     = emitted (log (DebateService.run Demo.lateClock (Demo.session 2 1) Demo.used)).
Proof.
  destruct (run_leaves_service_idle Demo.lateClock (Demo.session 2 1) Demo.used
              eq_refl) as [(Hr & _) (_ & _ & Hh)].
  split; [exact Hr | exact Hh].
Defined.

Lemma discussion_always_completes_witness :
  completions (log (ChatService.run Demo.stoppedAtOnce (Demo.session 2 0) created)) = 1
  /\ errors (log (ChatService.run Demo.stoppedAtOnce (Demo.session 2 0) created)) = [].
Proof.
  apply (discussion_always_completes Demo.stoppedAtOnce (Demo.session 2 0) created);
    reflexivity.
Defined.

Lemma every_list_sent_witness :
  ("ollama"%string,
   [ChatFacts.said system ChatService.defaultCommonPrompt;
    ChatFacts.said assistant "a1"; ChatFacts.said user "b1"])
  = ChatFacts.expected Demo.fourReplies (Demo.session 2 0) 2.
Proof.
  apply (every_list_sent Demo.fourReplies (Demo.session 2 0) created 2).
  vm_compute. reflexivity.
Defined.

Lemma stop_discards_awaited_reply_witness :
  length (emitted (log (ChatService.run Demo.stoppedAtOnce (Demo.session 2 0)
                                        created))) <= 0.
Proof.
  apply (stop_discards_awaited_reply Demo.stoppedAtOnce (Demo.session 2 0) created 0).
  reflexivity.
Defined.

Lemma debate_endings_witness :
  completions (log (DebateService.run Demo.secondFails (Demo.session 2 0) created)) <= 1
  /\ length (errors (log (DebateService.run Demo.secondFails (Demo.session 2 0)
                                            created))) <= 1.
Proof.
  destruct (debate_endings Demo.secondFails (Demo.session 2 0) created
              eq_refl eq_refl) as (Hc & He & _).
  split; [exact Hc | exact He].
Defined.

Lemma debate_turns_verbatim_witness :
  d_content {| sender := "ai1"; d_content := "A"; timestamp := 1000 |}
  = DebateService.contentOrEmpty (respond Demo.secondFails 0)
  /\ success (respond Demo.secondFails 0) = true.
Proof.
  apply (debate_turns_verbatim Demo.secondFails (Demo.session 2 0) created 0
           {| sender := "ai1"; d_content := "A"; timestamp := 1000 |});
    [reflexivity | reflexivity | vm_compute; reflexivity].
Defined.

Lemma stop_ends_debate_late_witness :
  length (emitted (log (DebateService.run Demo.stoppedAtOnce (Demo.session 2 0)
                                          created))) <= 1
  /\ map d_content (emitted (log (DebateService.run Demo.stoppedAtOnce
                                    (Demo.session 2 0) created)))
     = [DebateService.contentOrEmpty (respond Demo.stoppedAtOnce 0)].
Proof.
  destruct (stop_ends_debate_late Demo.stoppedAtOnce (Demo.session 2 0) created)
    as [Hcut Hkeep].
  split; [apply (Hcut 0); reflexivity | apply Hkeep; reflexivity].
Defined.

(** *** More about the course of a run *)

Section Courses.

Variable env : Env.

(** X27.  A discussion that got past its guards ends in one of three
    ways, whatever the replies are: all its rounds are done, with two
    turns for each and a turn for every request; or it was stopped
    during the request made last, whose reply is dropped, and completes;
    or a reading of the clock was past the limit, and it does not
    complete. *)
Theorem discussion_three_endings config this :
  isRunning this = false -> Js.truthy (Js.trim (topic config)) = true ->
  let s := ChatService.run env config this in
  let turns := length (emitted (log s)) in
  (turns = 2 * Z.to_nat (rounds config) /\ requests s = turns
   /\ completions (log s) = 1)
  \/ (requests s = S turns /\ stopDuring env turns = true
      /\ completions (log s) = 1)
  \/ (completions (log s) = 0
      /\ timeLimit config <> 0%Z /\ clock env 0 <> 0%Z
      /\ exists k, 0 < k
                   /\ (1000 * timeLimit config <= clock env k - clock env 0)%Z).
Proof. intros Hrun Htopic. exact (ChatFacts.discussion_ends env config this Hrun Htopic). Qed.

(** X28.  Every request of a debate is fixed by its number and the
    replies so far ([expectedCall]): the requests with an even number go
    to the API and the model of AI 1, with its first two entries and,
    for every utterance of AI 2 so far, that utterance as [assistant]
    and the instruction to rebut it; those with an odd number go to AI 2
    in the same way. *)
Theorem debate_requests_determined config this i x :
  nth_error (calls (log (DebateService.run env config this))) i = Some x ->
  x = DebateFacts.expectedCall env config i.
Proof. apply DebateFacts.debate_calls. Qed.

(** X29.  The turns of a discussion are AI 1's and AI 2's in turn,
    beginning with AI 1: turn [j] is signed 'ai1 (model1)' for even [j]
    and 'ai2 (model2)' for odd [j]. *)
Theorem discussion_speakers_alternate config this :
  map sender (emitted (log (ChatService.run env config this)))
  = map (fun j => if Nat.even j then ("ai1 (" ++ model1 config ++ ")")%string
                  else ("ai2 (" ++ model2 config ++ ")")%string)
        (seq 0 (length (emitted (log (ChatService.run env config this))))).
Proof. exact (ChatFacts.discussion_speakers env config this). Qed.

End Courses.

(** The theorem at a discussion that is stopped during its first
    request: one request, no turn. *)
Lemma discussion_three_endings_witness :
  (length (emitted (log (ChatService.run Demo.stoppedAtOnce (Demo.session 2 0)
                                         created))) = 2 * Z.to_nat 2
   /\ requests (ChatService.run Demo.stoppedAtOnce (Demo.session 2 0) created)
      = length (emitted (log (ChatService.run Demo.stoppedAtOnce (Demo.session 2 0)
                                              created)))
   /\ completions (log (ChatService.run Demo.stoppedAtOnce (Demo.session 2 0)
                                        created)) = 1)
  \/ (requests (ChatService.run Demo.stoppedAtOnce (Demo.session 2 0) created)
      = S (length (emitted (log (ChatService.run Demo.stoppedAtOnce
                                   (Demo.session 2 0) created))))
      /\ stopDuring Demo.stoppedAtOnce
           (length (emitted (log (ChatService.run Demo.stoppedAtOnce
                                    (Demo.session 2 0) created)))) = true
      /\ completions (log (ChatService.run Demo.stoppedAtOnce (Demo.session 2 0)
                                           created)) = 1)
  \/ (completions (log (ChatService.run Demo.stoppedAtOnce (Demo.session 2 0)
                                        created)) = 0
      /\ 0%Z <> 0%Z /\ 1000%Z <> 0%Z
      /\ exists k, 0 < k /\ (1000 * 0 <= Demo.frozen k - 1000)%Z).
Proof.
  exact (discussion_three_endings Demo.stoppedAtOnce (Demo.session 2 0) created
           eq_refl eq_refl).
Defined.

(** The theorem at the second request of a debate with the replies a1,
    b1, a2. *)
Lemma debate_requests_determined_witness :
  ("openai"%string, "m2"%string,
   DebateService.initialAi2Messages Demo.fourReplies (Demo.session 2 0)
   ++ [DebateFacts.said assistant "a1";
       DebateFacts.said user "请针对正方的观点进行反驳"])
  = DebateFacts.expectedCall Demo.fourReplies (Demo.session 2 0) 1.
Proof.
  apply (debate_requests_determined Demo.fourReplies (Demo.session 2 0) created 1).
  vm_compute. reflexivity.
Defined.
